(** * clang-func-mapping (ClangFnMapGen.cpp): function map generation

    A shallow embedding of [tools/clang-func-mapping/ClangFnMapGen.cpp] and
    the properties of it that the specification states.

    The tool walks the declarations of a translation unit, appends one text
    line per function to two string streams, and at the end of the unit
    appends the two streams to [definedFns.txt] and [externalFns.txt] in the
    CTU directory, under an exclusive [flock].

    Layout: strings and paths; the effect signature (system and library
    calls) and programs over it; the operating-system models (one process,
    and several processes sharing a file); the AST as the front end exposes
    it; the functions of the source file; sample units; then the theorems. *)

From Stdlib Require Import ZArith Ascii String List Permutation Lia.
From stdpp Require Import base strings list gmap.

Local Open Scope Z_scope.

(* ===================================================================== *)
(** * Strings *)
(* ===================================================================== *)

(** [std::string::empty], [StringRef::empty]. *)
Definition str_empty (s : string) : bool :=
  match s with EmptyString => true | String _ _ => false end.

(** The first [n] characters, and what is left after them. *)
Fixpoint str_take (n : nat) (s : string) : string :=
  match n, s with
  | S n', String c s' => String c (str_take n' s')
  | _, _ => EmptyString
  end.

Fixpoint str_drop (n : nat) (s : string) : string :=
  match n, s with
  | S n', String _ s' => str_drop n' s'
  | _, _ => s
  end.

(** [StringRef::endswith]. *)
Definition endswith (s suffix : string) : bool :=
  String.eqb (str_drop (String.length s - String.length suffix) s) suffix.

(** Number of complete lines, that is of newline characters. *)
Fixpoint count_lines (s : string) : nat :=
  match s with
  | EmptyString => O
  | String c s' =>
      (if Ascii.eqb c "010"%char then 1 else 0)%nat + count_lines s'
  end.

Fixpoint str_concat (l : list string) : string :=
  match l with
  | [] => ""
  | s :: l' => s +:+ str_concat l'
  end.

(* ===================================================================== *)
(** * Effects: the calls the tool makes, and programs over them *)
(* ===================================================================== *)

Inductive LockOp := LOCK_EX | LOCK_UN.

(** The calls into libc that the source makes, indexed by the type of what
    they return: [realpath] a [char *] (null on failure), the others an
    [int] or [ssize_t]. *)
Inductive Sys : Type -> Type :=
| sys_realpath (path : string) : Sys (option string)
| sys_open (path : string) (flags mode : Z) : Sys Z
| sys_flock (fd : Z) (op : LockOp) : Sys Z
| sys_write (fd : Z) (buf : string) : Sys Z
| sys_close (fd : Z) : Sys Z.

(** How a process can die. [SIGABRT]: a failed [assert]. [SIGSEGV]: a null
    pointer is dereferenced. *)
Inductive Signal := SIGABRT | SIGSEGV.

(** A program: it returns, makes a call and goes on with the answer, or the
    process is killed. *)
Inductive Prog (A : Type) : Type :=
| Ret (a : A)
| Vis {X : Type} (e : Sys X) (k : X -> Prog A)
| Raise (sig : Signal).

Arguments Ret {A} a.
Arguments Vis {A X} e k.
Arguments Raise {A} sig.

Fixpoint bind {A B : Type} (p : Prog A) (f : A -> Prog B) : Prog B :=
  match p with
  | Ret a => f a
  | Vis e k => Vis e (fun x => bind (k x) f)
  | Raise sig => Raise sig
  end.

Definition call {X : Type} (e : Sys X) : Prog X := Vis e Ret.

(** The monad structure, for stdpp's [x ← p; q] and [p ;; q]. *)
#[global] Instance Prog_ret : MRet Prog := @Ret.
#[global] Instance Prog_bind : MBind Prog := fun A B f p => bind p f.

(** Build configuration. [<assert.h>]: with [NDEBUG] defined, [assert(e)]
    expands to nothing; the [(void)written;] after the assertion in
    [lockedWrite] is there for such builds. *)
Class Build := { NDEBUG : bool }.

Definition assert `{Build} (e : bool) : Prog unit :=
  if NDEBUG then Ret tt else if e then Ret tt else Raise SIGABRT.

(** [<fcntl.h>] on Linux. *)
Definition O_WRONLY : Z := 1.
Definition O_CREAT : Z := 64.
Definition O_APPEND : Z := 1024.

(* ===================================================================== *)
(** * The ledger writer *)
(* ===================================================================== *)

(** [lockedWrite], lines 50-60. *)
Definition lockedWrite `{Build} (fileName content : string) : Prog unit :=
  if negb (str_empty content) then
    fd ← call (sys_open fileName (Z.lor (Z.lor O_CREAT O_WRONLY) O_APPEND) 438);
    call (sys_flock fd LOCK_EX) ;;
    written ← call (sys_write fd content);
    assert (written =? Z.of_nat (String.length content)) ;;
    call (sys_flock fd LOCK_UN) ;;
    call (sys_close fd) ;;
    mret tt
  else mret tt.

(* ===================================================================== *)
(** * One process and its operating system *)
(* ===================================================================== *)

(** A call together with its answer. *)
Inductive Event :=
| Called {X : Type} (e : Sys X) (r : X).

(** What the process sees of the system: how names resolve ([realpath]),
    the contents of the files, its own descriptor table, the free space on
    the device, and the calls made so far (oldest first). *)
Record OS := mkOS {
  paths : gmap string string;
  files : gmap string string;
  fdt : gmap Z string;
  next_fd : Z;
  space : nat;
  log : list Event;
}.

Definition logged {X : Type} (e : Sys X) (r : X) (os : OS) : OS :=
  mkOS (paths os) (files os) (fdt os) (next_fd os) (space os)
       (log os ++ [Called e r]).

(** [open]: with [O_CREAT] a missing file is created empty; without it the
    call fails. The directory is taken to exist. *)
Definition do_open (path : string) (flags : Z) (os : OS) : Z * OS :=
  match files os !! path with
  | None =>
      if Z.eqb (Z.land flags O_CREAT) 0 then (-1, os)
      else (next_fd os,
            mkOS (paths os) (<[path := ""]> (files os))
                 (<[next_fd os := path]> (fdt os)) (next_fd os + 1)
                 (space os) (log os))
  | Some _ =>
      (next_fd os,
       mkOS (paths os) (files os) (<[next_fd os := path]> (fdt os))
            (next_fd os + 1) (space os) (log os))
  end.

(** [flock]: no other process is there, the lock is granted at once. *)
Definition do_flock (fd : Z) (os : OS) : Z * OS :=
  match fdt os !! fd with
  | None => (-1, os)
  | Some _ => (0, os)
  end.

(** [write] on a descriptor opened with [O_APPEND]: transfers as many bytes
    as the device has room for, at the end of the file, and returns their
    number; with no room at all it fails ([ENOSPC]). *)
Definition do_write (fd : Z) (buf : string) (os : OS) : Z * OS :=
  match fdt os !! fd with
  | None => (-1, os)
  | Some path =>
      let n := Nat.min (String.length buf) (space os) in
      if (n =? 0)%nat && negb (str_empty buf) then (-1, os)
      else (Z.of_nat n,
            mkOS (paths os)
                 (<[path := default "" (files os !! path) +:+ str_take n buf]>
                    (files os))
                 (fdt os) (next_fd os) (space os - n)%nat (log os))
  end.

Definition do_close (fd : Z) (os : OS) : Z * OS :=
  match fdt os !! fd with
  | None => (-1, os)
  | Some _ =>
      (0, mkOS (paths os) (files os) (delete fd (fdt os)) (next_fd os)
               (space os) (log os))
  end.

(** What the system answers to a call, and the state it is left in. *)
Definition answer {X : Type} (e : Sys X) (os : OS) : X * OS :=
  match e in Sys T return T * OS with
  | sys_realpath path => (paths os !! path, os)
  | sys_open path flags _ => do_open path flags os
  | sys_flock fd _ => do_flock fd os
  | sys_write fd buf => do_write fd buf os
  | sys_close fd => do_close fd os
  end.

Definition exec {X : Type} (e : Sys X) (os : OS) : X * OS :=
  ((answer e os).1, logged e (answer e os).1 (answer e os).2).

(** How a run ends: the process returned, or it was killed. *)
Inductive Outcome (A : Type) : Type :=
| Exited (a : A) (os : OS)
| Killed (sig : Signal) (os : OS).

Arguments Exited {A} a os.
Arguments Killed {A} sig os.

Fixpoint run {A : Type} (p : Prog A) (os : OS) : Outcome A :=
  match p with
  | Ret a => Exited a os
  | Vis e k => run (k (exec e os).1) (exec e os).2
  | Raise sig => Killed sig os
  end.

(** What a run returned, if it returned. *)
Definition returned {A : Type} (o : Outcome A) : option A :=
  match o with Exited a _ => Some a | Killed _ _ => None end.

Definition final_os {A : Type} (o : Outcome A) : OS :=
  match o with Exited _ os => os | Killed _ os => os end.

Definition is_write (ev : Event) : bool :=
  match ev with Called (sys_write _ _) _ => true | _ => false end.

Definition is_realpath (ev : Event) : bool :=
  match ev with Called (sys_realpath _) _ => true | _ => false end.

(** An [open] of [path]: the only way to the file, all other calls going
    through the descriptor that it returns. *)
Definition is_open_of (path : string) (ev : Event) : bool :=
  match ev with
  | Called (sys_open p _ _) _ => String.eqb p path
  | _ => false
  end.

Definition count_events (f : Event -> bool) (os : OS) : nat :=
  length (List.filter f (log os)).

(* ===================================================================== *)
(** * What LLVM and the front end expose *)
(* ===================================================================== *)

(** [llvm::Triple::ArchType], declared outside the sources. The source
    names two enumerators, [thumb] and [arm]; any other one is kept by its
    numeric value. *)
Inductive ArchType := arm | thumb | OtherArch (tag : nat).

#[global] Instance ArchType_eq_dec : EqDecision ArchType.
Proof. solve_decision. Defined.

(** [llvm::Triple]: architecture, vendor, operating system, environment (the
    last three as the numeric values of their enumerations). *)
Record Triple := mkTriple {
  getArch : ArchType;
  getVendor : nat;
  getOS : nat;
  getEnvironment : nat;
}.

(** [Triple::getArchTypeName], LLVM's table of architecture names. *)
Class TripleNames := { getArchTypeName : ArchType -> string }.

Definition is_separator (c : ascii) : bool := Ascii.eqb c "/"%char.

Fixpoint strip_separators (s : string) : string :=
  match s with
  | String c s' => if is_separator c then strip_separators s' else s
  | EmptyString => EmptyString
  end.

Fixpoint ends_with_separator (s : string) : bool :=
  match s with
  | EmptyString => false
  | String c EmptyString => is_separator c
  | String _ s' => ends_with_separator s'
  end.

Definition starts_with_separator (s : string) : bool :=
  match s with
  | String c _ => is_separator c
  | EmptyString => false
  end.

Fixpoint has_separator (s : string) : bool :=
  match s with
  | EmptyString => false
  | String c s' => is_separator c || has_separator s'
  end.

(** A root name on POSIX is a network name: two separators and then a
    character that is none. *)
Definition has_root_name (s : string) : bool :=
  match s with
  | String a (String b (String c _)) =>
      is_separator a && Ascii.eqb b a && negb (is_separator c)
  | _ => false
  end.

(** Modelled from the spec: [llvm::sys::path::append] is LLVM support code
    outside the sources. The spec gives its result on the tool's arguments,
    [ast/<architecture>/<absolute-path-of-main-source-file>]; this is the
    POSIX joining rule that yields it: a separator is put between the path
    and the component unless the path ends with one (then those leading the
    component are dropped), the component starts with one, the path is
    empty, or the component is a root name. *)
Definition path_append1 (path component : string) : string :=
  let path_has_sep := negb (str_empty path) && ends_with_separator path in
  let component_has_sep :=
    negb (str_empty component) && starts_with_separator component in
  let is_root_name := has_root_name component in
  if path_has_sep then path +:+ strip_separators component
  else if negb component_has_sep && negb (str_empty path || is_root_name)
       then (path +:+ "/") +:+ component
       else path +:+ component.

Definition path_append (path : string) (components : list string) : string :=
  fold_left path_append1 components path.

(** Modelled from the spec: the enumeration [Linkage] is declared in the
    front end's headers, outside the sources. The [switch] of lines 131-140
    names the first three below; the spec calls them ordinary external
    linkage, linkage that becomes externally visible with no explicit
    symbol name, and unique-external linkage, and names internal linkage
    and no linkage as the ones left out. *)
Inductive Linkage :=
| ExternalLinkage
| VisibleNoLinkage
| UniqueExternalLinkage
| InternalLinkage
| NoLinkage.

Record SourceLocation := mkLoc { getFileID : nat; getOffset : nat }.

Record Stmt := mkStmt { getLocStart : SourceLocation }.

(** [SourceManager]: the main file, and the entry (here its name) of each
    file, a null pointer for a file without one. *)
Record SourceManager := mkSM {
  getMainFileID : nat;
  getFileEntryForID : nat -> option string;
}.

Definition isInMainFile (SM : SourceManager) (Loc : SourceLocation) : bool :=
  (getFileID Loc =? getMainFileID SM)%nat.

(** Which class of function declaration a node is, for [dyn_cast]. *)
Inductive FunctionKind :=
| Function | CXXMethod | CXXConstructor | CXXDestructor | CXXConversion.

(** A [FunctionDecl] node. [getCanonicalDecl] names the function that the
    node declares: all redeclarations of one function share it. *)
Record FunctionDecl := mkFD {
  getKind : FunctionKind;
  getCanonicalDecl : nat;
  getLinkageInternal : Linkage;
  getBuiltinID : nat;
}.

(** The declaration tree: [dyn_cast<FunctionDecl>] succeeds on the first
    form, [dyn_cast<DeclContext>] on the first two (a function is a
    declaration context too: parameters, local declarations). *)
#[warnings="-register-all"]
Inductive Decl :=
| DFunction (FD : FunctionDecl) (decls : list Decl)
| DContext (decls : list Decl)
| DOther.

(** [ASTContext]: the target, the source manager, the translation unit,
    and per function the body of the redeclaration that defines it, if
    there is one in the unit. *)
Record ASTContext := mkCtx {
  getTriple : Triple;
  getSourceManager : SourceManager;
  getTranslationUnitDecl : option Decl;
  getDefinition : nat -> option Stmt;
}.

(** Modelled from the spec: [FunctionDecl::getBody()] is front-end code
    outside the sources. The spec has the front end expose body presence
    per function, and a function defined in a unit never be external in
    it: the body is the one of the function, whichever of its
    redeclarations it is attached to, and null if none has one. *)
Definition getBody (Ctx : ASTContext) (FD : FunctionDecl) : option Stmt :=
  getDefinition Ctx (getCanonicalDecl FD).

Inductive CXXCtorType := Ctor_Complete | Ctor_Base.
Inductive CXXDtorType := Dtor_Deleting | Dtor_Complete | Dtor_Base.

(** [ItaniumMangleContext]: the three mangling entry points used, each
    returning what it writes to the stream. *)
Record ItaniumMangleContext := mkMangle {
  mangleCXXCtor : FunctionDecl -> CXXCtorType -> string;
  mangleCXXDtor : FunctionDecl -> CXXDtorType -> string;
  mangleName : FunctionDecl -> string;
}.

(* ===================================================================== *)
(** * The consumer *)
(* ===================================================================== *)

(** [getTripleSuffix], lines 62-69. *)
Definition getTripleSuffix `{TripleNames} (Ctx : ASTContext) : string :=
  let T := getArch (getTriple Ctx) in
  let T := if decide (T = thumb) then arm else T in
  getArchTypeName T.

(** The members of [MapFunctionNamesConsumer] (lines 71-83). The member
    [Triple] is [TripleStr] here, the type having the name. *)
Record MapFunctionNamesConsumer := mkConsumer {
  Ctx : ASTContext;
  ItaniumCtx : ItaniumMangleContext;
  DefinedFuncsStr : string;
  ExternFuncStr : string;
  TripleStr : string;
  CurrentFileName : string;
}.

(** The constructor, lines 80-82. *)
Definition newConsumer `{TripleNames}
    (Context : ASTContext) (MangleCtx : ItaniumMangleContext)
    : MapFunctionNamesConsumer :=
  mkConsumer Context MangleCtx "" "" ("@" +:+ getTripleSuffix Context) "".

(** [DefinedFuncsStr << s], [ExternFuncStr << s], [CurrentFileName = s]. *)
Definition putDefined (this : MapFunctionNamesConsumer) (s : string) :=
  mkConsumer (Ctx this) (ItaniumCtx this) (DefinedFuncsStr this +:+ s)
             (ExternFuncStr this) (TripleStr this) (CurrentFileName this).

Definition putExtern (this : MapFunctionNamesConsumer) (s : string) :=
  mkConsumer (Ctx this) (ItaniumCtx this) (DefinedFuncsStr this)
             (ExternFuncStr this +:+ s) (TripleStr this) (CurrentFileName this).

Definition setCurrentFileName (this : MapFunctionNamesConsumer) (s : string) :=
  mkConsumer (Ctx this) (ItaniumCtx this) (DefinedFuncsStr this)
             (ExternFuncStr this) (TripleStr this) s.

(** [getMangledName], lines 97-109. *)
Definition getMangledName (this : MapFunctionNamesConsumer)
    (FD : FunctionDecl) : string :=
  match getKind FD with
  | CXXConstructor => mangleCXXCtor (ItaniumCtx this) FD Ctor_Complete
  | CXXDestructor => mangleCXXDtor (ItaniumCtx this) FD Dtor_Complete
  | _ => mangleName (ItaniumCtx this) FD
  end.

(** Lines 119-125: the first function with a body resolves the main file.
    [getFileEntryForID] and [realpath] can both return null; the pointer is
    used unchecked, which kills the process. *)
Definition resolveCurrentFileName (this : MapFunctionNamesConsumer)
    : Prog MapFunctionNamesConsumer :=
  let SM := getSourceManager (Ctx this) in
  if str_empty (CurrentFileName this) then
    match getFileEntryForID SM (getMainFileID SM) with
    | None => Raise SIGSEGV
    | Some SMgrName =>
        Path ← call (sys_realpath SMgrName);
        match Path with
        | None => Raise SIGSEGV
        | Some Path => mret (setCurrentFileName this Path)
        end
    end
  else mret this.

(** Lines 115-145 of [handleDecl]: what is done for a declaration that is a
    [FunctionDecl]. *)
Definition handleFunctionDecl `{TripleNames}
    (this : MapFunctionNamesConsumer) (FD : FunctionDecl)
    : Prog MapFunctionNamesConsumer :=
  match getBody (Ctx this) FD with
  | Some Body =>
      let MangledName := getMangledName this FD in
      let SM := getSourceManager (Ctx this) in
      this ← resolveCurrentFileName this;
      let FileName :=
        path_append "ast" [getTripleSuffix (Ctx this); CurrentFileName this] in
      let FullName := MangledName +:+ TripleStr this in
      match getLinkageInternal FD with
      | ExternalLinkage | VisibleNoLinkage | UniqueExternalLinkage =>
          let this :=
            if isInMainFile SM (getLocStart Body)
            then putDefined this "!" else this in
          mret (putDefined (putDefined (putDefined (putDefined this
                  FullName) " ") FileName) (String "010" ""))
      | _ => mret this
      end
  | None =>
      if negb (bool_decide (is_Some (getBody (Ctx this) FD)))
         && (getBuiltinID FD =? 0)%nat
      then
        let MangledName := getMangledName this FD in
        mret (putExtern (putExtern (putExtern this
                MangledName) (TripleStr this)) (String "010" ""))
      else mret this
  end.

(** [handleDecl], lines 111-150. The members of a declaration context are
    never null, so the test of line 112 is made where the pointer comes from
    elsewhere, in [HandleTranslationUnit]. *)
Fixpoint handleDecl `{TripleNames} (D : Decl)
    (this : MapFunctionNamesConsumer) {struct D}
    : Prog MapFunctionNamesConsumer :=
  let fix members (decls : list Decl) (this : MapFunctionNamesConsumer)
      : Prog MapFunctionNamesConsumer :=
    match decls with
    | [] => mret this
    | D' :: decls' => this ← handleDecl D' this; members decls' this
    end in
  match D with
  | DFunction FD decls => this ← handleFunctionDecl this FD; members decls this
  | DContext decls => members decls this
  | DOther => mret this
  end.

(** The loop of lines 147-149 on its own. *)
Fixpoint handleDecls `{TripleNames} (decls : list Decl)
    (this : MapFunctionNamesConsumer) : Prog MapFunctionNamesConsumer :=
  match decls with
  | [] => mret this
  | D :: decls' => this ← handleDecl D this; handleDecls decls' this
  end.

(** [HandleTranslationUnit], lines 86-88, with the null test of line 112. *)
Definition HandleTranslationUnit `{TripleNames}
    (this : MapFunctionNamesConsumer) (Ctx : ASTContext)
    : Prog MapFunctionNamesConsumer :=
  match getTranslationUnitDecl Ctx with
  | None => mret this
  | Some D => handleDecl D this
  end.

(** The destructor, lines 162-170; [CTUDir] is the value of the option. *)
Definition deleteConsumer `{Build} (CTUDir : string)
    (this : MapFunctionNamesConsumer) : Prog unit :=
  let ExternalFns := path_append CTUDir ["externalFns.txt"] in
  let DefinedFns := path_append CTUDir ["definedFns.txt"] in
  lockedWrite ExternalFns (ExternFuncStr this) ;;
  lockedWrite DefinedFns (DefinedFuncsStr this).

(** Modelled from the spec: the front-end action that drives a consumer
    ([ASTFrontendAction], outside the sources) creates it for the unit
    (lines 174-182), hands it the translation unit, and destroys it, which
    flushes the two streams. *)
Definition runAction `{Build} `{TripleNames} (CTUDir : string)
    (Context : ASTContext) (MangleCtx : ItaniumMangleContext) : Prog unit :=
  let PFC := newConsumer Context MangleCtx in
  this ← HandleTranslationUnit PFC Context;
  deleteConsumer CTUDir this.

(** [main], lines 185-210, from where the option parser of line 191 has
    returned. [NumOccurrences] is how often [-ctu-dir] was given; [ToolRun]
    stands for [ClangTool::run] on the selected sources, whose result (0, 1
    or 2) the source drops. *)
Definition main (NumOccurrences : nat) (argv : list string)
    (ToolRun : list string -> Prog Z) : Prog Z :=
  if negb (NumOccurrences =? 1)%nat then mret 1
  else
    let Sources :=
      List.filter (fun arg => endswith arg ".cpp" || endswith arg ".cc"
                              || endswith arg ".c" || endswith arg ".cxx")
                  (List.tl argv) in
    ToolRun Sources ;; mret 0.

(* ===================================================================== *)
(** * Several processes on one file system *)
(* ===================================================================== *)

(** Where a process is: between calls, or inside [write], which moves the
    bytes to the file piece by piece; [rest] is what is still to be moved
    and [count] the size of the whole buffer, returned at the end. *)
Inductive Thread :=
| Running (p : Prog unit)
| InWrite (path rest : string) (count : nat) (k : Z -> Prog unit).

Record Process := mkProc {
  code : Thread;
  pfdt : gmap Z string;
  pnext_fd : Z;
}.

(** The shared system: name resolution, file contents, and per file the
    process that holds the exclusive lock on it. The device has room for
    every write. *)
Record World := mkWorld {
  wpaths : gmap string string;
  wfiles : gmap string string;
  wlocks : gmap string nat;
  procs : list Process;
}.

Definition set_proc (w : World) (i : nat) (p : Process) : World :=
  mkWorld (wpaths w) (wfiles w) (wlocks w) (<[i := p]> (procs w)).

(** One call of process [i], the process being [p]. [flock(LOCK_EX)] on a
    file that another process has locked does not return: the process stays
    where it is. [close] drops a lock still held through the descriptor. *)
Definition call_step {X : Type} (e : Sys X) (w : World) (i : nat)
    (p : Process) : (X -> Prog unit) -> World :=
  match e in Sys T return (T -> Prog unit) -> World with
  | sys_realpath path => fun k =>
      set_proc w i (mkProc (Running (k (wpaths w !! path))) (pfdt p) (pnext_fd p))
  | sys_open path flags _ => fun k =>
      match wfiles w !! path with
      | None =>
          if Z.eqb (Z.land flags O_CREAT) 0
          then set_proc w i (mkProc (Running (k (-1))) (pfdt p) (pnext_fd p))
          else mkWorld (wpaths w) (<[path := ""]> (wfiles w)) (wlocks w)
                 (<[i := mkProc (Running (k (pnext_fd p)))
                                (<[pnext_fd p := path]> (pfdt p))
                                (pnext_fd p + 1)]> (procs w))
      | Some _ =>
          set_proc w i (mkProc (Running (k (pnext_fd p)))
                               (<[pnext_fd p := path]> (pfdt p))
                               (pnext_fd p + 1))
      end
  | sys_flock fd op => fun k =>
      match pfdt p !! fd with
      | None => set_proc w i (mkProc (Running (k (-1))) (pfdt p) (pnext_fd p))
      | Some path =>
          match op with
          | LOCK_EX =>
              match wlocks w !! path with
              | Some j =>
                  if (j =? i)%nat
                  then set_proc w i (mkProc (Running (k 0)) (pfdt p) (pnext_fd p))
                  else w
              | None =>
                  mkWorld (wpaths w) (wfiles w) (<[path := i]> (wlocks w))
                    (<[i := mkProc (Running (k 0)) (pfdt p) (pnext_fd p)]>
                       (procs w))
              end
          | LOCK_UN =>
              mkWorld (wpaths w) (wfiles w)
                (if bool_decide (wlocks w !! path = Some i)
                 then delete path (wlocks w) else wlocks w)
                (<[i := mkProc (Running (k 0)) (pfdt p) (pnext_fd p)]>
                   (procs w))
          end
      end
  | sys_write fd buf => fun k =>
      match pfdt p !! fd with
      | None => set_proc w i (mkProc (Running (k (-1))) (pfdt p) (pnext_fd p))
      | Some path =>
          if str_empty buf
          then set_proc w i (mkProc (Running (k 0)) (pfdt p) (pnext_fd p))
          else set_proc w i (mkProc (InWrite path buf (String.length buf) k)
                                    (pfdt p) (pnext_fd p))
      end
  | sys_close fd => fun k =>
      match pfdt p !! fd with
      | None => set_proc w i (mkProc (Running (k (-1))) (pfdt p) (pnext_fd p))
      | Some path =>
          mkWorld (wpaths w) (wfiles w)
            (if bool_decide (wlocks w !! path = Some i)
             then delete path (wlocks w) else wlocks w)
            (<[i := mkProc (Running (k 0)) (delete fd (pfdt p)) (pnext_fd p)]>
               (procs w))
      end
  end.

(** One step of process [i]. Inside [write], at least one and at most [n]
    of the remaining bytes go to the end of the file. A process that has
    returned or was killed stays as it is. *)
Definition step (w : World) (i n : nat) : World :=
  match procs w !! i with
  | None => w
  | Some p =>
      match code p with
      | Running (Ret _) => w
      | Running (Raise _) => w
      | Running (Vis e k) => call_step e w i p k
      | InWrite path rest count k =>
          let n := Nat.max 1 n in
          let rest' := str_drop n rest in
          mkWorld (wpaths w)
            (<[path := default "" (wfiles w !! path) +:+ str_take n rest]>
               (wfiles w))
            (wlocks w)
            (<[i := mkProc (if str_empty rest'
                            then Running (k (Z.of_nat count))
                            else InWrite path rest' count k)
                           (pfdt p) (pnext_fd p)]> (procs w))
      end
  end.

(** A schedule says, step by step, which process moves and how many bytes
    a [write] in progress may move. *)
Definition run_schedule (sched : list (nat * nat)) (w : World) : World :=
  fold_left (fun w '(i, n) => step w i n) sched w.

Definition exited (p : Process) : bool :=
  match code p with Running (Ret _) => true | _ => false end.

Definition all_exited (w : World) : bool := forallb exited (procs w).

(** [N] invocations about to flush their buffers to [fileName], none
    holding a lock. *)
Definition flushers `{Build} (fileName : string) (buffers : list string)
    (fs : gmap string string) : World :=
  mkWorld ∅ fs ∅
    (map (fun b => mkProc (Running (lockedWrite fileName b)) ∅ 3) buffers).

Definition file_of (fs : gmap string string) (path : string) : string :=
  default "" (fs !! path).

(** The states [lockedWrite] goes through on a buffer that is not empty:
    after [open], after the lock is taken, after [write] (with what it
    returned), and after unlocking and closing. The descriptor is
    [next_fd os], the one [open] hands out. *)
Definition lw_flags : Z := Z.lor (Z.lor O_CREAT O_WRONLY) O_APPEND.

Definition lw_opened (f : string) (os : OS) : OS :=
  (exec (sys_open f lw_flags 438) os).2.

Definition lw_locked (f : string) (os : OS) : OS :=
  (exec (sys_flock (next_fd os) LOCK_EX) (lw_opened f os)).2.

Definition lw_written (f c : string) (os : OS) : Z * OS :=
  exec (sys_write (next_fd os) c) (lw_locked f os).

Definition lw_closed (f c : string) (os : OS) : OS :=
  (exec (sys_close (next_fd os))
     (exec (sys_flock (next_fd os) LOCK_UN) (lw_written f c os).2).2).2.

(** The bytes that [write] moves: all of them if the device has room. *)
Definition lw_moved (c : string) (os : OS) : nat :=
  Nat.min (String.length c) (space os).

(** [lockedWrite] on a buffer that is not empty, cut at its calls: what is
    left to run after [open] returned [fd], after the lock was granted,
    after [write] returned [written], after the assertion, after the
    unlocking. *)
Definition lw_after_unlock (fd : Z) : Prog unit :=
  call (sys_close fd) ;; mret tt.

Definition lw_after_assert (fd : Z) : Prog unit :=
  call (sys_flock fd LOCK_UN) ;; lw_after_unlock fd.

Definition lw_after_write `{Build} (content : string) (fd written : Z)
    : Prog unit :=
  assert (written =? Z.of_nat (String.length content)) ;; lw_after_assert fd.

Definition lw_after_lock `{Build} (content : string) (fd : Z) : Prog unit :=
  written ← call (sys_write fd content); lw_after_write content fd written.

Definition lw_after_open `{Build} (content : string) (fd : Z) : Prog unit :=
  call (sys_flock fd LOCK_EX) ;; lw_after_lock content fd.

(** How far a flushing process is: nothing written and no lock held; the
    lock held and [done] written; everything written and the lock given
    back. *)
Inductive Stage :=
| Idle
| Holding (done : string)
| Finished.

(** The places of a process that flushes [b] to [f], with the stage of
    each. *)
Inductive at_stage `{Build} (f b : string) : Process -> Stage -> Prop :=
| st_start pf pn :
    at_stage f b (mkProc (Running (lockedWrite f b)) pf pn) Idle
| st_opened fd pf pn :
    b <> "" -> pf !! fd = Some f ->
    at_stage f b (mkProc (Running (lw_after_open b fd)) pf pn) Idle
| st_locked fd pf pn :
    b <> "" -> pf !! fd = Some f ->
    at_stage f b (mkProc (Running (lw_after_lock b fd)) pf pn) (Holding "")
| st_writing fd pf pn done rest :
    b = done +:+ rest -> rest <> "" -> pf !! fd = Some f ->
    at_stage f b (mkProc (InWrite f rest (String.length b) (lw_after_write b fd))
                         pf pn)
             (Holding done)
| st_written fd pf pn :
    b <> "" -> pf !! fd = Some f ->
    at_stage f b (mkProc (Running (lw_after_assert fd)) pf pn) (Holding b)
| st_unlocked fd pf pn :
    b <> "" -> pf !! fd = Some f ->
    at_stage f b (mkProc (Running (lw_after_unlock fd)) pf pn) Finished
| st_done pf pn :
    b <> "" ->
    at_stage f b (mkProc (Running (Ret tt)) pf pn) Finished.

(** What the stage of process [i] means for the lock on the file ([holder]
    is who holds it) and for [order], the processes that wrote to the file
    with what each wrote, in the order of the file. *)
Definition stage_ok (holder : option nat) (order : list (nat * string))
    (i : nat) (b : string) (st : Stage) : Prop :=
  match st with
  | Idle => holder <> Some i /\ ~ In i (map fst order)
  | Holding done => holder = Some i /\ exists order', order = order' ++ [(i, done)]
  | Finished => holder <> Some i /\ In (i, b) order
  end.

(** The invariant of the flushes of [buffers] to [f], the file holding
    [init] at the start. *)
Definition flushing `{Build} (f : string) (buffers : list string)
    (init : string) (w : World) : Prop :=
  exists order : list (nat * string),
    length (procs w) = length buffers
    /\ file_of (wfiles w) f = init +:+ str_concat (map snd order)
    /\ NoDup (map fst order)
    /\ (forall j s, In (j, s) order -> (j < length buffers)%nat)
    /\ (forall i b p,
          buffers !! i = Some b -> procs w !! i = Some p ->
          exists st, at_stage f b p st
                     /\ stage_ok (wlocks w !! f) order i b st).

Definition total_lines (l : list string) : nat :=
  list_sum (map count_lines l).

(* ===================================================================== *)
(** * What a unit records *)
(* ===================================================================== *)

(** The linkages named by the [switch] of lines 131-140. *)
Definition isRecordedLinkage (L : Linkage) : bool :=
  match L with
  | ExternalLinkage | VisibleNoLinkage | UniqueExternalLinkage => true
  | _ => false
  end.

(** The function declarations of a tree, in the order [handleDecl] meets
    them: a declaration before its members. *)
Fixpoint functionsOf (D : Decl) : list FunctionDecl :=
  match D with
  | DFunction FD decls => FD :: flat_map functionsOf decls
  | DContext decls => flat_map functionsOf decls
  | DOther => []
  end.

Definition unitFunctions (Ctx : ASTContext) : list FunctionDecl :=
  match getTranslationUnitDecl Ctx with
  | None => []
  | Some D => functionsOf D
  end.

(** Of these, the ones recorded as defined (with the body found) and the
    ones recorded as external. *)
Definition definedDecls (Ctx : ASTContext) (fds : list FunctionDecl)
    : list (FunctionDecl * Stmt) :=
  flat_map (fun FD =>
              match getBody Ctx FD with
              | Some Body =>
                  if isRecordedLinkage (getLinkageInternal FD)
                  then [(FD, Body)] else []
              | None => []
              end) fds.

Definition externalDecls (Ctx : ASTContext) (fds : list FunctionDecl)
    : list FunctionDecl :=
  List.filter (fun FD => negb (bool_decide (is_Some (getBody Ctx FD)))
                         && (getBuiltinID FD =? 0)%nat) fds.

Definition hasBodies (Ctx : ASTContext) (fds : list FunctionDecl) : bool :=
  existsb (fun FD => bool_decide (is_Some (getBody Ctx FD))) fds.

(** The two kinds of line, for a consumer whose main file resolved to
    [Path]. *)
Definition definedLine `{TripleNames} (this : MapFunctionNamesConsumer)
    (Path : string) (FDBody : FunctionDecl * Stmt) : string :=
  (if isInMainFile (getSourceManager (Ctx this)) (getLocStart FDBody.2)
   then "!" else "")
  +:+ getMangledName this FDBody.1 +:+ TripleStr this
  +:+ " "
  +:+ path_append "ast" [getTripleSuffix (Ctx this); Path]
  +:+ String "010" "".

Definition externLine (this : MapFunctionNamesConsumer) (FD : FunctionDecl)
    : string :=
  getMangledName this FD +:+ TripleStr this +:+ String "010" "".

(** The identity that a line carries. *)
Definition identity (this : MapFunctionNamesConsumer) (FD : FunctionDecl)
    : string :=
  getMangledName this FD +:+ TripleStr this.

(** The consumer after the declarations [fds] were handled, the main file
    resolving to [Path]; and the system after that: [realpath] was called
    if the name was not known yet and one of [fds] has a body. *)
Definition advance `{TripleNames} (this : MapFunctionNamesConsumer)
    (Path : string) (fds : list FunctionDecl) : MapFunctionNamesConsumer :=
  mkConsumer (Ctx this) (ItaniumCtx this)
    (DefinedFuncsStr this
     +:+ str_concat (map (definedLine this Path) (definedDecls (Ctx this) fds)))
    (ExternFuncStr this
     +:+ str_concat (map (externLine this) (externalDecls (Ctx this) fds)))
    (TripleStr this)
    (if hasBodies (Ctx this) fds then Path else CurrentFileName this).

Definition resolved (this : MapFunctionNamesConsumer)
    (fds : list FunctionDecl) (name Path : string) (os : OS) : OS :=
  if str_empty (CurrentFileName this) && hasBodies (Ctx this) fds
  then logged (sys_realpath name) (Some Path) os
  else os.

(** The name of the main file as the source manager has it. *)
Definition mainFileName (Ctx : ASTContext) : option string :=
  getFileEntryForID (getSourceManager Ctx)
                    (getMainFileID (getSourceManager Ctx)).

(** Whether the main file resolves, and to what. *)
Definition mainFilePath (Ctx : ASTContext) (os : OS) : option string :=
  match mainFileName Ctx with
  | None => None
  | Some name => paths os !! name
  end.

(** The system in which the process was killed for want of the path. *)
Definition unresolved (Ctx : ASTContext) (os : OS) : OS :=
  match mainFileName Ctx with
  | None => os
  | Some name => logged (sys_realpath name) None os
  end.

(** How a walk ends when the main file does not resolve: the first
    function with a body kills the process. *)
Definition lost_outcome `{TripleNames} (this : MapFunctionNamesConsumer)
    (fds : list FunctionDecl) (os : OS) : Outcome MapFunctionNamesConsumer :=
  if hasBodies (Ctx this) fds
  then Killed SIGSEGV (unresolved (Ctx this) os)
  else Exited (advance this "" fds) os.

(** The two statements proved of every declaration tree, for a main file
    that resolves and for one that does not. *)
Definition walks_to `{TripleNames} (name Path : string) (D : Decl) : Prop :=
  forall this os,
    mainFileName (Ctx this) = Some name ->
    paths os !! name = Some Path ->
    Path <> "" ->
    CurrentFileName this = "" \/ CurrentFileName this = Path ->
    run (handleDecl D this) os
    = Exited (advance this Path (functionsOf D))
             (resolved this (functionsOf D) name Path os).

Definition walk_lost `{TripleNames} (D : Decl) : Prop :=
  forall this os,
    CurrentFileName this = "" ->
    mainFilePath (Ctx this) os = None ->
    run (handleDecl D this) os = lost_outcome this (functionsOf D) os.

(* ===================================================================== *)
(** * Further notions: the calls of a flush, what a walk keeps *)
(* ===================================================================== *)

(** The calls of [lockedWrite] on a buffer that is not empty, with their
    answers: up to [write], which returned [written], and the two after
    it. *)
Definition lw_calls (f c : string) (fd written : Z) : list Event :=
  [ Called (sys_open f lw_flags 438) fd;
    Called (sys_flock fd LOCK_EX) 0;
    Called (sys_write fd c) written ].

Definition lw_last_calls (fd : Z) : list Event :=
  [ Called (sys_flock fd LOCK_UN) 0; Called (sys_close fd) 0 ].

(** Two systems that differ in the calls logged at most. *)
Definition same_system (os os' : OS) : Prop :=
  paths os' = paths os /\ files os' = files os /\ fdt os' = fdt os
  /\ next_fd os' = next_fd os /\ space os' = space os.

(** [os'] logged some calls to [realpath] after [os] and nothing else. *)
Definition only_resolved (os os' : OS) : Prop :=
  exists calls, log os' = log os ++ calls /\ forallb is_realpath calls = true.

(** What [handleDecl] keeps of the consumer: the members set by the
    constructor stay, and the two streams are only added to. *)
Definition kept (this this' : MapFunctionNamesConsumer) : Prop :=
  Ctx this' = Ctx this /\ ItaniumCtx this' = ItaniumCtx this
  /\ TripleStr this' = TripleStr this
  /\ (exists added, DefinedFuncsStr this' = DefinedFuncsStr this +:+ added)
  /\ (exists added, ExternFuncStr this' = ExternFuncStr this +:+ added).

(** How a walk from [this] in [os] may end. *)
Definition walk_frame (this : MapFunctionNamesConsumer) (os : OS)
    (o : Outcome MapFunctionNamesConsumer) : Prop :=
  same_system os (final_os o) /\ only_resolved os (final_os o)
  /\ match o with
     | Exited this' _ => kept this this'
     | Killed sig _ => sig = SIGSEGV
     end.

(** A process inside [write]. *)
Definition in_write (p : Process) : bool :=
  match code p with InWrite _ _ _ _ => true | Running _ => false end.

(** No newline in a string. *)
Definition one_line (s : string) : Prop := count_lines s = 0%nat.


(** The steps a process that flushes [b] to [f] has left when it moves
    alone and its [write] is not cut: six from the start ([open], the
    lock, [write] entered, [write] done, the unlocking, [close]). *)
Inductive steps_left `{Build} (f b : string) : Process -> nat -> Prop :=
| left_start c b' pf pn :
    b = String c b' ->
    steps_left f b (mkProc (Running (lockedWrite f b)) pf pn) 6
| left_opened fd pf pn :
    b <> "" -> pf !! fd = Some f ->
    steps_left f b (mkProc (Running (lw_after_open b fd)) pf pn) 5
| left_locked fd pf pn :
    b <> "" -> pf !! fd = Some f ->
    steps_left f b (mkProc (Running (lw_after_lock b fd)) pf pn) 4
| left_writing fd pf pn rest :
    (String.length rest <= String.length b)%nat -> pf !! fd = Some f ->
    steps_left f b
      (mkProc (InWrite f rest (String.length b) (lw_after_write b fd)) pf pn) 3
| left_written fd pf pn :
    pf !! fd = Some f ->
    steps_left f b (mkProc (Running (lw_after_assert fd)) pf pn) 2
| left_unlocked fd pf pn :
    pf !! fd = Some f ->
    steps_left f b (mkProc (Running (lw_after_unlock fd)) pf pn) 1
| left_done pf pn :
    steps_left f b (mkProc (Running (Ret tt)) pf pn) 0.

(** With [n] steps left, process [i] holds the lock between the second
    and the fifth step, and nobody holds it otherwise. *)
Definition lock_fits (holder : option nat) (i n : nat) : Prop :=
  (2 <= n <= 4 /\ holder = Some i)%nat
  \/ ((n < 2 \/ 4 < n) /\ holder = None)%nat.

(** Every lock is held by one of the processes. *)
Definition locks_owned (w : World) : Prop :=
  forall path j, wlocks w !! path = Some j -> (j < length (procs w))%nat.

(* ===================================================================== *)
(** * A system in which [open] can fail *)
(* ===================================================================== *)

(** Whether a call is an [open] of a path that the system refuses: the
    directory is missing or may not be written to, the name is empty. *)
Definition refuses (refused : string -> bool) {X : Type} (e : Sys X) : bool :=
  match e with
  | sys_open path _ _ => refused path
  | _ => false
  end.

(** [open] of a refused path fails: it returns -1 and changes nothing.
    Every other call is answered as in [answer]; on the descriptor -1,
    which no process has, [flock], [write] and [close] fail there. *)
Definition answer_in (refused : string -> bool) {X : Type} (e : Sys X)
    (os : OS) : X * OS :=
  match e in Sys T return T * OS -> T * OS with
  | sys_open path _ _ => fun r => if refused path then (-1, os) else r
  | _ => fun r => r
  end (answer e os).

Definition exec_in (refused : string -> bool) {X : Type} (e : Sys X)
    (os : OS) : X * OS :=
  ((answer_in refused e os).1,
   logged e (answer_in refused e os).1 (answer_in refused e os).2).

Fixpoint run_in (refused : string -> bool) {A : Type} (p : Prog A) (os : OS)
    : Outcome A :=
  match p with
  | Ret a => Exited a os
  | Vis e k => run_in refused (k (exec_in refused e os).1)
                              (exec_in refused e os).2
  | Raise sig => Killed sig os
  end.

(** A program that opens no refused path, whatever it is answered. *)
Inductive opens_allowed (refused : string -> bool) {A : Type}
    : Prog A -> Prop :=
| allowed_Ret a : opens_allowed refused (Ret a)
| allowed_Raise sig : opens_allowed refused (Raise sig)
| allowed_Vis {X : Type} (e : Sys X) (k : X -> Prog A) :
    refuses refused e = false ->
    (forall x, opens_allowed refused (k x)) ->
    opens_allowed refused (Vis e k).
(* ===================================================================== *)
(** * Sample builds, targets and units *)
(* ===================================================================== *)

Definition debug_build : Build := {| NDEBUG := false |}.
Definition release_build : Build := {| NDEBUG := true |}.

(** A target table: [OtherArch 1] stands for x86_64. *)
Definition sample_names : TripleNames :=
  {| getArchTypeName := fun T =>
       match T with
       | arm => "arm"
       | thumb => "thumb"
       | OtherArch 1 => "x86_64"
       | OtherArch _ => "unknown"
       end |}.

(** A mangler that knows the functions of the samples by their number. *)
Definition sample_mangle : ItaniumMangleContext :=
  {| mangleCXXCtor := fun _ _ => "_ZN1CC1Ev";
     mangleCXXDtor := fun _ _ => "_ZN1CD1Ev";
     mangleName := fun FD =>
       match getCanonicalDecl FD with
       | 0 => "_Z3addii"
       | 1 => "_Z3foov"
       | 2 => "_ZL6helperv"
       | 3 => "_Z5twicei"
       | 4 => "_Z6memcpyPvPKvm"
       | _ => "_Z4mainv"
       end%nat |}.

(** File 1 is the main file [unit.c], file 2 a header. *)
Definition sample_SM : SourceManager :=
  mkSM 1 (fun id => match id with
                    | 1 => Some "unit.c"
                    | 2 => Some "util.h"
                    | _ => None
                    end%nat).

Definition fd_add : FunctionDecl := mkFD Function 0 ExternalLinkage 0.
Definition fd_foo : FunctionDecl := mkFD Function 1 ExternalLinkage 0.
Definition fd_helper : FunctionDecl := mkFD Function 2 InternalLinkage 0.
Definition fd_twice : FunctionDecl := mkFD Function 3 ExternalLinkage 0.
Definition fd_memcpy : FunctionDecl := mkFD Function 4 ExternalLinkage 7.
Definition fd_main : FunctionDecl := mkFD Function 5 ExternalLinkage 0.
Definition fd_ctor : FunctionDecl := mkFD CXXConstructor 6 ExternalLinkage 0.

(** [int add(int, int);  int add(int a, int b) { return a + b; }
     void foo();  static void helper();  void *memcpy(...);
     #include "util.h" (defines twice)  int main() { foo(); ... }]:
    [add] declared and then defined, [foo], [helper] and [memcpy] only
    declared, [twice] defined in the header, [main] defined. *)
Definition sample_tu : Decl :=
  DContext
    [ DFunction fd_add [DOther; DOther];
      DFunction fd_add [DOther; DOther];
      DFunction fd_foo [];
      DFunction fd_helper [];
      DFunction fd_memcpy [DOther; DOther; DOther];
      DFunction fd_twice [DOther];
      DOther;
      DFunction fd_main [] ].

Definition sample_bodies (F : nat) : option Stmt :=
  match F with
  | 0 => Some (mkStmt (mkLoc 1 40))
  | 3 => Some (mkStmt (mkLoc 2 12))
  | 5 => Some (mkStmt (mkLoc 1 200))
  | _ => None
  end%nat.

Definition sample_Ctx : ASTContext :=
  mkCtx (mkTriple (OtherArch 1) 0 3 1) sample_SM (Some sample_tu) sample_bodies.

(** The same unit for a Thumb target with another system and environment. *)
Definition sample_Ctx_thumb : ASTContext :=
  mkCtx (mkTriple thumb 2 5 9) sample_SM (Some sample_tu) sample_bodies.

(** A unit that only has a [static] function with a body, and one in which
    [helper] is defined and [memcpy] too. *)
Definition static_Ctx : ASTContext :=
  mkCtx (mkTriple (OtherArch 1) 0 3 1) sample_SM
        (Some (DContext [DFunction fd_helper []]))
        (fun F => match F with 2%nat => Some (mkStmt (mkLoc 1 5)) | _ => None end).

Definition memcpy_Ctx : ASTContext :=
  mkCtx (mkTriple (OtherArch 1) 0 3 1) sample_SM
        (Some (DContext [DFunction fd_memcpy []]))
        (fun F => match F with 4%nat => Some (mkStmt (mkLoc 1 5)) | _ => None end).

(** A system in which [unit.c] resolves, with room for 4096 bytes, and one
    in which it does not resolve. *)
Definition sample_os : OS :=
  mkOS {["unit.c" := "/src/unit.c"]} ∅ ∅ 3 4096 [].

Definition lost_os : OS := mkOS ∅ ∅ ∅ 3 4096 [].

(** A device with room for three more bytes. *)
Definition full_os : OS := mkOS ∅ ∅ ∅ 3 3 [].

(** Two flushes, of [ab\n] by process 0 and of [c\n] by process 1: both
    open; 0 takes the lock and 1 waits for it; 0 writes two bytes, then
    the third, and unlocks; 1 gets the lock; 0 closes; 1 writes, unlocks
    and closes. *)
Definition sample_schedule : list (nat * nat) :=
  [ (0, 1); (1, 7); (0, 1); (1, 1); (0, 1); (0, 2); (1, 1); (0, 2); (0, 1);
    (1, 1); (1, 1); (0, 1); (1, 5); (1, 1); (1, 1) ]%nat.

(** A unit that only declares [foo] and [memcpy], for an [arm] target. *)
Definition decls_Ctx : ASTContext :=
  mkCtx (mkTriple arm 0 0 0) sample_SM
        (Some (DContext [DFunction fd_foo []; DFunction fd_memcpy [DOther]]))
        (fun _ => None).


(** A file system without the directory [gone]; the empty name opens
    nowhere. *)
Definition gone_dir (path : string) : bool :=
  str_empty path || String.prefix "gone/" path.
(* ===================================================================== *)
(** * Facts about strings *)
(* ===================================================================== *)

Lemma str_app_nil_l (s : string) : "" +:+ s = s.
Proof. reflexivity. Qed.

Lemma str_app_cons (c : ascii) (s t : string) :
  String c s +:+ t = String c (s +:+ t).
Proof. reflexivity. Qed.

Lemma str_app_nil_r (s : string) : s +:+ "" = s.
Proof.
  induction s as [|c s IH]; [reflexivity|].
  rewrite str_app_cons, IH. reflexivity.
Qed.

Lemma str_app_assoc (a b c : string) : (a +:+ b) +:+ c = a +:+ (b +:+ c).
Proof.
  induction a as [|x a IH]; [reflexivity|].
  rewrite !str_app_cons, IH. reflexivity.
Qed.

Lemma str_length_app (a b : string) :
  String.length (a +:+ b) = (String.length a + String.length b)%nat.
Proof.
  induction a as [|x a IH]; [reflexivity|].
  rewrite str_app_cons. simpl. rewrite IH. reflexivity.
Qed.

Lemma str_app_inv_head (a b c : string) : a +:+ b = a +:+ c -> b = c.
Proof.
  induction a as [|x a IH]; [trivial|].
  rewrite !str_app_cons. intros E. injection E as E. auto.
Qed.

Lemma str_app_inv_tail (a b c : string) : a +:+ c = b +:+ c -> a = b.
Proof.
  revert b. induction a as [|x a IH]; intros [|y b] E.
  - reflexivity.
  - apply (f_equal String.length) in E.
    rewrite str_app_nil_l, str_app_cons in E. simpl in E.
    rewrite str_length_app in E. lia.
  - apply (f_equal String.length) in E.
    rewrite str_app_nil_l, str_app_cons in E. simpl in E.
    rewrite str_length_app in E. lia.
  - rewrite !str_app_cons in E. injection E as -> E.
    f_equal. apply IH, E.
Qed.

Lemma str_app_eq_self (a b : string) : a +:+ b = a -> b = "".
Proof.
  intros E. apply (str_app_inv_head a). rewrite str_app_nil_r. exact E.
Qed.

Lemma str_empty_true (s : string) : str_empty s = true <-> s = "".
Proof. destruct s; simpl; split; congruence. Qed.

Lemma str_empty_false (s : string) : str_empty s = false <-> s <> "".
Proof. destruct s; simpl; split; congruence. Qed.

Lemma str_take_drop (n : nat) (s : string) : str_take n s +:+ str_drop n s = s.
Proof.
  revert s. induction n as [|n IH]; intros [|c s]; try reflexivity.
  simpl. rewrite str_app_cons, IH. reflexivity.
Qed.

Lemma str_take_all (n : nat) (s : string) :
  (String.length s <= n)%nat -> str_take n s = s.
Proof.
  revert s. induction n as [|n IH]; intros [|c s]; simpl; intros L;
    try reflexivity; try lia.
  f_equal. apply IH. lia.
Qed.

Lemma str_take_length (n : nat) (s : string) :
  String.length (str_take n s) = Nat.min n (String.length s).
Proof.
  revert s. induction n as [|n IH]; intros [|c s]; simpl; try reflexivity.
  rewrite IH. reflexivity.
Qed.

Lemma count_lines_app (a b : string) :
  count_lines (a +:+ b) = (count_lines a + count_lines b)%nat.
Proof.
  induction a as [|x a IH]; [reflexivity|].
  rewrite str_app_cons. simpl. rewrite IH. lia.
Qed.

Lemma str_concat_app (l1 l2 : list string) :
  str_concat (l1 ++ l2) = str_concat l1 +:+ str_concat l2.
Proof.
  induction l1 as [|s l1 IH]; [reflexivity|].
  simpl. rewrite IH, str_app_assoc. reflexivity.
Qed.

(* ===================================================================== *)
(** * Facts about runs *)
(* ===================================================================== *)

Lemma run_bind {A B : Type} (p : Prog A) (f : A -> Prog B) (os : OS) :
  run (bind p f) os =
  match run p os with
  | Exited a os' => run (f a) os'
  | Killed sig os' => Killed sig os'
  end.
Proof.
  revert os. induction p as [a|X e k IH|sig]; intros os; simpl.
  - reflexivity.
  - apply IH.
  - reflexivity.
Qed.

Lemma run_then_ret (p : Prog unit) (os : OS) :
  run (p ;; mret tt) os = run p os.
Proof.
  unfold mbind, Prog_bind. rewrite run_bind.
  destruct (run p os) as [[] os'|sig os']; reflexivity.
Qed.

Lemma count_events_logged {X} f (e : Sys X) r os :
  count_events f (logged e r os)
  = (count_events f os + if f (Called e r) then 1 else 0)%nat.
Proof.
  unfold count_events, logged; simpl. rewrite List.filter_app, length_app. simpl.
  destruct (f (Called e r)); reflexivity.
Qed.

Lemma lockedWrite_run `{Build} f c os :
  c <> "" ->
  run (lockedWrite f c) os =
  if NDEBUG || ((lw_written f c os).1 =? Z.of_nat (String.length c))
  then Exited tt (lw_closed f c os)
  else Killed SIGABRT (lw_written f c os).2.
Proof.
  intros Hc. unfold lockedWrite. apply str_empty_false in Hc. rewrite Hc.
  cbn [negb]. 
  assert (E : (exec (sys_open f lw_flags 438) os).1 = next_fd os).
  { unfold exec, answer, do_open. cbn [fst].
    destruct (files os !! f); reflexivity. }
  cbn [mbind Prog_bind bind call run]. fold lw_flags. rewrite E.
  fold (lw_opened f os). fold (lw_locked f os). fold (lw_written f c os).
  unfold assert. destruct NDEBUG; cbn [orb].
  - reflexivity.
  - destruct (_ =? _); reflexivity.
Qed.

Lemma lw_opened_spec f os :
  lw_opened f os =
  logged (sys_open f lw_flags 438) (next_fd os)
    (mkOS (paths os) (<[f := file_of (files os) f]> (files os))
          (<[next_fd os := f]> (fdt os)) (next_fd os + 1) (space os) (log os)).
Proof.
  unfold lw_opened, exec, answer, do_open, file_of. cbn [fst snd].
  destruct (files os !! f) as [s|] eqn:E; cbn [fst snd default].
  - rewrite (insert_id (files os) f s E). reflexivity.
  - reflexivity.
Qed.

Lemma lw_locked_spec f os :
  lw_locked f os = logged (sys_flock (next_fd os) LOCK_EX) 0 (lw_opened f os).
Proof.
  unfold lw_locked, exec, answer, do_flock. rewrite lw_opened_spec.
  cbn [logged fdt]. rewrite lookup_insert_eq. reflexivity.
Qed.

Lemma lw_written_result f c os :
  c <> "" ->
  (lw_written f c os).1 =
  if (lw_moved c os =? 0)%nat then -1 else Z.of_nat (lw_moved c os).
Proof.
  intros Hc. apply str_empty_false in Hc.
  unfold lw_written, exec, answer, do_write. cbn [fst].
  rewrite lw_locked_spec, lw_opened_spec. cbn [logged fdt space].
  rewrite lookup_insert_eq, Hc. cbn [negb]. rewrite andb_true_r.
  unfold lw_moved. destruct (_ =? _)%nat; reflexivity.
Qed.

Lemma lw_written_files f c os :
  c <> "" ->
  files (lw_written f c os).2 =
  <[f := file_of (files os) f +:+ str_take (lw_moved c os) c]> (files os).
Proof.
  intros Hc. apply str_empty_false in Hc.
  unfold lw_written, exec, answer, do_write. cbn [fst snd].
  rewrite lw_locked_spec, lw_opened_spec. cbn [logged fdt space files].
  rewrite lookup_insert_eq, Hc. cbn [negb]. rewrite andb_true_r.
  fold (lw_moved c os). destruct (lw_moved c os =? 0)%nat eqn:E.
  - apply Nat.eqb_eq in E. rewrite E. cbn [snd logged files str_take].
    rewrite str_app_nil_r. reflexivity.
  - cbn [snd logged files]. rewrite lookup_insert_eq. cbn [default].
    rewrite insert_insert_eq. reflexivity.
Qed.

Lemma count_events_exec {X} g (e : Sys X) os :
  count_events g (exec e os).2 =
  (count_events g (answer e os).2
   + if g (Called e (exec e os).1) then 1 else 0)%nat.
Proof. unfold exec. cbn [fst snd]. apply count_events_logged. Qed.

Lemma answer_log {X} (e : Sys X) os : log (answer e os).2 = log os.
Proof.
  destruct e; cbn [answer].
  - reflexivity.
  - unfold do_open. destruct (files os !! path); [reflexivity|].
    destruct (_ =? _); reflexivity.
  - unfold do_flock. destruct (fdt os !! fd); reflexivity.
  - unfold do_write. destruct (fdt os !! fd); [|reflexivity].
    destruct (_ && _); reflexivity.
  - unfold do_close. destruct (fdt os !! fd); reflexivity.
Qed.

Lemma count_events_step {X} g (e : Sys X) os :
  count_events g (exec e os).2 =
  (count_events g os + if g (Called e (exec e os).1) then 1 else 0)%nat.
Proof.
  rewrite count_events_exec. unfold count_events. rewrite answer_log.
  reflexivity.
Qed.

Lemma lw_written_writes f c os :
  count_events is_write (lw_written f c os).2 = (count_events is_write os + 1)%nat.
Proof.
  unfold lw_written, lw_locked, lw_opened.
  rewrite !count_events_step. cbn [is_write]. lia.
Qed.

Lemma lw_closed_writes f c os :
  count_events is_write (lw_closed f c os) = (count_events is_write os + 1)%nat.
Proof.
  unfold lw_closed. rewrite !count_events_step. cbn [is_write].
  rewrite lw_written_writes. lia.
Qed.

Lemma answer_files_close fd os : files (exec (sys_close fd) os).2 = files os.
Proof.
  unfold exec, answer, do_close. cbn [snd logged files].
  destruct (fdt os !! fd); reflexivity.
Qed.

Lemma answer_files_flock fd op os : files (exec (sys_flock fd op) os).2 = files os.
Proof.
  unfold exec, answer, do_flock. cbn [snd logged files].
  destruct (fdt os !! fd); reflexivity.
Qed.

Lemma lw_closed_files f c os :
  files (lw_closed f c os) = files (lw_written f c os).2.
Proof.
  unfold lw_closed. rewrite answer_files_close, answer_files_flock. reflexivity.
Qed.


(* ===================================================================== *)
(** * Facts about the walk over the declarations *)
(* ===================================================================== *)

(** Reduce the projections of a consumer that was built explicitly, and
    bring a stream that was put together piece by piece to normal form. *)
Ltac consumer_fields :=
  cbn [fst snd Ctx ItaniumCtx TripleStr DefinedFuncsStr ExternFuncStr
       CurrentFileName].

Ltac stream_done :=
  consumer_fields; rewrite ?str_app_assoc, ?str_app_nil_l; reflexivity.

Ltac one_decl :=
  cbn [isRecordedLinkage app map str_concat run mret Prog_ret];
  rewrite ?str_app_nil_r.

Section Walk.
Context `{TripleNames}.

Lemma resolveCurrentFileName_cached this os :
  CurrentFileName this <> "" ->
  run (resolveCurrentFileName this) os = Exited this os.
Proof.
  intros Hn. unfold resolveCurrentFileName.
  apply str_empty_false in Hn. rewrite Hn. reflexivity.
Qed.

Lemma resolveCurrentFileName_fresh this os name Path :
  CurrentFileName this = "" ->
  mainFileName (Ctx this) = Some name ->
  paths os !! name = Some Path ->
  run (resolveCurrentFileName this) os =
  Exited (setCurrentFileName this Path) (logged (sys_realpath name) (Some Path) os).
Proof.
  intros Hn Hm Hp. unfold resolveCurrentFileName. rewrite Hn. cbn [str_empty].
  unfold mainFileName in Hm. rewrite Hm.
  cbn [mbind Prog_bind bind call run exec answer fst snd]. rewrite Hp.
  reflexivity.
Qed.

Lemma resolveCurrentFileName_lost this os :
  CurrentFileName this = "" ->
  mainFilePath (Ctx this) os = None ->
  run (resolveCurrentFileName this) os = Killed SIGSEGV (unresolved (Ctx this) os).
Proof.
  intros Hn Hm. unfold resolveCurrentFileName. rewrite Hn. cbn [str_empty].
  unfold mainFilePath, unresolved, mainFileName in *.
  destruct (getFileEntryForID _ _) as [name|]; [|reflexivity].
  cbn [mbind Prog_bind bind call run exec answer fst snd]. rewrite Hm.
  reflexivity.
Qed.

Lemma advance_nil this Path : advance this Path [] = this.
Proof.
  unfold advance. cbn. rewrite !str_app_nil_r. destruct this; reflexivity.
Qed.

Lemma advance_app this Path fds1 fds2 :
  advance (advance this Path fds1) Path fds2 = advance this Path (fds1 ++ fds2).
Proof.
  unfold advance. cbn [Ctx ItaniumCtx DefinedFuncsStr ExternFuncStr TripleStr
                       CurrentFileName].
  unfold definedDecls, externalDecls, hasBodies.
  rewrite flat_map_app, List.filter_app, existsb_app, !map_app,
    !str_concat_app, !str_app_assoc.
  f_equal.
  destruct (existsb _ fds1), (existsb _ fds2); cbn [orb]; try reflexivity.
Qed.

Lemma resolved_app this name Path fds1 fds2 os :
  Path <> "" ->
  resolved (advance this Path fds1) fds2 name Path (resolved this fds1 name Path os)
  = resolved this (fds1 ++ fds2) name Path os.
Proof.
  intros Hp. unfold resolved, advance, hasBodies.
  cbn [Ctx CurrentFileName]. rewrite existsb_app.
  destruct (existsb _ fds1); cbn [orb].
  - apply str_empty_false in Hp. rewrite Hp. cbn [andb].
    destruct (str_empty (CurrentFileName this)); reflexivity.
  - rewrite andb_false_r. reflexivity.
Qed.

Lemma handleFunctionDecl_run this FD os name Path :
  mainFileName (Ctx this) = Some name ->
  paths os !! name = Some Path ->
  Path <> "" ->
  CurrentFileName this = "" \/ CurrentFileName this = Path ->
  run (handleFunctionDecl this FD) os
  = Exited (advance this Path [FD]) (resolved this [FD] name Path os).
Proof.
  intros Hm Hp Hne Hc.
  unfold handleFunctionDecl, advance, resolved, definedDecls, externalDecls,
    hasBodies.
  cbn [flat_map List.filter existsb].
  destruct (getBody (Ctx this) FD) as [Body|] eqn:HB.
  - rewrite bool_decide_eq_true_2 by eauto. cbn [negb andb orb].
    rewrite andb_true_r.
    unfold mbind, Prog_bind. rewrite run_bind.
    destruct Hc as [Hc|Hc].
    + rewrite (resolveCurrentFileName_fresh this os name Path Hc Hm Hp).
      rewrite Hc. cbn [str_empty setCurrentFileName]. consumer_fields.
      destruct (getLinkageInternal FD); one_decl; try reflexivity.
      all: unfold definedLine, putDefined; consumer_fields.
      all: destruct (isInMainFile _ _); stream_done.
    + assert (Hc' : CurrentFileName this <> "") by congruence.
      rewrite (resolveCurrentFileName_cached this os Hc').
      apply str_empty_false in Hc'. rewrite Hc'. cbn [andb].
      destruct (getLinkageInternal FD); one_decl; rewrite <- ?Hc;
        try (destruct this; reflexivity).
      all: unfold definedLine, putDefined; consumer_fields.
      all: destruct (isInMainFile _ _); stream_done.
  - rewrite bool_decide_eq_false_2 by (intros [? ?]; congruence).
    cbn [negb andb orb]. rewrite andb_false_r.
    destruct (getBuiltinID FD =? 0)%nat; one_decl.
    + unfold externLine, putExtern. stream_done.
    + destruct this; reflexivity.
Qed.

Lemma handleDecl_DContext_run decls this os :
  run (handleDecl (DContext decls) this) os = run (handleDecls decls this) os.
Proof.
  revert this os. induction decls as [|D decls IH]; intros this os.
  - reflexivity.
  - change (run (bind (handleDecl D this)
                      (fun this' => handleDecl (DContext decls) this')) os
            = run (bind (handleDecl D this)
                        (fun this' => handleDecls decls this')) os).
    rewrite !run_bind.
    destruct (run (handleDecl D this) os); [apply IH|reflexivity].
Qed.

Lemma handleDecl_DFunction_run FD decls this os :
  run (handleDecl (DFunction FD decls) this) os =
  match run (handleFunctionDecl this FD) os with
  | Exited this' os' => run (handleDecls decls this') os'
  | Killed sig os' => Killed sig os'
  end.
Proof.
  assert (E : handleDecl (DFunction FD decls) this
              = bind (handleFunctionDecl this FD)
                     (fun this' => handleDecl (DContext decls) this'))
    by reflexivity.
  rewrite E, run_bind. destruct (run (handleFunctionDecl this FD) os);
    [apply handleDecl_DContext_run|reflexivity].
Qed.

Lemma handleDecls_cons_run D decls this os :
  run (handleDecls (D :: decls) this) os =
  match run (handleDecl D this) os with
  | Exited this' os' => run (handleDecls decls this') os'
  | Killed sig os' => Killed sig os'
  end.
Proof. cbn [handleDecls]. unfold mbind, Prog_bind. apply run_bind. Qed.

(** Induction on a declaration tree, the members of a context coming with
    the property. *)
Lemma Decl_tree_ind (P : Decl -> Prop) :
  (forall FD decls, Forall P decls -> P (DFunction FD decls)) ->
  (forall decls, Forall P decls -> P (DContext decls)) ->
  P DOther ->
  forall D, P D.
Proof.
  intros HF HC HO.
  fix IH 1. intros [FD decls|decls|].
  - apply HF. induction decls as [|D decls IHd]; constructor; [apply IH|exact IHd].
  - apply HC. induction decls as [|D decls IHd]; constructor; [apply IH|exact IHd].
  - exact HO.
Qed.


Lemma advance_cached this Path fds :
  CurrentFileName this = "" \/ CurrentFileName this = Path ->
  CurrentFileName (advance this Path fds) = ""
  \/ CurrentFileName (advance this Path fds) = Path.
Proof.
  intros Hc. unfold advance. cbn [CurrentFileName].
  destruct (hasBodies _ _); [right; reflexivity|exact Hc].
Qed.

Lemma resolved_paths this fds name Path os :
  paths (resolved this fds name Path os) = paths os.
Proof. unfold resolved. destruct (_ && _); reflexivity. Qed.

Lemma handleDecls_run name Path decls :
  Forall (walks_to name Path) decls ->
  forall this os,
    mainFileName (Ctx this) = Some name ->
    paths os !! name = Some Path ->
    Path <> "" ->
    CurrentFileName this = "" \/ CurrentFileName this = Path ->
    run (handleDecls decls this) os
    = Exited (advance this Path (flat_map functionsOf decls))
             (resolved this (flat_map functionsOf decls) name Path os).
Proof.
  induction 1 as [|D decls HD _ IH]; intros this os Hm Hp Hne Hc.
  - cbn [flat_map]. rewrite advance_nil. unfold resolved, hasBodies.
    cbn [existsb]. rewrite andb_false_r. reflexivity.
  - rewrite handleDecls_cons_run, (HD this os Hm Hp Hne Hc).
    rewrite IH.
    + cbn [flat_map]. rewrite advance_app, resolved_app by exact Hne. reflexivity.
    + exact Hm.
    + rewrite resolved_paths. exact Hp.
    + exact Hne.
    + apply advance_cached, Hc.
Qed.

Lemma handleDecl_run name Path D : walks_to name Path D.
Proof.
  induction D as [FD decls IH|decls IH|] using Decl_tree_ind;
    intros this os Hm Hp Hne Hc.
  - rewrite handleDecl_DFunction_run.
    rewrite (handleFunctionDecl_run this FD os name Path Hm Hp Hne Hc).
    rewrite (handleDecls_run name Path decls IH).
    + cbn [functionsOf].
      rewrite advance_app, resolved_app by exact Hne. reflexivity.
    + exact Hm.
    + rewrite resolved_paths. exact Hp.
    + exact Hne.
    + apply advance_cached, Hc.
  - rewrite handleDecl_DContext_run.
    apply (handleDecls_run name Path decls IH); assumption.
  - cbn [handleDecl functionsOf run mret Prog_ret]. rewrite advance_nil.
    unfold resolved, hasBodies. cbn [existsb]. rewrite andb_false_r. reflexivity.
Qed.



Lemma handleFunctionDecl_lost this FD os :
  CurrentFileName this = "" ->
  mainFilePath (Ctx this) os = None ->
  run (handleFunctionDecl this FD) os = lost_outcome this [FD] os.
Proof.
  intros Hc Hm.
  unfold handleFunctionDecl, lost_outcome, advance, definedDecls,
    externalDecls, hasBodies.
  cbn [flat_map List.filter existsb].
  destruct (getBody (Ctx this) FD) as [Body|] eqn:HB.
  - rewrite bool_decide_eq_true_2 by eauto. cbn [orb].
    unfold mbind, Prog_bind. rewrite run_bind.
    rewrite (resolveCurrentFileName_lost this os Hc Hm). reflexivity.
  - rewrite bool_decide_eq_false_2 by (intros [? ?]; congruence).
    cbn [negb andb orb].
    destruct (getBuiltinID FD =? 0)%nat; one_decl.
    + unfold externLine, putExtern. stream_done.
    + destruct this; reflexivity.
Qed.

Lemma lost_outcome_app this fds1 fds2 os :
  match lost_outcome this fds1 os with
  | Exited this' os' => lost_outcome this' fds2 os'
  | Killed sig os' => Killed sig os'
  end = lost_outcome this (fds1 ++ fds2) os.
Proof.
  unfold lost_outcome. unfold hasBodies at 1 3. rewrite existsb_app.
  fold (hasBodies (Ctx this) fds1). fold (hasBodies (Ctx this) fds2).
  destruct (hasBodies (Ctx this) fds1) eqn:E1; cbn [orb]; [reflexivity|].
  cbn [advance Ctx]. fold (hasBodies (Ctx this) fds2).
  destruct (hasBodies (Ctx this) fds2) eqn:E2; [reflexivity|].
  rewrite advance_app. reflexivity.
Qed.

Lemma lost_outcome_stays this fds os this' os' :
  CurrentFileName this = "" ->
  mainFilePath (Ctx this) os = None ->
  lost_outcome this fds os = Exited this' os' ->
  CurrentFileName this' = "" /\ mainFilePath (Ctx this') os' = None.
Proof.
  unfold lost_outcome. intros Hc Hm.
  destruct (hasBodies _ _) eqn:E; [discriminate|].
  intros [= <- <-]. unfold advance. cbn [CurrentFileName Ctx]. rewrite E. auto.
Qed.

Lemma handleDecls_lost decls :
  Forall walk_lost decls ->
  forall this os,
    CurrentFileName this = "" ->
    mainFilePath (Ctx this) os = None ->
    run (handleDecls decls this) os
    = lost_outcome this (flat_map functionsOf decls) os.
Proof.
  induction 1 as [|D decls HD _ IH]; intros this os Hc Hm.
  - cbn [flat_map handleDecls run mret Prog_ret]. unfold lost_outcome.
    cbn [hasBodies existsb]. rewrite advance_nil. reflexivity.
  - rewrite handleDecls_cons_run, (HD this os Hc Hm). cbn [flat_map].
    rewrite <- lost_outcome_app.
    destruct (lost_outcome this (functionsOf D) os) as [this' os'|] eqn:E;
      [|reflexivity].
    destruct (lost_outcome_stays _ _ _ _ _ Hc Hm E). apply IH; assumption.
Qed.

Lemma handleDecl_lost D : walk_lost D.
Proof.
  induction D as [FD decls IH|decls IH|] using Decl_tree_ind; intros this os Hc Hm.
  - rewrite handleDecl_DFunction_run, (handleFunctionDecl_lost this FD os Hc Hm).
    cbn [functionsOf].
    change (FD :: flat_map functionsOf decls)
      with ([FD] ++ flat_map functionsOf decls).
    rewrite <- lost_outcome_app.
    destruct (lost_outcome this [FD] os) as [this' os'|] eqn:E; [|reflexivity].
    destruct (lost_outcome_stays _ _ _ _ _ Hc Hm E).
    apply (handleDecls_lost decls IH); assumption.
  - rewrite handleDecl_DContext_run. apply (handleDecls_lost decls IH); assumption.
  - cbn [handleDecl functionsOf run mret Prog_ret]. unfold lost_outcome.
    cbn [hasBodies existsb]. rewrite advance_nil. reflexivity.
Qed.
End Walk.

(* ===================================================================== *)
(** * Facts about paths *)
(* ===================================================================== *)

Lemma has_root_name_plain name :
  starts_with_separator name = false -> has_root_name name = false.
Proof.
  destruct name as [|a [|b [|c name]]]; cbn; try reflexivity.
  intros ->. reflexivity.
Qed.

Lemma strip_separators_plain name :
  starts_with_separator name = false -> strip_separators name = name.
Proof. destruct name as [|a name]; cbn; [reflexivity|]. intros ->. reflexivity. Qed.

Lemma starts_with_separator_plain s :
  has_separator s = false -> starts_with_separator s = false.
Proof.
  destruct s as [|c s]; [reflexivity|]. cbn. intros Hs.
  apply orb_false_iff in Hs as [Hc _]. exact Hc.
Qed.

Lemma ends_with_separator_plain s :
  has_separator s = false -> ends_with_separator s = false.
Proof.
  induction s as [|c s IH]; [reflexivity|]. cbn [has_separator].
  intros Hs. apply orb_false_iff in Hs as [Hc Hs].
  destruct s as [|c' s]; [exact Hc|]. apply IH, Hs.
Qed.

Lemma ends_with_separator_app p s :
  s <> "" -> has_separator s = false -> ends_with_separator (p +:+ s) = false.
Proof.
  intros Hne Hs. induction p as [|c p IH].
  - apply ends_with_separator_plain, Hs.
  - rewrite str_app_cons. cbn [ends_with_separator].
    destruct (p +:+ s) as [|c' t] eqn:E; [|exact IH].
    destruct p; [rewrite str_app_nil_l in E; contradiction|discriminate E].
Qed.

(** Joining a directory and a plain file name puts the name last. *)
Lemma path_append_file dir name :
  starts_with_separator name = false ->
  path_append dir [name] =
  (if str_empty dir || ends_with_separator dir then dir else dir +:+ "/")
  +:+ name.
Proof.
  intros Hn. unfold path_append, path_append1. cbn [fold_left].
  rewrite Hn, (has_root_name_plain name Hn), (strip_separators_plain name Hn).
  rewrite andb_false_r, orb_false_r. cbn [negb andb].
  destruct (str_empty dir); cbn [negb andb orb]; [reflexivity|].
  destruct (ends_with_separator dir); reflexivity.
Qed.

(** The virtual path of an absolute main file. *)
Lemma path_append_ast arch rest :
  arch <> "" -> has_separator arch = false ->
  path_append "ast" [arch; "/" +:+ rest] = "ast/" +:+ arch +:+ "/" +:+ rest.
Proof.
  intros Hne Hs. unfold path_append. cbn [fold_left].
  change (path_append1 "ast" arch) with (path_append "ast" [arch]).
  rewrite path_append_file by (apply starts_with_separator_plain, Hs).
  change ((if str_empty "ast" || ends_with_separator "ast"
           then "ast" else "ast" +:+ "/") +:+ arch)
    with ("ast/" +:+ arch).
  unfold path_append1.
  rewrite (ends_with_separator_app "ast/" arch Hne Hs), andb_false_r.
  change ("/" +:+ rest) with (String "/" rest).
  cbn [str_empty starts_with_separator is_separator negb andb].
  change (Ascii.eqb "/" "/") with true. cbn [negb andb].
  rewrite str_app_assoc. reflexivity.
Qed.

Lemma ledger_files_differ CTUDir :
  path_append CTUDir ["externalFns.txt"] <> path_append CTUDir ["definedFns.txt"].
Proof.
  rewrite !path_append_file by reflexivity. intros E.
  apply str_app_inv_head in E. discriminate E.
Qed.


(* ===================================================================== *)
(** * Facts about the flush of one process *)
(* ===================================================================== *)

Lemma lockedWrite_empty `{Build} f os : run (lockedWrite f "") os = Exited tt os.
Proof. reflexivity. Qed.

Lemma lockedWrite_other_files `{Build} f c g os :
  g <> f -> files (final_os (run (lockedWrite f c) os)) !! g = files os !! g.
Proof.
  intros Hg. destruct (decide (c = "")) as [->|Hc]; [reflexivity|].
  rewrite lockedWrite_run by exact Hc.
  destruct (_ || _); cbn [final_os].
  - rewrite lw_closed_files, lw_written_files by exact Hc.
    apply lookup_insert_ne. congruence.
  - rewrite lw_written_files by exact Hc. apply lookup_insert_ne. congruence.
Qed.


(** With room on the device the whole buffer is appended and the process
    goes on. *)
Lemma lockedWrite_full_write `{Build} f c os :
  c <> "" ->
  (String.length c <= space os)%nat ->
  run (lockedWrite f c) os = Exited tt (lw_closed f c os)
  /\ file_of (files (lw_closed f c os)) f = file_of (files os) f +:+ c.
Proof.
  intros Hc Hs. rewrite lockedWrite_run by exact Hc.
  assert (Hm : lw_moved c os = String.length c) by (unfold lw_moved; lia).
  assert (Hl : String.length c <> 0%nat) by (destruct c; [congruence|discriminate]).
  rewrite lw_written_result, Hm by exact Hc.
  destruct (Nat.eqb_spec (String.length c) 0) as [E|_]; [contradiction|].
  rewrite Z.eqb_refl, orb_true_r. split; [reflexivity|].
  rewrite lw_closed_files, lw_written_files, Hm by exact Hc.
  rewrite str_take_all by lia. unfold file_of at 1.
  rewrite lookup_insert_eq. reflexivity.
Qed.

Lemma lockedWrite_other_opens `{Build} f c g os :
  g <> f ->
  count_events (is_open_of g) (final_os (run (lockedWrite f c) os))
  = count_events (is_open_of g) os.
Proof.
  intros Hg. destruct (decide (c = "")) as [->|Hc]; [reflexivity|].
  assert (Hfg : String.eqb f g = false) by (apply String.eqb_neq; congruence).
  rewrite lockedWrite_run by exact Hc.
  destruct (_ || _); cbn [final_os]; unfold lw_closed, lw_written, lw_locked,
    lw_opened; rewrite !count_events_step; cbn [is_open_of]; rewrite Hfg; lia.
Qed.

(* ===================================================================== *)
(** * Facts about what a unit records *)
(* ===================================================================== *)

Lemma definedLine_not_empty `{TripleNames} this Path FDB :
  definedLine this Path FDB <> "".
Proof.
  unfold definedLine. intros E. apply (f_equal String.length) in E.
  rewrite !str_length_app in E. cbn in E. lia.
Qed.

Lemma isRecordedLinkage_iff L :
  isRecordedLinkage L = true <->
  L = ExternalLinkage \/ L = VisibleNoLinkage \/ L = UniqueExternalLinkage.
Proof.
  destruct L; cbn; split; intros Hx; auto; try discriminate;
    destruct Hx as [Hx|[Hx|Hx]]; discriminate.
Qed.

Lemma definedDecls_In ctx fds FD Body :
  In (FD, Body) (definedDecls ctx fds) ->
  In FD fds /\ getBody ctx FD = Some Body
  /\ isRecordedLinkage (getLinkageInternal FD) = true.
Proof.
  unfold definedDecls. rewrite in_flat_map. intros (FD' & Hin & Hx).
  destruct (getBody ctx FD') as [B|] eqn:HB; [|contradiction].
  destruct (isRecordedLinkage _) eqn:HL; [|contradiction].
  destruct Hx as [[= <- <-]|[]]. auto.
Qed.

Lemma externalDecls_In ctx fds FD :
  In FD (externalDecls ctx fds) ->
  In FD fds /\ getBody ctx FD = None /\ getBuiltinID FD = 0%nat.
Proof.
  unfold externalDecls. rewrite filter_In. intros (Hin & Hx).
  apply andb_true_iff in Hx as [Hb Hz]. apply Nat.eqb_eq in Hz.
  apply negb_true_iff, bool_decide_eq_false in Hb.
  destruct (getBody ctx FD); [exfalso; apply Hb; eauto|auto].
Qed.

Section Units.
Context `{TripleNames}.

Lemma unit_run Ctx M os name Path :
  mainFileName Ctx = Some name ->
  paths os !! name = Some Path ->
  Path <> "" ->
  run (HandleTranslationUnit (newConsumer Ctx M) Ctx) os
  = Exited (advance (newConsumer Ctx M) Path (unitFunctions Ctx))
           (resolved (newConsumer Ctx M) (unitFunctions Ctx) name Path os).
Proof.
  intros Hm Hp Hne. unfold HandleTranslationUnit, unitFunctions.
  destruct (getTranslationUnitDecl Ctx) as [D|].
  - apply handleDecl_run; try assumption. left. reflexivity.
  - cbn [run mret Prog_ret]. rewrite advance_nil. reflexivity.
Qed.

Lemma unit_lost Ctx M os :
  mainFilePath Ctx os = None ->
  run (HandleTranslationUnit (newConsumer Ctx M) Ctx) os
  = lost_outcome (newConsumer Ctx M) (unitFunctions Ctx) os.
Proof.
  intros Hm. unfold HandleTranslationUnit, unitFunctions.
  destruct (getTranslationUnitDecl Ctx) as [D|].
  - apply handleDecl_lost; [reflexivity|exact Hm].
  - cbn [run mret Prog_ret]. unfold lost_outcome. cbn [hasBodies existsb].
    rewrite advance_nil. reflexivity.
Qed.

End Units.

(* ===================================================================== *)
(** * Facts about concurrent flushes *)
(* ===================================================================== *)

Section Flush.
Context `{Build}.
Variable f : string.

Lemma lw_after_write_full b fd :
  lw_after_write b fd (Z.of_nat (String.length b)) = lw_after_assert fd.
Proof.
  unfold lw_after_write, assert. rewrite Z.eqb_refl.
  destruct NDEBUG; reflexivity.
Qed.

Lemma file_of_insert (fs : gmap string string) g s :
  file_of (<[g := s]> fs) g = s.
Proof. unfold file_of. rewrite lookup_insert_eq. reflexivity. Qed.

Lemma file_of_created (fs : gmap string string) :
  file_of (match fs !! f with None => <[f := ""]> fs | Some _ => fs end) f
  = file_of fs f.
Proof.
  destruct (fs !! f) eqn:E; [reflexivity|].
  rewrite file_of_insert. unfold file_of. rewrite E. reflexivity.
Qed.

Lemma stage_ok_other_acquire order i j b st :
  i <> j ->
  stage_ok None order j b st ->
  stage_ok (Some i) (order ++ [(i, "")]) j b st.
Proof.
  intros Hij. destruct st as [|done|]; cbn [stage_ok].
  - intros [_ Hn]. split; [congruence|].
    rewrite map_app, in_app_iff. cbn. intuition.
  - intros [Hh _]. discriminate.
  - intros [_ Hin]. split; [congruence|]. rewrite in_app_iff. auto.
Qed.

Lemma stage_ok_other_write order' d d' i j b st :
  i <> j ->
  stage_ok (Some i) (order' ++ [(i, d)]) j b st ->
  stage_ok (Some i) (order' ++ [(i, d')]) j b st.
Proof.
  intros Hij. destruct st as [|done|]; cbn [stage_ok].
  - rewrite !map_app. cbn. auto.
  - intros [Hh _]. congruence.
  - rewrite !in_app_iff. cbn. intros [Hh [Hin|[Hin|[]]]]; [auto|congruence].
Qed.

Lemma stage_ok_other_release order i j b st :
  i <> j ->
  stage_ok (Some i) order j b st ->
  stage_ok None order j b st.
Proof.
  intros Hij. destruct st as [|done|]; cbn [stage_ok].
  - intros [_ Hn]. split; [congruence|exact Hn].
  - intros [Hh _]. congruence.
  - intros [_ Hin]. split; [congruence|exact Hin].
Qed.

Lemma set_proc_lookup (ps : list Process) i j p :
  (i < length ps)%nat ->
  <[i := p]> ps !! j = if decide (i = j) then Some p else ps !! j.
Proof.
  intros Hi. destruct (decide (i = j)) as [<-|Hij].
  - apply list_lookup_insert_eq, Hi.
  - apply list_lookup_insert_ne, Hij.
Qed.

Lemma NoDup_map_fst_snoc (order : list (nat * string)) i s :
  NoDup (map fst order) -> ~ In i (map fst order) ->
  NoDup (map fst (order ++ [(i, s)])).
Proof.
  intros Hnd Hn. rewrite map_app. apply NoDup_app. split; [exact Hnd|].
  split.
  - intros x Hx Hx'. apply list_elem_of_In in Hx.
    cbn in Hx'. apply list_elem_of_In in Hx'. destruct Hx' as [<-|[]]. auto.
  - cbn. apply NoDup_singleton.
Qed.

(** One process moves: the invariant holds again if it holds of the new
    file, order and lock, of the process that moved, and if the other
    processes keep their stages. *)
Lemma flushing_update buffers init w i b p' st' order order' wf' wl' :
  length (procs w) = length buffers ->
  buffers !! i = Some b ->
  file_of wf' f = init +:+ str_concat (map snd order') ->
  NoDup (map fst order') ->
  (forall j s, In (j, s) order' -> (j < length buffers)%nat) ->
  at_stage f b p' st' ->
  stage_ok (wl' !! f) order' i b st' ->
  (forall j b st, i <> j ->
     stage_ok (wlocks w !! f) order j b st -> stage_ok (wl' !! f) order' j b st) ->
  (forall j b p,
     buffers !! j = Some b -> procs w !! j = Some p ->
     exists st, at_stage f b p st /\ stage_ok (wlocks w !! f) order j b st) ->
  flushing f buffers init (mkWorld (wpaths w) wf' wl' (<[i := p']> (procs w))).
Proof.
  intros Hlen Hb Hfile Hnd Hlt Hat Hok Hothers Hst.
  exists order'. cbn [procs wfiles wlocks].
  split; [rewrite length_insert; exact Hlen|].
  split; [exact Hfile|]. split; [exact Hnd|]. split; [exact Hlt|].
  intros j bj pj Hbj Hpj.
  rewrite set_proc_lookup in Hpj
    by (rewrite Hlen; apply lookup_lt_Some in Hb; exact Hb).
  destruct (decide (i = j)) as [<-|Hij].
  - injection Hpj as <-. assert (bj = b) as -> by congruence.
    exists st'. auto.
  - destruct (Hst j bj pj Hbj Hpj) as (st & Hat' & Hok').
    exists st. split; [exact Hat'|]. apply Hothers; assumption.
Qed.

(** What a step does at each place of a flush. *)
Lemma step_start w i n c b pf pn :
  procs w !! i = Some (mkProc (Running (lockedWrite f (String c b))) pf pn) ->
  step w i n =
  mkWorld (wpaths w)
    (match wfiles w !! f with
     | None => <[f := ""]> (wfiles w)
     | Some _ => wfiles w
     end)
    (wlocks w)
    (<[i := mkProc (Running (lw_after_open (String c b) pn)) (<[pn := f]> pf)
                   (pn + 1)]> (procs w)).
Proof.
  intros Hp. unfold step. rewrite Hp. cbn [code].
  change (lockedWrite f (String c b))
    with (Vis (sys_open f lw_flags 438) (fun fd => lw_after_open (String c b) fd)).
  cbv beta iota. cbn [call_step pfdt pnext_fd].
  change (Z.land lw_flags O_CREAT =? 0) with false. cbv iota.
  destruct (wfiles w !! f); reflexivity.
Qed.

Lemma step_opened w i n b fd pf pn :
  procs w !! i = Some (mkProc (Running (lw_after_open b fd)) pf pn) ->
  pf !! fd = Some f ->
  step w i n =
  match wlocks w !! f with
  | Some j =>
      if (j =? i)%nat
      then set_proc w i (mkProc (Running (lw_after_lock b fd)) pf pn)
      else w
  | None =>
      mkWorld (wpaths w) (wfiles w) (<[f := i]> (wlocks w))
        (<[i := mkProc (Running (lw_after_lock b fd)) pf pn]> (procs w))
  end.
Proof.
  intros Hp Hfd. unfold step. rewrite Hp. cbn [code].
  change (lw_after_open b fd)
    with (Vis (sys_flock fd LOCK_EX) (fun _ => lw_after_lock b fd)).
  cbv beta iota. cbn [call_step pfdt pnext_fd]. rewrite Hfd. reflexivity.
Qed.

Lemma step_locked w i n b fd pf pn :
  procs w !! i = Some (mkProc (Running (lw_after_lock b fd)) pf pn) ->
  pf !! fd = Some f ->
  b <> "" ->
  step w i n =
  set_proc w i (mkProc (InWrite f b (String.length b) (lw_after_write b fd)) pf pn).
Proof.
  intros Hp Hfd Hne. unfold step. rewrite Hp. cbn [code].
  change (lw_after_lock b fd)
    with (Vis (sys_write fd b) (fun written => lw_after_write b fd written)).
  cbv beta iota. cbn [call_step pfdt pnext_fd]. rewrite Hfd.
  apply str_empty_false in Hne. rewrite Hne. reflexivity.
Qed.

Lemma step_writing w i n rest count k pf pn :
  procs w !! i = Some (mkProc (InWrite f rest count k) pf pn) ->
  step w i n =
  mkWorld (wpaths w)
    (<[f := file_of (wfiles w) f +:+ str_take (Nat.max 1 n) rest]> (wfiles w))
    (wlocks w)
    (<[i := mkProc (if str_empty (str_drop (Nat.max 1 n) rest)
                    then Running (k (Z.of_nat count))
                    else InWrite f (str_drop (Nat.max 1 n) rest) count k)
                   pf pn]> (procs w)).
Proof. intros Hp. unfold step. rewrite Hp. reflexivity. Qed.

Lemma step_written w i n fd pf pn :
  procs w !! i = Some (mkProc (Running (lw_after_assert fd)) pf pn) ->
  pf !! fd = Some f ->
  step w i n =
  mkWorld (wpaths w) (wfiles w)
    (if bool_decide (wlocks w !! f = Some i)
     then delete f (wlocks w) else wlocks w)
    (<[i := mkProc (Running (lw_after_unlock fd)) pf pn]> (procs w)).
Proof.
  intros Hp Hfd. unfold step. rewrite Hp. cbn [code].
  change (lw_after_assert fd)
    with (Vis (sys_flock fd LOCK_UN) (fun _ => lw_after_unlock fd)).
  cbv beta iota. cbn [call_step pfdt pnext_fd]. rewrite Hfd. reflexivity.
Qed.

Lemma step_unlocked w i n fd pf pn :
  procs w !! i = Some (mkProc (Running (lw_after_unlock fd)) pf pn) ->
  pf !! fd = Some f ->
  step w i n =
  mkWorld (wpaths w) (wfiles w)
    (if bool_decide (wlocks w !! f = Some i)
     then delete f (wlocks w) else wlocks w)
    (<[i := mkProc (Running (Ret tt)) (delete fd pf) pn]> (procs w)).
Proof.
  intros Hp Hfd. unfold step. rewrite Hp. cbn [code].
  change (lw_after_unlock fd) with (Vis (sys_close fd) (fun _ => Ret tt)).
  cbv beta iota. cbn [call_step pfdt pnext_fd]. rewrite Hfd. reflexivity.
Qed.

Lemma step_returned w i n pf pn :
  procs w !! i = Some (mkProc (Running (Ret tt)) pf pn) -> step w i n = w.
Proof. intros Hp. unfold step. rewrite Hp. reflexivity. Qed.

Lemma flushing_step buffers init w i n :
  flushing f buffers init w -> flushing f buffers init (step w i n).
Proof.
  intros Hinv. pose proof Hinv as (order & Hlen & Hfile & Hnd & Hlt & Hst).
  destruct (procs w !! i) as [p|] eqn:Hp;
    [|unfold step; rewrite Hp; exact Hinv].
  assert (Hi : (i < length buffers)%nat).
  { rewrite <- Hlen. apply lookup_lt_Some in Hp. exact Hp. }
  destruct (lookup_lt_is_Some_2 buffers i Hi) as [b Hb].
  destruct (Hst i b p Hb Hp) as (st & Hat & Hok).
  inversion Hat as [pf pn|fd pf pn Hne Hfd|fd pf pn Hne Hfd
                    |fd pf pn done rest Hsplit Hrest Hfd|fd pf pn Hne Hfd
                    |fd pf pn Hne Hfd|pf pn Hne]; subst p st.
  - (* about to open *)
    destruct b as [|c b].
    { change (lockedWrite f "") with (Ret tt : Prog unit) in Hp.
      rewrite (step_returned w i n pf pn Hp). exact Hinv. }
    rewrite (step_start w i n c b pf pn Hp).
    eapply (flushing_update buffers init w i _ _ Idle order order); eauto.
    + rewrite file_of_created. exact Hfile.
    + apply st_opened; [discriminate|apply lookup_insert_eq].
  - (* waiting for the lock *)
    rewrite (step_opened w i n b fd pf pn Hp Hfd).
    destruct Hok as [Hnh Hnin].
    destruct (wlocks w !! f) as [j|] eqn:Hl.
    + destruct (Nat.eqb_spec j i) as [->|Hji]; [congruence|exact Hinv].
    + eapply (flushing_update buffers init w i _ _ (Holding "") order
                (order ++ [(i, "")])); eauto.
      * rewrite map_app, str_concat_app. cbn [map snd str_concat].
        rewrite !str_app_nil_r. exact Hfile.
      * apply NoDup_map_fst_snoc; assumption.
      * intros j s Hin. apply in_app_iff in Hin as [Hin|[[= <- <-]|[]]];
          [eapply Hlt; exact Hin|exact Hi].
      * apply st_locked; assumption.
      * cbn [stage_ok wlocks]. rewrite lookup_insert_eq. eauto.
      * intros j bj st Hij. rewrite Hl. cbn [wlocks]. rewrite lookup_insert_eq.
        apply stage_ok_other_acquire, Hij.
      * rewrite Hl. exact Hst.
  - (* entering write *)
    rewrite (step_locked w i n b fd pf pn Hp Hfd Hne).
    eapply (flushing_update buffers init w i _ _ (Holding "") order order); eauto.
    apply st_writing; [reflexivity|exact Hne|exact Hfd].
  - (* inside write *)
    rewrite (step_writing w i n rest _ _ pf pn Hp).
    destruct Hok as [Hh [order' ->]].
    set (m := Nat.max 1 n).
    assert (Hcut : str_take m rest +:+ str_drop m rest = rest)
      by apply str_take_drop.
    eapply (flushing_update buffers init w i _ _
              (Holding (done +:+ str_take m rest)) (order' ++ [(i, done)])
              (order' ++ [(i, done +:+ str_take m rest)])); eauto.
    + rewrite file_of_insert, Hfile, !map_app, !str_concat_app.
      cbn [map snd str_concat]. rewrite !str_app_nil_r, !str_app_assoc.
      reflexivity.
    + rewrite map_app in *. exact Hnd.
    + intros j s Hin. apply in_app_iff in Hin as [Hin|[[= <- <-]|[]]];
        [eapply Hlt; apply in_app_iff; left; exact Hin|exact Hi].
    + destruct (str_empty (str_drop m rest)) eqn:Hd.
      * apply str_empty_true in Hd. rewrite Hd, str_app_nil_r in Hcut.
        rewrite Hcut, lw_after_write_full, <- Hsplit.
        apply st_written; [|exact Hfd].
        rewrite Hsplit. intros E. apply (f_equal String.length) in E.
        rewrite str_length_app in E. destruct rest; [congruence|cbn in E; lia].
      * apply str_empty_false in Hd. apply st_writing; [|exact Hd|exact Hfd].
        rewrite str_app_assoc, Hcut. exact Hsplit.
    + cbn [stage_ok wlocks]. eauto.
    + intros j bj st Hij. cbn [wlocks]. rewrite Hh.
      apply stage_ok_other_write, Hij.
  - (* unlocking *)
    rewrite (step_written w i n fd pf pn Hp Hfd).
    destruct Hok as [Hh [order' ->]]. rewrite bool_decide_eq_true_2 by exact Hh.
    eapply (flushing_update buffers init w i _ _ Finished
              (order' ++ [(i, b)]) (order' ++ [(i, b)])); eauto.
    + apply st_unlocked; assumption.
    + cbn [stage_ok]. rewrite lookup_delete_eq. split; [discriminate|].
      apply in_app_iff. right. left. reflexivity.
    + intros j bj st Hij. rewrite Hh, lookup_delete_eq.
      apply stage_ok_other_release, Hij.
  - (* closing *)
    rewrite (step_unlocked w i n fd pf pn Hp Hfd).
    destruct Hok as [Hnh Hin]. rewrite bool_decide_eq_false_2 by exact Hnh.
    eapply (flushing_update buffers init w i _ _ Finished order order); eauto.
    + apply st_done. exact Hne.
    + cbn [stage_ok]. auto.
  - (* returned *)
    rewrite (step_returned w i n pf pn Hp). exact Hinv.
Qed.

Lemma flushing_init buffers fs :
  flushing f buffers (file_of fs f) (flushers f buffers fs).
Proof.
  exists []. unfold flushers. cbn [procs wfiles wlocks map snd fst str_concat].
  split; [apply length_map|]. split; [rewrite str_app_nil_r; reflexivity|].
  split; [apply NoDup_nil_2|]. split; [intros j s []|].
  intros i b p Hb Hp. rewrite list_lookup_fmap, Hb in Hp.
  injection Hp as <-. exists Idle. split; [apply st_start|].
  cbn [stage_ok map]. rewrite lookup_empty. split; [discriminate|intros []].
Qed.

Lemma flushing_run_schedule buffers init sched w :
  flushing f buffers init w -> flushing f buffers init (run_schedule sched w).
Proof.
  revert w. induction sched as [|[i n] sched IH]; intros w Hw; [exact Hw|].
  apply IH, flushing_step, Hw.
Qed.

(** A process that returned wrote its whole buffer, or had none. *)
Lemma at_stage_exited b p st :
  at_stage f b p st -> exited p = true ->
  (st = Idle /\ b = "") \/ st = Finished.
Proof.
  intros Hat. destruct Hat; cbn [exited code]; try discriminate; auto.
  destruct b; [auto|discriminate].
Qed.

End Flush.

Lemma count_lines_concat l : count_lines (str_concat l) = total_lines l.
Proof.
  unfold total_lines. induction l as [|s l IH]; [reflexivity|].
  cbn [str_concat map list_sum]. rewrite count_lines_app, IH. reflexivity.
Qed.

Lemma total_lines_Permutation l k :
  Permutation l k -> total_lines l = total_lines k.
Proof.
  unfold total_lines. induction 1; simpl; lia.
Qed.

Lemma map_lookup_seq (l : list string) :
  map (fun j => default "" (l !! j)) (seq 0 (length l)) = l.
Proof.
  induction l as [|s l IH]; [reflexivity|].
  cbn [length seq map]. f_equal. rewrite <- seq_shift, map_map. exact IH.
Qed.

Lemma str_concat_all_empty (l : list string) :
  (forall s, In s l -> s = "") -> str_concat l = "".
Proof.
  induction l as [|s l IH]; intros Hl; [reflexivity|].
  cbn [str_concat]. rewrite (Hl s) by (left; reflexivity).
  apply IH. intros s' Hs'. apply Hl. right. exact Hs'.
Qed.

Lemma order_unique (order : list (nat * string)) j s s' :
  NoDup (map fst order) -> In (j, s) order -> In (j, s') order -> s = s'.
Proof.
  induction order as [|[k t] order IH]; intros Hnd Hs Hs'; [destruct Hs|].
  cbn [map fst] in Hnd. apply NoDup_cons in Hnd as [Hk Hnd].
  assert (Hfst : forall u, In (k, u) order -> False).
  { intros u Hu. apply Hk, list_elem_of_In.
    change k with (fst (k, u)). apply in_map, Hu. }
  destruct Hs as [Hs|Hs], Hs' as [Hs'|Hs'].
  - congruence.
  - injection Hs as -> ->. destruct (Hfst _ Hs').
  - injection Hs' as -> ->. destruct (Hfst _ Hs).
  - apply IH; assumption.
Qed.

(** The processes that wrote, followed by those that did not, are all of
    them. *)
Lemma writers_and_others (ids : list nat) N :
  NoDup ids -> (forall j, In j ids -> (j < N)%nat) ->
  Permutation (ids ++ filter (fun j => j ∉ ids) (seq 0 N)) (seq 0 N).
Proof.
  intros Hnd Hlt. apply NoDup_Permutation.
  - apply NoDup_app. split; [exact Hnd|]. split.
    + intros x Hx Hx'. apply list_elem_of_filter in Hx' as [Hx' _]. auto.
    + apply NoDup_filter, NoDup_seq.
  - apply NoDup_seq.
  - intros x. rewrite elem_of_app, list_elem_of_filter, elem_of_seq. split.
    + intros [Hx|[_ Hx]]; [|exact Hx].
      apply list_elem_of_In, Hlt in Hx. lia.
    + intros Hx. destruct (decide (x ∈ ids)); auto.
Qed.


(* ===================================================================== *)
(** * More facts about the flush of one process *)
(* ===================================================================== *)

Lemma lw_written_log f c os :
  c <> "" ->
  log (lw_written f c os).2
  = log os ++ lw_calls f c (next_fd os) (lw_written f c os).1.
Proof.
  intros Hc. unfold lw_written at 1. unfold exec at 1. cbn [snd logged log].
  change (answer (sys_write (next_fd os) c) (lw_locked f os)).1
    with (lw_written f c os).1.
  rewrite answer_log, lw_locked_spec, lw_opened_spec. cbn [logged log].
  rewrite <- !app_assoc. reflexivity.
Qed.

Lemma lw_written_fdt f c os :
  fdt (lw_written f c os).2 = <[next_fd os := f]> (fdt os).
Proof.
  unfold lw_written, exec, answer, do_write. cbn [snd logged fdt].
  rewrite lw_locked_spec, lw_opened_spec. cbn [logged fdt].
  rewrite lookup_insert_eq. destruct (_ && _); reflexivity.
Qed.

Lemma lw_closed_log f c os :
  c <> "" ->
  log (lw_closed f c os)
  = log os ++ lw_calls f c (next_fd os) (lw_written f c os).1
    ++ lw_last_calls (next_fd os).
Proof.
  intros Hc. unfold lw_closed.
  set (os3 := (lw_written f c os).2).
  assert (H3 : fdt os3 !! next_fd os = Some f).
  { unfold os3. rewrite lw_written_fdt. apply lookup_insert_eq. }
  assert (E1 : exec (sys_flock (next_fd os) LOCK_UN) os3
               = (0, logged (sys_flock (next_fd os) LOCK_UN) 0 os3)).
  { unfold exec, answer, do_flock. rewrite H3. reflexivity. }
  rewrite E1. cbn [snd].
  unfold exec, answer, do_close. cbn [logged fdt]. rewrite H3.
  cbn [fst snd logged log]. unfold os3. rewrite lw_written_log by exact Hc.
  rewrite <- !app_assoc. reflexivity.
Qed.

Lemma lw_closed_fdt f c os :
  fdt os !! next_fd os = None ->
  fdt (lw_closed f c os) = fdt os.
Proof.
  intros Hfresh. unfold lw_closed.
  set (os3 := (lw_written f c os).2).
  assert (H3 : fdt os3 = <[next_fd os := f]> (fdt os)) by apply lw_written_fdt.
  assert (E1 : exec (sys_flock (next_fd os) LOCK_UN) os3
               = (0, logged (sys_flock (next_fd os) LOCK_UN) 0 os3)).
  { unfold exec, answer, do_flock. rewrite H3, lookup_insert_eq. reflexivity. }
  rewrite E1. cbn [snd].
  unfold exec, answer, do_close. cbn [logged fdt]. rewrite H3, lookup_insert_eq.
  cbn [fst snd logged fdt]. rewrite delete_insert_eq.
  apply delete_id. exact Hfresh.
Qed.

Lemma lw_written_state f c os :
  c <> "" ->
  (lw_written f c os).2
  = mkOS (paths os)
         (<[f := file_of (files os) f +:+ str_take (lw_moved c os) c]> (files os))
         (<[next_fd os := f]> (fdt os)) (next_fd os + 1)
         (space os - lw_moved c os)
         (log os ++ lw_calls f c (next_fd os) (lw_written f c os).1).
Proof.
  intros Hc.
  rewrite <- (lw_written_log f c os Hc), <- (lw_written_files f c os Hc),
    <- (lw_written_fdt f c os).
  apply str_empty_false in Hc.
  unfold lw_written, exec, answer, do_write. cbn [fst snd].
  rewrite lw_locked_spec, lw_opened_spec. cbn [logged fdt space files].
  rewrite lookup_insert_eq, Hc. cbn [negb]. rewrite andb_true_r.
  fold (lw_moved c os). destruct (lw_moved c os =? 0)%nat eqn:E.
  - apply Nat.eqb_eq in E. rewrite E, Nat.sub_0_r. reflexivity.
  - reflexivity.
Qed.

Lemma lw_closed_state f c os :
  c <> "" ->
  lw_closed f c os
  = mkOS (paths os)
         (<[f := file_of (files os) f +:+ str_take (lw_moved c os) c]> (files os))
         (delete (next_fd os) (fdt os)) (next_fd os + 1)
         (space os - lw_moved c os)
         (log os ++ lw_calls f c (next_fd os) (lw_written f c os).1
          ++ lw_last_calls (next_fd os)).
Proof.
  intros Hc. rewrite <- (lw_closed_log f c os Hc).
  unfold lw_closed. set (os3 := (lw_written f c os).2).
  assert (H3 : os3 = _) by apply (lw_written_state f c os Hc).
  assert (Hf : fdt os3 !! next_fd os = Some f).
  { rewrite H3. apply lookup_insert_eq. }
  assert (E1 : exec (sys_flock (next_fd os) LOCK_UN) os3
               = (0, logged (sys_flock (next_fd os) LOCK_UN) 0 os3)).
  { unfold exec, answer, do_flock. rewrite Hf. reflexivity. }
  rewrite E1. cbn [snd].
  unfold exec, answer, do_close. cbn [logged fdt]. rewrite Hf.
  cbn [fst snd logged paths files fdt next_fd space log].
  rewrite H3 at 1 2 3 4 5. cbn [paths files fdt next_fd space].
  rewrite delete_insert_eq. reflexivity.
Qed.

(** With room for the buffer, empty or not, [lockedWrite] returns and the
    buffer is at the end of the file. *)
Lemma lockedWrite_room `{Build} f c os :
  (String.length c <= space os)%nat ->
  exists os',
    run (lockedWrite f c) os = Exited tt os'
    /\ file_of (files os') f = file_of (files os) f +:+ c
    /\ (forall g, g <> f -> files os' !! g = files os !! g)
    /\ paths os' = paths os
    /\ space os' = (space os - String.length c)%nat.
Proof.
  intros Hs. destruct (decide (c = "")) as [->|Hc].
  - exists os. split; [reflexivity|]. rewrite str_app_nil_r.
    cbn [String.length]. rewrite Nat.sub_0_r. auto.
  - destruct (lockedWrite_full_write f c os Hc Hs) as [Hrun Hfile].
    exists (lw_closed f c os). split; [exact Hrun|]. split; [exact Hfile|].
    rewrite (lw_closed_state f c os Hc). cbn [files paths space].
    assert (Hm : lw_moved c os = String.length c) by (unfold lw_moved; lia).
    rewrite Hm. split; [|auto].
    intros g Hg. apply lookup_insert_ne. congruence.
Qed.


(* ===================================================================== *)
(** * What a walk keeps, whatever the system *)
(* ===================================================================== *)

Lemma same_system_refl os : same_system os os.
Proof. unfold same_system. auto. Qed.

Lemma same_system_logged {X} (e : Sys X) r os : same_system os (logged e r os).
Proof. unfold same_system. auto. Qed.

Lemma same_system_trans os1 os2 os3 :
  same_system os1 os2 -> same_system os2 os3 -> same_system os1 os3.
Proof.
  unfold same_system. intros (?&?&?&?&?) (?&?&?&?&?).
  repeat split; congruence.
Qed.

Lemma only_resolved_refl os : only_resolved os os.
Proof. exists []. rewrite app_nil_r. auto. Qed.

Lemma only_resolved_realpath name r os :
  only_resolved os (logged (sys_realpath name) r os).
Proof. exists [Called (sys_realpath name) r]. auto. Qed.

Lemma only_resolved_trans os1 os2 os3 :
  only_resolved os1 os2 -> only_resolved os2 os3 -> only_resolved os1 os3.
Proof.
  intros (l1 & E1 & H1) (l2 & E2 & H2). exists (l1 ++ l2).
  rewrite E2, E1, app_assoc, forallb_app, H1, H2. auto.
Qed.

Lemma kept_refl this : kept this this.
Proof.
  unfold kept. repeat split; try reflexivity; exists ""; symmetry;
    apply str_app_nil_r.
Qed.

Lemma kept_trans a b c : kept a b -> kept b c -> kept a c.
Proof.
  unfold kept. intros (?&?&?&[d1 Hd1]&[e1 He1]) (?&?&?&[d2 Hd2]&[e2 He2]).
  repeat split; try congruence.
  - exists (d1 +:+ d2). rewrite Hd2, Hd1. apply str_app_assoc.
  - exists (e1 +:+ e2). rewrite He2, He1. apply str_app_assoc.
Qed.

Lemma kept_putDefined this s : kept this (putDefined this s).
Proof.
  unfold kept, putDefined. cbn. repeat split; try reflexivity.
  - exists s. reflexivity.
  - exists "". symmetry. apply str_app_nil_r.
Qed.

Lemma kept_putExtern this s : kept this (putExtern this s).
Proof.
  unfold kept, putExtern. cbn. repeat split; try reflexivity.
  - exists "". symmetry. apply str_app_nil_r.
  - exists s. reflexivity.
Qed.

Lemma kept_setCurrentFileName this s : kept this (setCurrentFileName this s).
Proof.
  unfold kept, setCurrentFileName. cbn. repeat split; try reflexivity;
    exists ""; symmetry; apply str_app_nil_r.
Qed.

Lemma walk_frame_returned this os : walk_frame this os (Exited this os).
Proof.
  split; [apply same_system_refl|]. split; [apply only_resolved_refl|].
  apply kept_refl.
Qed.

Lemma walk_frame_trans this os this1 os1 o :
  walk_frame this os (Exited this1 os1) -> walk_frame this1 os1 o ->
  walk_frame this os o.
Proof.
  intros (Hs1 & Hr1 & Hk1) (Hs2 & Hr2 & Hk2). cbn [final_os] in *.
  split; [eapply same_system_trans; eassumption|].
  split; [eapply only_resolved_trans; eassumption|].
  destruct o; [eapply kept_trans; eassumption|exact Hk2].
Qed.

Lemma walk_frame_bind this os
    (p : Prog MapFunctionNamesConsumer)
    (k : MapFunctionNamesConsumer -> Prog MapFunctionNamesConsumer) :
  walk_frame this os (run p os) ->
  (forall this1 os1, walk_frame this1 os1 (run (k this1) os1)) ->
  walk_frame this os (run (bind p k) os).
Proof.
  intros Hp Hk. rewrite run_bind.
  destruct (run p os) as [this1 os1|sig os1] eqn:E; [|exact Hp].
  eapply walk_frame_trans; [exact Hp|apply Hk].
Qed.

Section Frame.
Context `{TripleNames}.

Lemma resolveCurrentFileName_frame this os :
  walk_frame this os (run (resolveCurrentFileName this) os).
Proof.
  unfold resolveCurrentFileName.
  destruct (str_empty (CurrentFileName this)); [|apply walk_frame_returned].
  destruct (getFileEntryForID _ _) as [name|].
  - cbn [mbind Prog_bind bind call run exec answer fst snd].
    destruct (paths os !! name) as [p|]; cbn [run mret Prog_ret].
    + split; [apply same_system_logged|].
      split; [apply only_resolved_realpath|apply kept_setCurrentFileName].
    + split; [apply same_system_logged|].
      split; [apply only_resolved_realpath|reflexivity].
  - split; [apply same_system_refl|].
    split; [apply only_resolved_refl|reflexivity].
Qed.

Lemma handleFunctionDecl_frame this FD os :
  walk_frame this os (run (handleFunctionDecl this FD) os).
Proof.
  unfold handleFunctionDecl. destruct (getBody (Ctx this) FD) as [Body|].
  - apply walk_frame_bind; [apply resolveCurrentFileName_frame|].
    intros this1 os1.
    destruct (getLinkageInternal FD); cbn [run mret Prog_ret];
      try apply walk_frame_returned.
    all: split; [apply same_system_refl|]; split; [apply only_resolved_refl|].
    all: cbn [final_os].
    all: repeat (eapply kept_trans; [|apply kept_putDefined]).
    all: destruct (isInMainFile _ _); [apply kept_putDefined|apply kept_refl].
  - destruct (_ && _); cbn [run mret Prog_ret]; [|apply walk_frame_returned].
    split; [apply same_system_refl|]. split; [apply only_resolved_refl|].
    repeat (eapply kept_trans; [|apply kept_putExtern]). apply kept_refl.
Qed.

Lemma handleDecls_frame decls :
  Forall (fun D => forall this os, walk_frame this os (run (handleDecl D this) os))
         decls ->
  forall this os, walk_frame this os (run (handleDecls decls this) os).
Proof.
  induction 1 as [|D decls HD _ IH]; intros this os.
  - apply walk_frame_returned.
  - cbn [handleDecls]. unfold mbind, Prog_bind.
    apply walk_frame_bind; [apply HD|apply IH].
Qed.

Lemma handleDecl_frame D this os :
  walk_frame this os (run (handleDecl D this) os).
Proof.
  revert this os.
  induction D as [FD decls IH|decls IH|] using Decl_tree_ind; intros this os.
  - rewrite handleDecl_DFunction_run.
    pose proof (handleFunctionDecl_frame this FD os) as HF.
    destruct (run (handleFunctionDecl this FD) os) as [this1 os1|sig os1];
      [|exact HF].
    eapply walk_frame_trans; [exact HF|apply (handleDecls_frame decls IH)].
  - rewrite handleDecl_DContext_run. apply (handleDecls_frame decls IH).
  - apply walk_frame_returned.
Qed.

Lemma hasBodies_app ctx fds1 fds2 :
  hasBodies ctx (fds1 ++ fds2) = hasBodies ctx fds1 || hasBodies ctx fds2.
Proof. apply existsb_app. Qed.

Lemma handleFunctionDecl_no_body this FD os :
  hasBodies (Ctx this) [FD] = false ->
  run (handleFunctionDecl this FD) os = Exited (advance this "" [FD]) os.
Proof.
  unfold hasBodies. cbn [existsb]. rewrite orb_false_r. intros Hb.
  apply bool_decide_eq_false in Hb.
  unfold handleFunctionDecl, advance, definedDecls, externalDecls, hasBodies.
  cbn [flat_map List.filter existsb].
  destruct (getBody (Ctx this) FD) as [Body|] eqn:HB;
    [exfalso; apply Hb; eauto|].
  rewrite bool_decide_eq_false_2 by exact Hb. cbn [negb andb orb].
  destruct (getBuiltinID FD =? 0)%nat; one_decl.
  - unfold externLine, putExtern. stream_done.
  - destruct this; reflexivity.
Qed.

Lemma advance_no_bodies_Ctx this fds : Ctx (advance this "" fds) = Ctx this.
Proof. reflexivity. Qed.

Lemma handleDecls_no_body decls :
  Forall (fun D => forall this os,
            hasBodies (Ctx this) (functionsOf D) = false ->
            run (handleDecl D this) os
            = Exited (advance this "" (functionsOf D)) os) decls ->
  forall this os,
    hasBodies (Ctx this) (flat_map functionsOf decls) = false ->
    run (handleDecls decls this) os
    = Exited (advance this "" (flat_map functionsOf decls)) os.
Proof.
  induction 1 as [|D decls HD _ IH]; intros this os Hb.
  - cbn [flat_map handleDecls run mret Prog_ret]. rewrite advance_nil.
    reflexivity.
  - cbn [flat_map] in Hb. rewrite hasBodies_app in Hb.
    apply orb_false_iff in Hb as [Hb1 Hb2].
    rewrite handleDecls_cons_run, (HD this os Hb1), IH by exact Hb2.
    cbn [flat_map]. rewrite advance_app. reflexivity.
Qed.

Lemma handleDecl_no_body D this os :
  hasBodies (Ctx this) (functionsOf D) = false ->
  run (handleDecl D this) os = Exited (advance this "" (functionsOf D)) os.
Proof.
  revert this os.
  induction D as [FD decls IH|decls IH|] using Decl_tree_ind; intros this os Hb.
  - cbn [functionsOf] in Hb.
    change (FD :: flat_map functionsOf decls)
      with ([FD] ++ flat_map functionsOf decls) in Hb.
    rewrite hasBodies_app in Hb. apply orb_false_iff in Hb as [Hb1 Hb2].
    rewrite handleDecl_DFunction_run, (handleFunctionDecl_no_body this FD os Hb1).
    rewrite (handleDecls_no_body decls IH) by exact Hb2.
    cbn [functionsOf]. rewrite advance_app. reflexivity.
  - rewrite handleDecl_DContext_run.
    apply (handleDecls_no_body decls IH). exact Hb.
  - cbn [handleDecl functionsOf run mret Prog_ret]. rewrite advance_nil.
    reflexivity.
Qed.

Lemma definedDecls_no_bodies ctx fds :
  hasBodies ctx fds = false -> definedDecls ctx fds = [].
Proof.
  unfold hasBodies, definedDecls.
  induction fds as [|FD fds IH]; [reflexivity|].
  cbn [existsb flat_map]. intros Hb.
  apply orb_false_iff in Hb as [Hb1 Hb2]. apply bool_decide_eq_false in Hb1.
  destruct (getBody ctx FD); [exfalso; apply Hb1; eauto|]. apply IH, Hb2.
Qed.
End Frame.

(* ===================================================================== *)
(** * A whole unit: walk and flush *)
(* ===================================================================== *)

Lemma resolved_same_system this fds name Path os :
  same_system os (resolved this fds name Path os).
Proof.
  unfold resolved. destruct (_ && _);
    [apply same_system_logged|apply same_system_refl].
Qed.

Lemma resolved_only_resolved this fds name Path os :
  only_resolved os (resolved this fds name Path os).
Proof.
  unfold resolved. destruct (_ && _);
    [apply only_resolved_realpath|apply only_resolved_refl].
Qed.

Lemma file_of_same (fs fs' : gmap string string) g :
  fs' !! g = fs !! g -> file_of fs' g = file_of fs g.
Proof. unfold file_of. intros ->. reflexivity. Qed.

(** The destructor with room for both streams. *)
Lemma deleteConsumer_room `{Build} CTUDir this os :
  (String.length (DefinedFuncsStr this) + String.length (ExternFuncStr this)
   <= space os)%nat ->
  let ExternalFns := path_append CTUDir ["externalFns.txt"] in
  let DefinedFns := path_append CTUDir ["definedFns.txt"] in
  exists os',
    run (deleteConsumer CTUDir this) os = Exited tt os'
    /\ file_of (files os') DefinedFns
       = file_of (files os) DefinedFns +:+ DefinedFuncsStr this
    /\ file_of (files os') ExternalFns
       = file_of (files os) ExternalFns +:+ ExternFuncStr this
    /\ (forall g, g <> DefinedFns -> g <> ExternalFns ->
                  files os' !! g = files os !! g)
    /\ paths os' = paths os
    /\ space os'
       = (space os - (String.length (DefinedFuncsStr this)
                      + String.length (ExternFuncStr this)))%nat.
Proof.
  intros Hs. cbn zeta. unfold deleteConsumer.
  pose proof (ledger_files_differ CTUDir) as Hne.
  set (E := path_append CTUDir ["externalFns.txt"]) in *.
  set (D := path_append CTUDir ["definedFns.txt"]) in *.
  destruct (lockedWrite_room E (ExternFuncStr this) os)
    as (os1 & Hrun1 & Hf1 & Ho1 & Hp1 & Hs1); [lia|].
  destruct (lockedWrite_room D (DefinedFuncsStr this) os1)
    as (os2 & Hrun2 & Hf2 & Ho2 & Hp2 & Hs2); [lia|].
  exists os2. unfold mbind, Prog_bind. rewrite run_bind, Hrun1.
  split; [exact Hrun2|]. split; [|split; [|split; [|split]]].
  - rewrite Hf2. f_equal. apply file_of_same, Ho1. congruence.
  - rewrite <- Hf1. apply file_of_same, Ho2. exact Hne.
  - intros g Hg1 Hg2. rewrite Ho2, Ho1 by assumption. reflexivity.
  - congruence.
  - lia.
Qed.

Section Action.
Context `{Build} `{TripleNames}.

(** A whole unit, its main file resolving and the device having room. *)
Lemma runAction_room CTUDir ctx M os name Path :
  mainFileName ctx = Some name ->
  paths os !! name = Some Path ->
  Path <> "" ->
  let this := newConsumer ctx M in
  let defined :=
    str_concat (map (definedLine this Path)
                    (definedDecls ctx (unitFunctions ctx))) in
  let external :=
    str_concat (map (externLine this) (externalDecls ctx (unitFunctions ctx))) in
  let ExternalFns := path_append CTUDir ["externalFns.txt"] in
  let DefinedFns := path_append CTUDir ["definedFns.txt"] in
  (String.length defined + String.length external <= space os)%nat ->
  exists os',
    run (runAction CTUDir ctx M) os = Exited tt os'
    /\ file_of (files os') DefinedFns = file_of (files os) DefinedFns +:+ defined
    /\ file_of (files os') ExternalFns
       = file_of (files os) ExternalFns +:+ external
    /\ (forall g, g <> DefinedFns -> g <> ExternalFns ->
                  files os' !! g = files os !! g)
    /\ paths os' = paths os
    /\ space os'
       = (space os - (String.length defined + String.length external))%nat.
Proof.
  intros Hm Hp Hne. cbn zeta. intros Hs.
  unfold runAction, mbind, Prog_bind. rewrite run_bind.
  rewrite (unit_run ctx M os name Path Hm Hp Hne).
  set (this' := advance (newConsumer ctx M) Path (unitFunctions ctx)).
  set (os1 := resolved (newConsumer ctx M) (unitFunctions ctx) name Path os).
  destruct (resolved_same_system (newConsumer ctx M) (unitFunctions ctx)
              name Path os) as (Hp1 & Hf1 & _ & _ & Hs1).
  fold os1 in Hp1, Hf1, Hs1.
  assert (Hd : DefinedFuncsStr this'
               = str_concat (map (definedLine (newConsumer ctx M) Path)
                               (definedDecls ctx (unitFunctions ctx))))
    by reflexivity.
  assert (He : ExternFuncStr this'
               = str_concat (map (externLine (newConsumer ctx M))
                               (externalDecls ctx (unitFunctions ctx))))
    by reflexivity.
  destruct (deleteConsumer_room CTUDir this' os1)
    as (os2 & Hrun & HD & HE & Ho & Hp2 & Hs2).
  { rewrite Hd, He, Hs1. exact Hs. }
  exists os2. split; [exact Hrun|].
  rewrite Hd in HD, Hs2. rewrite He in HE, Hs2. rewrite Hf1 in HD, HE.
  split; [exact HD|]. split; [exact HE|]. split; [|split].
  - intros g Hg1 Hg2. rewrite Ho, Hf1 by assumption. reflexivity.
  - congruence.
  - rewrite Hs2, Hs1. reflexivity.
Qed.
End Action.






Lemma count_lines_strip_separators s :
  count_lines (strip_separators s) = count_lines s.
Proof.
  induction s as [|c s IH]; [reflexivity|]. cbn [strip_separators].
  unfold is_separator. destruct (Ascii.eqb_spec c "/") as [->|_];
    [rewrite IH|]; reflexivity.
Qed.

Lemma count_lines_path_append1 p c :
  count_lines (path_append1 p c) = (count_lines p + count_lines c)%nat.
Proof.
  unfold path_append1.
  destruct (_ && _); [|destruct (_ && _)];
    rewrite !count_lines_app, ?count_lines_strip_separators; cbn; lia.
Qed.

Lemma count_lines_path_append p cs :
  count_lines (path_append p cs) = (count_lines p + total_lines cs)%nat.
Proof.
  unfold path_append, total_lines. revert p.
  induction cs as [|c cs IH]; intros p; cbn [fold_left map list_sum];
    [simpl; lia|].
  rewrite IH, count_lines_path_append1. simpl. lia.
Qed.

Lemma count_lines_lines {A : Type} (line : A -> string) (l : list A) :
  (forall a, In a l -> count_lines (line a) = 1%nat) ->
  count_lines (str_concat (map line l)) = length l.
Proof.
  induction l as [|a l IH]; intros Hl; [reflexivity|].
  cbn [map str_concat length]. rewrite count_lines_app, (Hl a), IH.
  - reflexivity.
  - intros b Hb. apply Hl. right. exact Hb.
  - left. reflexivity.
Qed.


(* ===================================================================== *)
(** * More facts about concurrent flushes *)
(* ===================================================================== *)

Lemma snoc_case {A : Type} (l : list A) :
  l = [] \/ exists l' x, l = l' ++ [x].
Proof. induction l using rev_ind; eauto. Qed.

Section Reach.
Context `{Build}.
Variable f : string.

Lemma at_stage_in_write b p st :
  at_stage f b p st -> in_write p = true -> exists done, st = Holding done.
Proof.
  intros Hat. destruct Hat; cbn [in_write code]; try discriminate. eauto.
Qed.

Lemma at_stage_holding_prefix b p done :
  at_stage f b p (Holding done) -> exists rest, b = done +:+ rest.
Proof.
  intros Hat. inversion Hat; subst.
  - exists b. reflexivity.
  - eauto.
  - exists "". symmetry. apply str_app_nil_r.
Qed.

Lemma flushing_reached buffers fs sched :
  flushing f buffers (file_of fs f)
    (run_schedule sched (flushers f buffers fs)).
Proof. apply flushing_run_schedule, flushing_init. Qed.

(** Each piece in the file is a whole buffer, or it is the last piece and
    the beginning of the buffer of the process that holds the lock. *)
Lemma flushing_pieces buffers w order :
  length (procs w) = length buffers ->
  NoDup (map fst order) ->
  (forall j s, In (j, s) order -> (j < length buffers)%nat) ->
  (forall i b p,
     buffers !! i = Some b -> procs w !! i = Some p ->
     exists st, at_stage f b p st /\ stage_ok (wlocks w !! f) order i b st) ->
  forall j s, In (j, s) order ->
    exists b, buffers !! j = Some b
      /\ (s = b
          \/ (wlocks w !! f = Some j
              /\ exists order' rest, order = order' ++ [(j, s)] /\ b = s +:+ rest)).
Proof.
  intros Hlen Hnd Hlt Hst j s Hin. pose proof (Hlt j s Hin) as Hj.
  destruct (lookup_lt_is_Some_2 buffers j Hj) as [b Hb].
  assert (Hj' : (j < length (procs w))%nat) by (rewrite Hlen; exact Hj).
  destruct (lookup_lt_is_Some_2 (procs w) j Hj') as [p Hp].
  destruct (Hst j b p Hb Hp) as (st & Hat & Hok).
  exists b. split; [exact Hb|]. destruct st as [|done|]; cbn [stage_ok] in Hok.
  - destruct Hok as [_ Hn]. exfalso. apply Hn.
    change j with (fst (j, s)). apply in_map, Hin.
  - destruct Hok as [Hh [order' ->]]. right. split; [exact Hh|].
    assert (s = done) as <-.
    { apply (order_unique (order' ++ [(j, done)]) j s done Hnd Hin).
      apply in_app_iff. right. left. reflexivity. }
    destruct (at_stage_holding_prefix b p s Hat) as [rest Hrest]. eauto.
  - destruct Hok as [_ Hin']. left.
    exact (order_unique order j s b Hnd Hin Hin').
Qed.

End Reach.

(* ===================================================================== *)
(** * The flushes can be completed *)
(* ===================================================================== *)

Lemma str_drop_all (n : nat) (s : string) :
  (String.length s <= n)%nat -> str_drop n s = "".
Proof.
  revert n. induction s as [|c s IH]; intros [|n] Hn; cbn in *;
    try reflexivity; try lia.
  apply IH. lia.
Qed.

Lemma locks_owned_step w i n : locks_owned w -> locks_owned (step w i n).
Proof.
  intros Hw. unfold step. destruct (procs w !! i) as [p|] eqn:Hp; [|exact Hw].
  pose proof (lookup_lt_Some _ _ _ Hp) as Hi.
  assert (Hset : forall p' wf, locks_owned
            (mkWorld (wpaths w) wf (wlocks w) (<[i := p']> (procs w)))).
  { intros p' wf path j Hj. cbn [procs wlocks] in *. rewrite length_insert.
    exact (Hw path j Hj). }
  assert (Hdel : forall p' path0, locks_owned
            (mkWorld (wpaths w) (wfiles w)
               (if bool_decide (wlocks w !! path0 = Some i)
                then delete path0 (wlocks w) else wlocks w)
               (<[i := p']> (procs w)))).
  { intros p' path0 path j Hj. cbn [procs wlocks] in *. rewrite length_insert.
    destruct (bool_decide _); [|exact (Hw path j Hj)].
    apply lookup_delete_Some in Hj as [_ Hj]. exact (Hw path j Hj). }
  destruct p as [[[a|X e k|sig]|path rest count k] pf pn]; cbn [code];
    try exact Hw; [|apply Hset].
  destruct e; cbn [call_step pfdt pnext_fd]; unfold set_proc.
  - apply Hset.
  - destruct (wfiles w !! path); [apply Hset|].
    destruct (_ =? _); apply Hset.
  - destruct (pf !! fd); [|apply Hset]. destruct op.
    + destruct (wlocks w !! s) as [j|] eqn:Hl.
      * destruct (j =? i)%nat; [apply Hset|exact Hw].
      * intros path j Hj. cbn [procs wlocks] in *. rewrite length_insert.
        destruct (decide (s = path)) as [->|Hne].
        -- rewrite lookup_insert_eq in Hj. congruence.
        -- rewrite lookup_insert_ne in Hj by exact Hne. exact (Hw path j Hj).
    + apply Hdel.
  - destruct (pf !! fd); [|apply Hset]. destruct (str_empty buf); apply Hset.
  - destruct (pf !! fd); [|apply Hset]. apply Hdel.
Qed.

Lemma locks_owned_run_schedule sched w :
  locks_owned w -> locks_owned (run_schedule sched w).
Proof.
  revert w. induction sched as [|[i n] sched IH]; intros w Hw; [exact Hw|].
  apply IH, locks_owned_step, Hw.
Qed.

Section Finish.
Context `{Build}.
Variable f : string.

Lemma at_stage_steps_left b p st :
  at_stage f b p st ->
  exists n, steps_left f b p n
            /\ match st with
               | Holding _ => (2 <= n <= 4)%nat
               | _ => (n < 2 \/ 4 < n)%nat
               end.
Proof.
  intros Hat. destruct Hat.
  - destruct b as [|c b].
    + exists 0%nat. split; [apply left_done|lia].
    + exists 6%nat. split; [eapply left_start; reflexivity|lia].
  - exists 5%nat. split; [apply left_opened; assumption|lia].
  - exists 4%nat. split; [apply left_locked; assumption|lia].
  - exists 3%nat. split; [|lia]. apply left_writing; [|assumption].
    subst b. rewrite str_length_app. lia.
  - exists 2%nat. split; [apply left_written; assumption|lia].
  - exists 1%nat. split; [apply left_unlocked; assumption|lia].
  - exists 0%nat. split; [apply left_done|lia].
Qed.

Lemma steps_left_exited b p : steps_left f b p 0 -> exited p = true.
Proof. intros Hs. inversion Hs. reflexivity. Qed.

(** One step of a process that is not kept waiting. *)
Lemma step_left w i b p n :
  procs w !! i = Some p ->
  steps_left f b p (S n) ->
  lock_fits (wlocks w !! f) i (S n) ->
  let w' := step w i (String.length b) in
  exists p',
    procs w' !! i = Some p'
    /\ steps_left f b p' n
    /\ lock_fits (wlocks w' !! f) i n
    /\ (forall j, j <> i -> procs w' !! j = procs w !! j).
Proof.
  intros Hp Hs Hl. cbn zeta.
  pose proof (lookup_lt_Some _ _ _ Hp) as Hi.
  assert (Hme : forall p', <[i := p']> (procs w) !! i = Some p')
    by (intros p'; apply list_lookup_insert_eq, Hi).
  assert (Hothers : forall p' j, j <> i ->
             <[i := p']> (procs w) !! j = procs w !! j)
    by (intros p' j Hj; apply list_lookup_insert_ne; congruence).
  unfold lock_fits in Hl.
  inversion Hs as [c b' pf pn Hb|fd pf pn Hne Hfd|fd pf pn Hne Hfd
                   |fd pf pn rest Hlen Hfd|fd pf pn Hfd|fd pf pn Hfd|];
    subst p n.
  - subst b. rewrite (step_start f w i _ c b' pf pn Hp). cbn [procs wlocks].
    eexists. split; [apply Hme|]. split.
    + apply left_opened; [discriminate|apply lookup_insert_eq].
    + split; [|apply Hothers]. right. split; [lia|].
      destruct Hl as [[? _]|[_ Hl]]; [lia|exact Hl].
  - rewrite (step_opened f w i _ b fd pf pn Hp Hfd).
    destruct Hl as [[? _]|[_ Hl]]; [lia|]. rewrite Hl. cbn [procs wlocks].
    eexists. split; [apply Hme|]. split; [apply left_locked; assumption|].
    split; [|apply Hothers]. left. split; [lia|apply lookup_insert_eq].
  - rewrite (step_locked f w i _ b fd pf pn Hp Hfd Hne). unfold set_proc.
    cbn [procs wlocks].
    eexists. split; [apply Hme|]. split; [apply left_writing; [lia|assumption]|].
    split; [|apply Hothers]. left. split; [lia|].
    destruct Hl as [[_ Hl]|[? _]]; [exact Hl|lia].
  - rewrite (step_writing f w i _ rest _ _ pf pn Hp). cbn [procs wlocks].
    rewrite str_drop_all by lia. cbn [str_empty].
    eexists. split; [apply Hme|]. split.
    + rewrite lw_after_write_full. apply left_written, Hfd.
    + split; [|apply Hothers]. left. split; [lia|].
      destruct Hl as [[_ Hl]|[? _]]; [exact Hl|lia].
  - rewrite (step_written f w i _ fd pf pn Hp Hfd). cbn [procs wlocks].
    destruct Hl as [[_ Hl]|[? _]]; [|lia].
    rewrite bool_decide_eq_true_2 by exact Hl.
    eexists. split; [apply Hme|]. split; [apply left_unlocked, Hfd|].
    split; [|apply Hothers]. right. split; [lia|apply lookup_delete_eq].
  - rewrite (step_unlocked f w i _ fd pf pn Hp Hfd). cbn [procs wlocks].
    destruct Hl as [[? _]|[_ Hl]]; [lia|].
    rewrite bool_decide_eq_false_2 by (rewrite Hl; discriminate).
    eexists. split; [apply Hme|]. split; [apply left_done|].
    split; [|apply Hothers]. right. split; [lia|exact Hl].
Qed.

(** A process that is not kept waiting finishes, and leaves the lock
    free and the others where they are. *)
Lemma finish_one b n : forall w i p,
  procs w !! i = Some p ->
  steps_left f b p n ->
  lock_fits (wlocks w !! f) i n ->
  let w' := run_schedule (replicate n (i, String.length b)) w in
  exists p',
    procs w' !! i = Some p'
    /\ steps_left f b p' 0
    /\ wlocks w' !! f = None
    /\ (forall j, j <> i -> procs w' !! j = procs w !! j).
Proof.
  induction n as [|n IH]; intros w i p Hp Hs Hl; cbn zeta.
  - exists p. cbn. split; [exact Hp|]. split; [exact Hs|]. split; [|auto].
    destruct Hl as [[? _]|[_ Hl]]; [lia|exact Hl].
  - destruct (step_left w i b p n Hp Hs Hl) as (p1 & Hp1 & Hs1 & Hl1 & Ho1).
    destruct (IH _ i p1 Hp1 Hs1 Hl1) as (p' & Hp' & Hs' & Hl' & Ho').
    exists p'. cbn [replicate run_schedule fold_left].
    split; [exact Hp'|]. split; [exact Hs'|]. split; [exact Hl'|].
    intros j Hj. etransitivity; [apply Ho', Hj|apply Ho1, Hj].
Qed.

(** The processes of [ids] finish one after the other. *)
Lemma finish_all (ids : list nat) : forall w,
  wlocks w !! f = None ->
  (forall i, In i ids ->
     exists b p n, procs w !! i = Some p /\ steps_left f b p n
                   /\ (n < 2 \/ 4 < n)%nat) ->
  exists more,
    let w' := run_schedule more w in
    wlocks w' !! f = None
    /\ (forall i, In i ids ->
          exists p, procs w' !! i = Some p /\ exited p = true)
    /\ (forall j, ~ In j ids -> procs w' !! j = procs w !! j).
Proof.
  induction ids as [|i ids IH]; intros w Hl Hall.
  - exists []. cbn. split; [exact Hl|]. split; [intros i []|auto].
  - destruct (Hall i) as (b & p & n & Hp & Hs & Hn); [left; reflexivity|].
    destruct (finish_one b n w i p Hp Hs) as (p1 & Hp1 & Hs1 & Hl1 & Ho1).
    { right. auto. }
    set (w1 := run_schedule (replicate n (i, String.length b)) w) in *.
    destruct (IH w1 Hl1) as (more & Hl2 & Hin2 & Ho2).
    { intros j Hj. destruct (decide (j = i)) as [->|Hji].
      - exists b, p1, 0%nat. split; [exact Hp1|]. split; [exact Hs1|lia].
      - rewrite (Ho1 j Hji). apply Hall. right. exact Hj. }
    exists (replicate n (i, String.length b) ++ more).
    unfold run_schedule in *. rewrite fold_left_app. fold w1.
    split; [exact Hl2|]. split.
    + intros j [<-|Hj]; [|apply Hin2, Hj].
      destruct (In_dec Nat.eq_dec i ids) as [Hi|Hi]; [apply Hin2, Hi|].
      rewrite (Ho2 i Hi). exists p1. split; [exact Hp1|].
      apply (steps_left_exited b), Hs1.
    + intros j Hj. rewrite Ho2 by (intros Hj'; apply Hj; right; exact Hj').
      apply Ho1. intros ->. apply Hj. left. reflexivity.
Qed.

Lemma flushers_locks_owned buffers fs : locks_owned (flushers f buffers fs).
Proof. intros path j Hj. cbn in Hj. rewrite lookup_empty in Hj. discriminate. Qed.

End Finish.


(* ===================================================================== *)
(** * When [open] fails *)
(* ===================================================================== *)

Lemma answer_in_allowed refused {X} (e : Sys X) os :
  refuses refused e = false -> answer_in refused e os = answer e os.
Proof. destruct e; cbn; intros Hr; rewrite ?Hr; reflexivity. Qed.

Lemma exec_in_allowed refused {X} (e : Sys X) os :
  refuses refused e = false -> exec_in refused e os = exec e os.
Proof. intros Hr. unfold exec_in, exec. rewrite answer_in_allowed by exact Hr. reflexivity. Qed.

Lemma run_in_allowed refused {A} (p : Prog A) :
  opens_allowed refused p -> forall os, run_in refused p os = run p os.
Proof.
  induction 1 as [a|sig|X e k Hr _ IH]; intros os; cbn [run_in run];
    try reflexivity.
  rewrite exec_in_allowed by exact Hr. apply IH.
Qed.

Lemma run_in_bind refused {A B} (p : Prog A) (f : A -> Prog B) os :
  run_in refused (bind p f) os =
  match run_in refused p os with
  | Exited a os' => run_in refused (f a) os'
  | Killed sig os' => Killed sig os'
  end.
Proof.
  revert os. induction p as [a|X e k IH|sig]; intros os; simpl.
  - reflexivity.
  - apply IH.
  - reflexivity.
Qed.

Lemma opens_allowed_bind refused {A B} (p : Prog A) (f : A -> Prog B) :
  opens_allowed refused p -> (forall a, opens_allowed refused (f a)) ->
  opens_allowed refused (bind p f).
Proof.
  intros Hp Hf. induction Hp as [a|sig|X e k Hr _ IH]; cbn [bind].
  - apply Hf.
  - constructor.
  - constructor; [exact Hr|exact IH].
Qed.

Lemma lockedWrite_opens `{Build} refused f c :
  refused f = false -> opens_allowed refused (lockedWrite f c).
Proof.
  intros Hr. unfold lockedWrite. destruct (str_empty c); cbn [negb];
    [constructor|].
  constructor; [exact Hr|]. intros fd.
  constructor; [reflexivity|]. intros _.
  constructor; [reflexivity|]. intros written.
  unfold assert. destruct NDEBUG; [|destruct (_ =? _)];
    repeat (constructor; try reflexivity; try intros _).
Qed.

Lemma deleteConsumer_opens `{Build} refused CTUDir this :
  refused (path_append CTUDir ["externalFns.txt"]) = false ->
  refused (path_append CTUDir ["definedFns.txt"]) = false ->
  opens_allowed refused (deleteConsumer CTUDir this).
Proof.
  intros HE HD. unfold deleteConsumer, mbind, Prog_bind.
  apply opens_allowed_bind; [apply lockedWrite_opens, HE|].
  intros _. apply lockedWrite_opens, HD.
Qed.

Section Opens.
Context `{TripleNames}.
Variable refused : string -> bool.

Lemma resolveCurrentFileName_opens this :
  opens_allowed refused (resolveCurrentFileName this).
Proof.
  unfold resolveCurrentFileName. destruct (str_empty _); [|constructor].
  destruct (getFileEntryForID _ _); [|constructor].
  constructor; [reflexivity|]. intros [Path|]; constructor.
Qed.

Lemma handleFunctionDecl_opens this FD :
  opens_allowed refused (handleFunctionDecl this FD).
Proof.
  unfold handleFunctionDecl. destruct (getBody _ _).
  - unfold mbind, Prog_bind. apply opens_allowed_bind;
      [apply resolveCurrentFileName_opens|].
    intros this'. destruct (getLinkageInternal FD); constructor.
  - destruct (_ && _); constructor.
Qed.

Lemma handleDecl_members_opens decls :
  Forall (fun D => forall this, opens_allowed refused (handleDecl D this))
         decls ->
  forall this, opens_allowed refused (handleDecl (DContext decls) this).
Proof.
  induction 1 as [|D decls HD _ IH]; intros this.
  - constructor.
  - change (opens_allowed refused
              (bind (handleDecl D this)
                    (fun this' => handleDecl (DContext decls) this'))).
    apply opens_allowed_bind; [apply HD|exact IH].
Qed.

Lemma handleDecl_opens D :
  forall this, opens_allowed refused (handleDecl D this).
Proof.
  induction D as [FD decls IH|decls IH|] using Decl_tree_ind; intros this.
  - change (opens_allowed refused
              (bind (handleFunctionDecl this FD)
                    (fun this' => handleDecl (DContext decls) this'))).
    apply opens_allowed_bind; [apply handleFunctionDecl_opens|].
    apply handleDecl_members_opens, IH.
  - apply handleDecl_members_opens, IH.
  - constructor.
Qed.

Lemma HandleTranslationUnit_opens this ctx :
  opens_allowed refused (HandleTranslationUnit this ctx).
Proof.
  unfold HandleTranslationUnit. destruct (getTranslationUnitDecl ctx);
    [apply handleDecl_opens|constructor].
Qed.

Lemma runAction_opens `{Build} CTUDir ctx M :
  refused (path_append CTUDir ["externalFns.txt"]) = false ->
  refused (path_append CTUDir ["definedFns.txt"]) = false ->
  opens_allowed refused (runAction CTUDir ctx M).
Proof.
  intros HE HD. unfold runAction, mbind, Prog_bind.
  apply opens_allowed_bind; [apply HandleTranslationUnit_opens|].
  intros this. apply deleteConsumer_opens; assumption.
Qed.

End Opens.

(** The calls of [lockedWrite] when [open] fails: each of them fails. *)
Lemma exec_in_refused refused f flags mode os :
  refused f = true ->
  exec_in refused (sys_open f flags mode) os
  = (-1, logged (sys_open f flags mode) (-1) os).
Proof. intros Hr. unfold exec_in, answer_in. rewrite Hr. reflexivity. Qed.

Lemma exec_in_flock_bad refused fd op os :
  fdt os !! fd = None ->
  exec_in refused (sys_flock fd op) os = (-1, logged (sys_flock fd op) (-1) os).
Proof.
  intros Hfd. unfold exec_in, answer_in, answer, do_flock. rewrite Hfd.
  reflexivity.
Qed.

Lemma exec_in_write_bad refused fd buf os :
  fdt os !! fd = None ->
  exec_in refused (sys_write fd buf) os = (-1, logged (sys_write fd buf) (-1) os).
Proof.
  intros Hfd. unfold exec_in, answer_in, answer, do_write. rewrite Hfd.
  reflexivity.
Qed.

Lemma exec_in_close_bad refused fd os :
  fdt os !! fd = None ->
  exec_in refused (sys_close fd) os = (-1, logged (sys_close fd) (-1) os).
Proof.
  intros Hfd. unfold exec_in, answer_in, answer, do_close. rewrite Hfd.
  reflexivity.
Qed.

Lemma lockedWrite_refused `{Build} refused f c os :
  refused f = true -> c <> "" -> fdt os !! (-1) = None ->
  let os3 :=
    logged (sys_write (-1) c) (-1)
      (logged (sys_flock (-1) LOCK_EX) (-1)
         (logged (sys_open f lw_flags 438) (-1) os)) in
  run_in refused (lockedWrite f c) os
  = if NDEBUG
    then Exited tt (logged (sys_close (-1)) (-1)
                      (logged (sys_flock (-1) LOCK_UN) (-1) os3))
    else Killed SIGABRT os3.
Proof.
  intros Hr Hc Hfd. cbn zeta. unfold lockedWrite.
  apply str_empty_false in Hc. rewrite Hc. cbn [negb].
  cbn [mbind Prog_bind bind call run_in]. fold lw_flags.
  rewrite (exec_in_refused refused f lw_flags 438 os Hr). cbn [fst snd].
  rewrite exec_in_flock_bad by exact Hfd. cbn [fst snd].
  rewrite exec_in_write_bad by exact Hfd. cbn [fst snd].
  unfold assert.
  assert (E : (-1 =? Z.of_nat (String.length c)) = false)
    by (apply Z.eqb_neq; lia).
  rewrite E. destruct NDEBUG;
    cbn [mbind Prog_bind bind call run_in mret Prog_ret]; [|reflexivity].
  rewrite exec_in_flock_bad by exact Hfd. cbn [fst snd].
  rewrite exec_in_close_bad by exact Hfd. reflexivity.
Qed.

(** What a flush leaves when [open] failed: the calls in the log, and
    nothing else. *)
Lemma lockedWrite_refused_frame `{Build} refused f c os :
  refused f = true -> fdt os !! (-1) = None ->
  exists os',
    run_in refused (lockedWrite f c) os
    = (if NDEBUG || str_empty c then Exited tt os' else Killed SIGABRT os')
    /\ same_system os os'
    /\ (forall g, g <> f ->
          count_events (is_open_of g) os' = count_events (is_open_of g) os).
Proof.
  intros Hr Hfd. destruct (decide (c = "")) as [->|Hc].
  - exists os. rewrite orb_true_r. split; [reflexivity|].
    split; [apply same_system_refl|reflexivity].
  - rewrite (lockedWrite_refused refused f c os Hr Hc Hfd).
    apply str_empty_false in Hc. rewrite Hc, orb_false_r.
    assert (Hopen : forall g, g <> f -> String.eqb f g = false)
      by (intros g Hg; apply String.eqb_neq; congruence).
    destruct NDEBUG; eexists; (split; [reflexivity|]);
      (split; [repeat split; reflexivity|]);
      intros g Hg; rewrite !count_events_logged; cbn [is_open_of];
      rewrite (Hopen g Hg); lia.
Qed.

(** Without assertions [lockedWrite] returns whatever [open] and [write]
    did: [n] bytes of the buffer are at the end of the file, none when
    [open] failed. *)
Lemma lockedWrite_release_in `{Build} (refused : string -> bool) f c os :
  NDEBUG = true -> fdt os !! (-1) = None ->
  let n := if refused f then 0%nat else lw_moved c os in
  exists os',
    run_in refused (lockedWrite f c) os = Exited tt os'
    /\ file_of (files os') f = file_of (files os) f +:+ str_take n c
    /\ (forall g, g <> f -> files os' !! g = files os !! g)
    /\ space os' = (space os - n)%nat
    /\ fdt os' !! (-1) = None.
Proof.
  intros Hn Hfd. cbn zeta. destruct (refused f) eqn:Hr.
  - destruct (lockedWrite_refused_frame refused f c os Hr Hfd)
      as (os' & Hrun & (_ & Hfiles & Hfdt & _ & Hspace) & _).
    rewrite Hn in Hrun. exists os'. split; [exact Hrun|].
    rewrite Hfiles, Hfdt, Hspace, Nat.sub_0_r.
    assert (E : str_take 0 c = "") by (destruct c; reflexivity).
    rewrite E, str_app_nil_r. auto.
  - rewrite run_in_allowed by (apply lockedWrite_opens, Hr).
    destruct (decide (c = "")) as [->|Hc].
    + exists os. split; [reflexivity|]. unfold lw_moved.
      cbn [String.length Nat.min str_take].
      rewrite str_app_nil_r, Nat.sub_0_r. auto.
    + exists (lw_closed f c os). rewrite lockedWrite_run, Hn by exact Hc.
      split; [reflexivity|]. rewrite (lw_closed_state f c os Hc).
      cbn [files space fdt]. split; [apply file_of_insert|].
      split; [intros g Hg; apply lookup_insert_ne; congruence|].
      split; [reflexivity|].
      apply lookup_delete_None. right. exact Hfd.
Qed.

(* ===================================================================== *)
(** * The claims *)
(* ===================================================================== *)

(** ** C1: functions that leave no line *)

(** C1 as stated does not hold: a function with internal linkage that is
    declared without a body in the unit goes to the external stream, the
    test of the linkage being made for definitions only (line 131); and a
    builtin that the unit defines goes to the defined stream, the test for
    builtins being made for declarations without a body only (line 141). *)
Lemma internal_or_builtin_recorded :
  (getLinkageInternal fd_helper = InternalLinkage
   /\ ExternFuncStr <$> returned
        (run (handleFunctionDecl (H := sample_names)
                (newConsumer (H := sample_names) sample_Ctx sample_mangle)
                fd_helper) sample_os)
      = Some ("_ZL6helperv@x86_64" +:+ String "010" ""))
  /\ (getBuiltinID fd_memcpy <> 0%nat
      /\ DefinedFuncsStr <$> returned
           (run (handleFunctionDecl (H := sample_names)
                   (newConsumer (H := sample_names) memcpy_Ctx sample_mangle)
                   fd_memcpy) sample_os)
         = Some ("!_Z6memcpyPvPKvm@x86_64 ast/x86_64/src/unit.c"
                 +:+ String "010" "")).
Proof.
  split; split.
  - reflexivity.
  - vm_compute. reflexivity.
  - discriminate.
  - vm_compute. reflexivity.
Qed.

(** C1, amended: a function declaration that has a body and internal or no
    linkage, or that has no body and is a builtin, adds nothing to the
    defined stream and nothing to the external stream; if the main file
    does not resolve, the first kind kills the process, and no file is
    touched. *)
Theorem skipped_functions_leave_no_line `{TripleNames}
    (this : MapFunctionNamesConsumer) (FD : FunctionDecl) (os : OS) :
  (is_Some (getBody (Ctx this) FD)
   /\ (getLinkageInternal FD = InternalLinkage
       \/ getLinkageInternal FD = NoLinkage))
  \/ (getBody (Ctx this) FD = None /\ getBuiltinID FD <> 0%nat) ->
  (exists os', run (handleFunctionDecl this FD) os = Killed SIGSEGV os'
               /\ files os' = files os)
  \/ (exists this' os',
        run (handleFunctionDecl this FD) os = Exited this' os'
        /\ DefinedFuncsStr this' = DefinedFuncsStr this
        /\ ExternFuncStr this' = ExternFuncStr this
        /\ files os' = files os).
Proof.
  intros [[[Body HB] HL]|[HB Hb]]; unfold handleFunctionDecl; rewrite HB.
  - unfold mbind, Prog_bind. rewrite run_bind.
    unfold resolveCurrentFileName.
    destruct (str_empty (CurrentFileName this)).
    + destruct (getFileEntryForID _ _) as [name|].
      * cbn [mbind Prog_bind bind call run exec answer fst snd].
        destruct (paths os !! name) as [p|].
        -- right. eexists _, _. split.
           ++ destruct HL as [-> | ->]; reflexivity.
           ++ repeat split; reflexivity.
        -- left. eexists. split; reflexivity.
      * left. eexists. split; reflexivity.
    + right. eexists _, _. split.
      * destruct HL as [-> | ->]; reflexivity.
      * repeat split; reflexivity.
  - right. rewrite bool_decide_eq_false_2 by (intros [? ?]; congruence).
    apply Nat.eqb_neq in Hb. rewrite Hb. cbn [negb andb].
    eexists _, _. repeat split; reflexivity.
Qed.

Lemma skipped_functions_leave_no_line_witness :
  let this := newConsumer (H := sample_names) static_Ctx sample_mangle in
  (exists os',
      run (handleFunctionDecl (H := sample_names) this fd_helper) sample_os
      = Killed SIGSEGV os'
      /\ files os' = files sample_os)
  \/ (exists this' os',
        run (handleFunctionDecl (H := sample_names) this fd_helper) sample_os
        = Exited this' os'
        /\ DefinedFuncsStr this' = DefinedFuncsStr this
        /\ ExternFuncStr this' = ExternFuncStr this
        /\ files os' = files sample_os).
Proof.
  apply (skipped_functions_leave_no_line (H := sample_names)
           (newConsumer (H := sample_names) static_Ctx sample_mangle)
           fd_helper sample_os).
  left. split; [eexists; reflexivity|left; reflexivity].
Defined.

(** ** C2: a short write *)

(** C2: the code means to abort on a short write, by the assertion of
    line 55, and misses it in a build with [NDEBUG]: the assertion is
    compiled out there, the three bytes for which the device has room are
    written, and [lockedWrite] returns as if all was well. *)
Lemma short_write_accepted_with_NDEBUG :
  let content := "_Z3foov@x86_64" +:+ String "010" "" in
  (space full_os < String.length content)%nat
  /\ exists os',
       run (lockedWrite (H := release_build) "ctu/externalFns.txt" content) full_os
       = Exited tt os'
       /\ files os' !! "ctu/externalFns.txt" = Some "_Z3".
Proof.
  split; [vm_compute; lia|]. eexists. split; [vm_compute; reflexivity|].
  vm_compute. reflexivity.
Qed.

(** ** C3: the path of the main file *)

(** C3: when the main file resolves, the walk over a unit calls [realpath]
    once if some function of the unit has a body and never otherwise, the
    path is then the one cached, and every line of the defined stream is
    built with it; when the main file does not resolve, a unit with a
    function that has a body kills the process before anything is written
    to a file, and a unit without one records no definition. *)
Theorem main_file_resolved_once `{TripleNames} `{Build} (CTUDir : string)
    (ctx : ASTContext) (M : ItaniumMangleContext) (os : OS) :
  let this := newConsumer ctx M in
  let fds := unitFunctions ctx in
  (forall name Path,
      mainFileName ctx = Some name ->
      paths os !! name = Some Path ->
      Path <> "" ->
      exists this' os',
        run (HandleTranslationUnit this ctx) os = Exited this' os'
        /\ count_events is_realpath os'
           = (count_events is_realpath os + if hasBodies ctx fds then 1 else 0)%nat
        /\ (hasBodies ctx fds = true -> CurrentFileName this' = Path)
        /\ DefinedFuncsStr this'
           = str_concat (map (definedLine this Path) (definedDecls ctx fds)))
  /\ (mainFilePath ctx os = None ->
      (hasBodies ctx fds = true ->
       exists os',
         run (runAction CTUDir ctx M) os = Killed SIGSEGV os'
         /\ files os' = files os)
      /\ (hasBodies ctx fds = false ->
          exists this',
            run (HandleTranslationUnit this ctx) os = Exited this' os
            /\ DefinedFuncsStr this' = "")).
Proof.
  cbn zeta. split.
  - intros name Path Hm Hp Hne.
    rewrite (unit_run ctx M os name Path Hm Hp Hne).
    eexists _, _. split; [reflexivity|]. split; [|split].
    + unfold resolved. cbn [CurrentFileName newConsumer str_empty andb Ctx].
      destruct (hasBodies ctx (unitFunctions ctx)).
      * rewrite count_events_logged. reflexivity.
      * lia.
    + unfold advance. cbn [CurrentFileName newConsumer Ctx]. intros ->.
      reflexivity.
    + unfold advance. cbn [DefinedFuncsStr newConsumer Ctx]. reflexivity.
  - intros Hm. split; intros Hb.
    + unfold runAction, mbind, Prog_bind. rewrite run_bind.
      rewrite (unit_lost ctx M os Hm). unfold lost_outcome.
      cbn [Ctx newConsumer]. rewrite Hb. eexists. split; [reflexivity|].
      unfold unresolved. destruct (mainFileName ctx); reflexivity.
    + rewrite (unit_lost ctx M os Hm). unfold lost_outcome.
      cbn [Ctx newConsumer]. rewrite Hb. eexists. split; [reflexivity|].
      unfold advance. cbn [DefinedFuncsStr newConsumer Ctx].
      rewrite str_app_nil_l.
      assert (E : definedDecls ctx (unitFunctions ctx) = []).
      { revert Hb. unfold hasBodies, definedDecls.
        induction (unitFunctions ctx) as [|FD fds IH]; [reflexivity|].
        cbn [existsb flat_map]. intros Hb.
        apply orb_false_iff in Hb as [Hb1 Hb2].
        apply bool_decide_eq_false in Hb1.
        destruct (getBody ctx FD); [exfalso; apply Hb1; eauto|].
        apply IH, Hb2. }
      rewrite E. reflexivity.
Qed.

Lemma main_file_resolved_once_witness :
  (exists this' os',
      run (HandleTranslationUnit (H := sample_names)
             (newConsumer (H := sample_names) sample_Ctx sample_mangle)
             sample_Ctx) sample_os
      = Exited this' os'
      /\ count_events is_realpath os' = 1%nat
      /\ CurrentFileName this' = "/src/unit.c")
  /\ (exists os',
        run (runAction (H := debug_build) (H0 := sample_names)
               "ctu" sample_Ctx sample_mangle) lost_os
        = Killed SIGSEGV os'
        /\ files os' = files lost_os).
Proof.
  destruct (main_file_resolved_once (H := sample_names) (H0 := debug_build)
              "ctu" sample_Ctx sample_mangle sample_os) as [Hres _].
  destruct (main_file_resolved_once (H := sample_names) (H0 := debug_build)
              "ctu" sample_Ctx sample_mangle lost_os) as [_ Hlost].
  split.
  - destruct (Hres "unit.c" "/src/unit.c")
      as (this' & os' & Hrun & Hcnt & Hcur & _).
    + reflexivity.
    + vm_compute. reflexivity.
    + discriminate.
    + exists this', os'. split; [exact Hrun|]. split.
      * rewrite Hcnt. reflexivity.
      * apply Hcur. reflexivity.
  - destruct Hlost as [Hkill _]; [reflexivity|].
    apply Hkill. reflexivity.
Defined.

(** ** C4: defined and external are disjoint *)

(** C4: provided the mangler gives different functions different names,
    no identity on a line of the defined stream of a unit is on a line of
    its external stream. A function declared first and defined later in
    the unit has a body at both declarations, and is external at
    neither. *)
Theorem defined_never_external `{TripleNames} (ctx : ASTContext)
    (M : ItaniumMangleContext) (os : OS) (name Path : string) :
  let this := newConsumer ctx M in
  let fds := unitFunctions ctx in
  (forall FD1 FD2,
      In FD1 fds -> In FD2 fds ->
      getMangledName this FD1 = getMangledName this FD2 ->
      getCanonicalDecl FD1 = getCanonicalDecl FD2) ->
  mainFileName ctx = Some name ->
  paths os !! name = Some Path ->
  Path <> "" ->
  exists this' os',
    run (HandleTranslationUnit this ctx) os = Exited this' os'
    /\ DefinedFuncsStr this'
       = str_concat
           (map (fun FDBody : FunctionDecl * Stmt =>
                   (if isInMainFile (getSourceManager ctx) (getLocStart FDBody.2)
                    then "!" else "")
                   +:+ identity this FDBody.1 +:+ " "
                   +:+ path_append "ast" [getTripleSuffix ctx; Path]
                   +:+ String "010" "")
                (definedDecls ctx fds))
    /\ ExternFuncStr this'
       = str_concat
           (map (fun FD => identity this FD +:+ String "010" "")
                (externalDecls ctx fds))
    /\ (forall FDBody FD',
          In FDBody (definedDecls ctx fds) ->
          In FD' (externalDecls ctx fds) ->
          identity this FDBody.1 <> identity this FD').
Proof.
  cbn zeta. intros Hinj Hm Hp Hne.
  rewrite (unit_run ctx M os name Path Hm Hp Hne).
  eexists _, _. split; [reflexivity|]. split; [|split].
  - unfold advance. cbn [DefinedFuncsStr newConsumer Ctx]. rewrite str_app_nil_l.
    f_equal. apply map_ext. intros [FD Body]. unfold definedLine, identity.
    cbn [fst snd Ctx]. rewrite !str_app_assoc. reflexivity.
  - unfold advance. cbn [ExternFuncStr newConsumer Ctx]. rewrite str_app_nil_l.
    f_equal. apply map_ext. intros FD. unfold externLine, identity.
    rewrite !str_app_assoc. reflexivity.
  - intros [FD Body] FD' Hd He. cbn [fst].
    apply definedDecls_In in Hd as (Hin & HB & _).
    apply externalDecls_In in He as (Hin' & HB' & _).
    unfold identity. intros E. apply str_app_inv_tail in E.
    apply (Hinj FD FD' Hin Hin') in E.
    unfold getBody in HB, HB'. rewrite E in HB. congruence.
Qed.

Lemma defined_never_external_witness :
  let this := newConsumer (H := sample_names) sample_Ctx sample_mangle in
  exists this' os',
    run (HandleTranslationUnit (H := sample_names) this sample_Ctx) sample_os
    = Exited this' os'
    /\ ExternFuncStr this' = "_Z3foov@x86_64" +:+ String "010" ""
                             +:+ "_ZL6helperv@x86_64" +:+ String "010" ""
    /\ (forall FDBody FD',
          In FDBody (definedDecls sample_Ctx (unitFunctions sample_Ctx)) ->
          In FD' (externalDecls sample_Ctx (unitFunctions sample_Ctx)) ->
          identity this FDBody.1 <> identity this FD').
Proof.
  destruct (defined_never_external (H := sample_names) sample_Ctx sample_mangle
              sample_os "unit.c" "/src/unit.c")
    as (this' & os' & Hrun & _ & Hext & Hdis).
  - intros FD1 FD2 H1 H2.
    cbn in H1, H2.
    repeat (destruct H1 as [<-|H1]); try contradiction;
      repeat (destruct H2 as [<-|H2]); try contradiction;
      vm_compute; intros E; first [reflexivity | discriminate E].
  - reflexivity.
  - vm_compute. reflexivity.
  - discriminate.
  - exists this', os'. split; [exact Hrun|]. split; [|exact Hdis].
    rewrite Hext. vm_compute. reflexivity.
Defined.

(** ** C5: concurrent flushes *)

(** C5: [N] processes flush their buffers to the same file, each by
    [lockedWrite]; whatever the schedule, and however [write] cuts the
    buffers into pieces, once all have returned the file is what it was
    followed by the buffers, each whole, in some order, and it has as many
    lines more as the buffers have together. *)
Theorem concurrent_flushes_do_not_interleave `{Build} (f : string)
    (buffers : list string)
    (fs : gmap string string) (sched : list (nat * nat)) :
  let w := run_schedule sched (flushers f buffers fs) in
  all_exited w = true ->
  exists l,
    Permutation l buffers
    /\ file_of (wfiles w) f = file_of fs f +:+ str_concat l
    /\ count_lines (file_of (wfiles w) f)
       = (count_lines (file_of fs f) + total_lines buffers)%nat.
Proof.
  intros w Hex.
  destruct (flushing_run_schedule f buffers (file_of fs f) sched _
              (flushing_init f buffers fs))
    as (order & Hlen & Hfile & Hnd & Hlt & Hst).
  fold w in Hlen, Hfile, Hst.
  assert (Hexited : forall j p, procs w !! j = Some p -> exited p = true).
  { intros j p Hp. unfold all_exited in Hex.
    rewrite forallb_forall in Hex. apply Hex.
    apply list_elem_of_In, (list_elem_of_lookup_2 _ j), Hp. }
  set (get := fun j => default "" (buffers !! j)).
  assert (Hwrote : forall j s, In (j, s) order -> buffers !! j = Some s).
  { intros j s Hin. pose proof (Hlt j s Hin) as Hj.
    destruct (lookup_lt_is_Some_2 buffers j Hj) as [b Hb].
    assert (Hj' : (j < length (procs w))%nat) by (rewrite Hlen; exact Hj).
    destruct (lookup_lt_is_Some_2 (procs w) j Hj') as [p Hp].
    destruct (Hst j b p Hb Hp) as (st & Hat & Hok).
    destruct (at_stage_exited f b p st Hat (Hexited j p Hp)) as [[-> _]| ->].
    - destruct Hok as [_ Hn]. exfalso. apply Hn.
      change j with (fst (j, s)). apply in_map, Hin.
    - destruct Hok as [_ Hin']. rewrite Hb. f_equal.
      exact (order_unique order j b s Hnd Hin' Hin). }
  assert (Hidle : forall j, (j < length buffers)%nat ->
                            ~ In j (map fst order) -> get j = "").
  { intros j Hj Hn. unfold get.
    destruct (lookup_lt_is_Some_2 buffers j Hj) as [b Hb].
    assert (Hj' : (j < length (procs w))%nat) by (rewrite Hlen; exact Hj).
    destruct (lookup_lt_is_Some_2 (procs w) j Hj') as [p Hp].
    destruct (Hst j b p Hb Hp) as (st & Hat & Hok).
    rewrite Hb. cbn [default].
    destruct (at_stage_exited f b p st Hat (Hexited j p Hp)) as [[_ ->]| ->];
      [reflexivity|].
    destruct Hok as [_ Hin]. exfalso. apply Hn.
    change j with (fst (j, b)). apply in_map, Hin. }
  set (ids := map fst order) in *.
  set (others := filter (fun j => j ∉ ids) (seq 0 (length buffers))).
  assert (Hperm : Permutation (map get (ids ++ others)) buffers).
  { rewrite <- (map_lookup_seq buffers) at 1. apply Permutation_map.
    apply writers_and_others; [exact Hnd|].
    intros j Hj. apply in_map_iff in Hj as ([j' s] & <- & Hin).
    exact (Hlt j' s Hin). }
  assert (Hconcat : str_concat (map get (ids ++ others))
                    = str_concat (map snd order)).
  { rewrite map_app, str_concat_app.
    rewrite (str_concat_all_empty (map get others)).
    - rewrite str_app_nil_r. f_equal. unfold ids. rewrite map_map.
      apply map_ext_in. intros [j s] Hin. unfold get. cbn [fst snd].
      rewrite (Hwrote j s Hin). reflexivity.
    - intros s Hs. apply in_map_iff in Hs as (j & <- & Hj).
      apply list_elem_of_In, list_elem_of_filter in Hj as [Hn Hj].
      apply elem_of_seq in Hj. apply Hidle; [lia|].
      intros Hin. apply Hn, list_elem_of_In, Hin. }
  exists (map get (ids ++ others)). split; [exact Hperm|].
  split; [rewrite Hconcat; exact Hfile|].
  rewrite Hfile, count_lines_app, <- Hconcat, count_lines_concat.
  rewrite (total_lines_Permutation _ _ Hperm). reflexivity.
Qed.

Lemma concurrent_flushes_do_not_interleave_witness :
  let buffers := ["ab" +:+ String "010" ""; "c" +:+ String "010" ""] in
  let w := run_schedule sample_schedule
             (flushers (H := debug_build) "ctu/definedFns.txt" buffers ∅) in
  exists l,
    Permutation l buffers
    /\ file_of (wfiles w) "ctu/definedFns.txt"
       = file_of ∅ "ctu/definedFns.txt" +:+ str_concat l
    /\ count_lines (file_of (wfiles w) "ctu/definedFns.txt")
       = (count_lines (file_of ∅ "ctu/definedFns.txt") + total_lines buffers)%nat.
Proof.
  apply (concurrent_flushes_do_not_interleave (H := debug_build)).
  vm_compute. reflexivity.
Defined.

Example sample_schedule_file :
  file_of (wfiles (run_schedule sample_schedule
                     (flushers (H := debug_build) "ctu/definedFns.txt"
                        ["ab" +:+ String "010" ""; "c" +:+ String "010" ""] ∅)))
          "ctu/definedFns.txt"
  = "ab" +:+ String "010" "" +:+ "c" +:+ String "010" "".
Proof. vm_compute. reflexivity. Qed.

(** ** C6: which definitions are recorded *)

(** C6: a function with a body adds a line to the defined stream if and
    only if its linkage is external, visible-no-linkage or unique-external;
    with internal or no linkage it adds nothing to either stream. *)
Theorem definition_recorded_iff_linkage `{TripleNames}
    (this : MapFunctionNamesConsumer) (FD : FunctionDecl) (Body : Stmt)
    (os : OS) (name Path : string) :
  getBody (Ctx this) FD = Some Body ->
  mainFileName (Ctx this) = Some name ->
  paths os !! name = Some Path ->
  Path <> "" ->
  CurrentFileName this = "" \/ CurrentFileName this = Path ->
  exists this' os',
    run (handleFunctionDecl this FD) os = Exited this' os'
    /\ ExternFuncStr this' = ExternFuncStr this
    /\ DefinedFuncsStr this'
       = DefinedFuncsStr this
         +:+ (if isRecordedLinkage (getLinkageInternal FD)
              then definedLine this Path (FD, Body) else "")
    /\ (DefinedFuncsStr this' <> DefinedFuncsStr this <->
        getLinkageInternal FD = ExternalLinkage
        \/ getLinkageInternal FD = VisibleNoLinkage
        \/ getLinkageInternal FD = UniqueExternalLinkage)
    /\ (getLinkageInternal FD = InternalLinkage
        \/ getLinkageInternal FD = NoLinkage ->
        DefinedFuncsStr this' = DefinedFuncsStr this).
Proof.
  intros HB Hm Hp Hne Hc.
  rewrite (handleFunctionDecl_run this FD os name Path Hm Hp Hne Hc).
  eexists _, _. split; [reflexivity|].
  unfold advance, definedDecls, externalDecls.
  cbn [ExternFuncStr DefinedFuncsStr flat_map List.filter].
  rewrite HB, bool_decide_eq_true_2 by eauto. cbn [negb andb map str_concat].
  rewrite str_app_nil_r.
  assert (E : str_concat (map (definedLine this Path)
                 ((if isRecordedLinkage (getLinkageInternal FD)
                   then [(FD, Body)] else []) ++ []))
              = if isRecordedLinkage (getLinkageInternal FD)
                then definedLine this Path (FD, Body) else "").
  { destruct (isRecordedLinkage _); cbn [app map str_concat];
      rewrite ?str_app_nil_r; reflexivity. }
  rewrite E. split; [reflexivity|]. split; [reflexivity|]. split.
  - rewrite <- isRecordedLinkage_iff.
    destruct (isRecordedLinkage _); split; try done.
    + intros _ E'. apply str_app_eq_self in E'.
      exact (definedLine_not_empty _ _ _ E').
    + rewrite str_app_nil_r. done.
  - intros [-> | ->]; cbn [isRecordedLinkage]; apply str_app_nil_r.
Qed.

Lemma definition_recorded_iff_linkage_witness :
  let this := newConsumer (H := sample_names) sample_Ctx sample_mangle in
  exists this' os',
    run (handleFunctionDecl (H := sample_names) this fd_add) sample_os
    = Exited this' os'
    /\ ExternFuncStr this' = ExternFuncStr this
    /\ DefinedFuncsStr this'
       = DefinedFuncsStr this
         +:+ (if isRecordedLinkage (getLinkageInternal fd_add)
              then definedLine (H := sample_names) this "/src/unit.c"
                     (fd_add, mkStmt (mkLoc 1 40))
              else "")
    /\ (DefinedFuncsStr this' <> DefinedFuncsStr this <->
        getLinkageInternal fd_add = ExternalLinkage
        \/ getLinkageInternal fd_add = VisibleNoLinkage
        \/ getLinkageInternal fd_add = UniqueExternalLinkage)
    /\ (getLinkageInternal fd_add = InternalLinkage
        \/ getLinkageInternal fd_add = NoLinkage ->
        DefinedFuncsStr this' = DefinedFuncsStr this).
Proof.
  apply (definition_recorded_iff_linkage (H := sample_names)
           (newConsumer (H := sample_names) sample_Ctx sample_mangle)
           fd_add (mkStmt (mkLoc 1 40)) sample_os "unit.c" "/src/unit.c").
  - reflexivity.
  - reflexivity.
  - vm_compute. reflexivity.
  - discriminate.
  - left. reflexivity.
Defined.

(** ** C7: the form of a defined line *)

(** C7: the defined stream of a unit is made of one line per recorded
    definition, of the form [[!]<mangled>@<arch> <path>], where [<path>] is
    [ast], the architecture and the resolved path of the main file joined,
    the same for all lines, [ast/<arch>/...] for an absolute path, and
    where the [!] is there exactly when the body starts in the main
    file. *)
Theorem defined_line_form `{TripleNames} (ctx : ASTContext)
    (M : ItaniumMangleContext) (os : OS) (name Path : string) :
  mainFileName ctx = Some name ->
  paths os !! name = Some Path ->
  Path <> "" ->
  let arch := getTripleSuffix ctx in
  let this := newConsumer ctx M in
  exists this' os',
    run (HandleTranslationUnit this ctx) os = Exited this' os'
    /\ DefinedFuncsStr this'
       = str_concat
           (map (fun FDBody : FunctionDecl * Stmt =>
                   (if isInMainFile (getSourceManager ctx) (getLocStart FDBody.2)
                    then "!" else "")
                   +:+ getMangledName this FDBody.1 +:+ "@" +:+ arch
                   +:+ " " +:+ path_append "ast" [arch; Path]
                   +:+ String "010" "")
                (definedDecls ctx (unitFunctions ctx)))
    /\ (forall rest,
          Path = "/" +:+ rest -> arch <> "" -> has_separator arch = false ->
          path_append "ast" [arch; Path] = "ast/" +:+ arch +:+ "/" +:+ rest).
Proof.
  intros Hm Hp Hne. cbn zeta.
  rewrite (unit_run ctx M os name Path Hm Hp Hne).
  eexists _, _. split; [reflexivity|]. split.
  - unfold advance. cbn [DefinedFuncsStr newConsumer Ctx]. rewrite str_app_nil_l.
    reflexivity.
  - intros rest -> Ha Hs. apply path_append_ast; assumption.
Qed.

Lemma defined_line_form_witness :
  exists this' os',
    run (HandleTranslationUnit (H := sample_names)
           (newConsumer (H := sample_names) sample_Ctx sample_mangle)
           sample_Ctx) sample_os
    = Exited this' os'
    /\ DefinedFuncsStr this'
       = str_concat
           [ "!_Z3addii@x86_64 ast/x86_64/src/unit.c" +:+ String "010" "";
             "!_Z3addii@x86_64 ast/x86_64/src/unit.c" +:+ String "010" "";
             "_Z5twicei@x86_64 ast/x86_64/src/unit.c" +:+ String "010" "";
             "!_Z4mainv@x86_64 ast/x86_64/src/unit.c" +:+ String "010" "" ].
Proof.
  destruct (defined_line_form (H := sample_names) sample_Ctx sample_mangle
              sample_os "unit.c" "/src/unit.c")
    as (this' & os' & Hrun & Hdef & _).
  - reflexivity.
  - vm_compute. reflexivity.
  - discriminate.
  - exists this', os'. split; [exact Hrun|]. rewrite Hdef. vm_compute. reflexivity.
Defined.

(** ** C8: the architecture suffix *)

(** C8: the suffix of every identity is [@] and the name of the
    architecture of the target, [arm] for a Thumb target; vendor, system,
    environment and everything else in the context have no part in it. *)
Theorem triple_suffix_is_arch_name `{TripleNames}
    (A : ArchType) (v o e v' o' e' : nat) (SM SM' : SourceManager)
    (tu tu' : option Decl) (defs defs' : nat -> option Stmt)
    (M M' : ItaniumMangleContext) (FD : FunctionDecl) :
  let this := newConsumer (mkCtx (mkTriple A v o e) SM tu defs) M in
  let this' := newConsumer (mkCtx (mkTriple A v' o' e') SM' tu' defs') M' in
  let thumb_this := newConsumer (mkCtx (mkTriple thumb v o e) SM tu defs) M in
  TripleStr this = "@" +:+ getArchTypeName (if decide (A = thumb) then arm else A)
  /\ identity this FD = getMangledName this FD +:+ "@"
                        +:+ getArchTypeName (if decide (A = thumb) then arm else A)
  /\ TripleStr thumb_this = "@" +:+ getArchTypeName arm
  /\ TripleStr this' = TripleStr this.
Proof.
  cbn. unfold identity, newConsumer, getTripleSuffix. cbn.
  repeat split; reflexivity.
Qed.

(** A Thumb target for another vendor, system and environment gets the
    suffix of [arm]. *)
Example thumb_suffix :
  TripleStr (newConsumer (H := sample_names) sample_Ctx_thumb sample_mangle)
  = "@arm"
  /\ TripleStr (newConsumer (H := sample_names) sample_Ctx sample_mangle)
     = "@x86_64".
Proof. split; reflexivity. Qed.

(** ** C9: empty buffers *)

(** C9: [lockedWrite] on an empty buffer makes no call and leaves the
    system as it is; the destructor with an empty external (defined) stream
    does what the flush of the other stream alone does, and the external
    (defined) file is neither created nor changed. *)
Theorem flush_skips_empty_buffer `{Build} (CTUDir : string)
    (this : MapFunctionNamesConsumer) (os : OS) :
  let ExternalFns := path_append CTUDir ["externalFns.txt"] in
  let DefinedFns := path_append CTUDir ["definedFns.txt"] in
  let after := final_os (run (deleteConsumer CTUDir this) os) in
  (forall fileName, run (lockedWrite fileName "") os = Exited tt os)
  /\ (ExternFuncStr this = "" ->
      run (deleteConsumer CTUDir this) os
      = run (lockedWrite DefinedFns (DefinedFuncsStr this)) os
      /\ files after !! ExternalFns = files os !! ExternalFns
      /\ count_events (is_open_of ExternalFns) after
         = count_events (is_open_of ExternalFns) os)
  /\ (DefinedFuncsStr this = "" ->
      run (deleteConsumer CTUDir this) os
      = run (lockedWrite ExternalFns (ExternFuncStr this)) os
      /\ files after !! DefinedFns = files os !! DefinedFns
      /\ count_events (is_open_of DefinedFns) after
         = count_events (is_open_of DefinedFns) os).
Proof.
  cbn zeta. split; [|split].
  - intros f. apply lockedWrite_empty.
  - intros He. unfold deleteConsumer. rewrite He.
    assert (E : forall p : Prog unit,
               run (lockedWrite (path_append CTUDir ["externalFns.txt"]) "" ;; p) os
               = run p os) by reflexivity.
    rewrite E. split; [reflexivity|]. split.
    + apply lockedWrite_other_files, ledger_files_differ.
    + apply lockedWrite_other_opens, ledger_files_differ.
  - intros Hd. unfold deleteConsumer. rewrite Hd.
    assert (E : forall p : Prog unit,
               run (p ;; lockedWrite (path_append CTUDir ["definedFns.txt"]) "") os
               = run p os).
    { intros p. apply run_then_ret. }
    rewrite E. split; [reflexivity|]. split.
    + apply lockedWrite_other_files. apply not_eq_sym, ledger_files_differ.
    + apply lockedWrite_other_opens. apply not_eq_sym, ledger_files_differ.
Qed.

Lemma flush_skips_empty_buffer_witness :
  let line := "!_Z4mainv@x86_64 ast/x86_64/src/unit.c" +:+ String "010" "" in
  let this := mkConsumer sample_Ctx sample_mangle line "" "@x86_64"
                "/src/unit.c" in
  let that := mkConsumer sample_Ctx sample_mangle "" line "@x86_64" "" in
  let after_this :=
    final_os (run (deleteConsumer (H := debug_build) "ctu" this) sample_os) in
  let after_that :=
    final_os (run (deleteConsumer (H := debug_build) "ctu" that) sample_os) in
  (run (deleteConsumer (H := debug_build) "ctu" this) sample_os
   = run (lockedWrite (H := debug_build) "ctu/definedFns.txt" line) sample_os
   /\ files after_this !! "ctu/externalFns.txt"
      = files sample_os !! "ctu/externalFns.txt"
   /\ count_events (is_open_of "ctu/externalFns.txt") after_this
      = count_events (is_open_of "ctu/externalFns.txt") sample_os)
  /\ (run (deleteConsumer (H := debug_build) "ctu" that) sample_os
      = run (lockedWrite (H := debug_build) "ctu/externalFns.txt" line) sample_os
      /\ files after_that !! "ctu/definedFns.txt"
         = files sample_os !! "ctu/definedFns.txt"
      /\ count_events (is_open_of "ctu/definedFns.txt") after_that
         = count_events (is_open_of "ctu/definedFns.txt") sample_os).
Proof.
  intros line this that after_this after_that.
  destruct (flush_skips_empty_buffer (H := debug_build) "ctu" this sample_os)
    as (_ & Hext & _).
  destruct (flush_skips_empty_buffer (H := debug_build) "ctu" that sample_os)
    as (_ & _ & Hdef).
  split; [apply Hext|apply Hdef]; reflexivity.
Defined.

(** The file that is not skipped gets its line. *)
Example flush_writes_the_other_file :
  let line := "!_Z4mainv@x86_64 ast/x86_64/src/unit.c" +:+ String "010" "" in
  let this := mkConsumer sample_Ctx sample_mangle line "" "@x86_64"
                "/src/unit.c" in
  let after :=
    final_os (run (deleteConsumer (H := debug_build) "ctu" this) sample_os) in
  files after !! "ctu/definedFns.txt" = Some line
  /\ files after !! "ctu/externalFns.txt" = None.
Proof. vm_compute. split; reflexivity. Qed.

(** ** C10: the exit code *)

(** C10: with [-ctu-dir] given once, [main] returns 0 whatever
    [ClangTool::run] returned; it returns nothing only if the process was
    killed on the way. *)
Theorem main_exit_code (argv : list string) (ToolRun : list string -> Prog Z)
    (os : OS) :
  let Sources :=
    List.filter (fun arg => endswith arg ".cpp" || endswith arg ".cc"
                            || endswith arg ".c" || endswith arg ".cxx")
                (List.tl argv) in
  run (main 1 argv ToolRun) os =
  match run (ToolRun Sources) os with
  | Exited _ os' => Exited 0 os'
  | Killed sig os' => Killed sig os'
  end.
Proof.
  cbn. unfold main. cbn [Nat.eqb negb]. unfold mbind, Prog_bind.
  rewrite run_bind. destruct (run _ os); reflexivity.
Qed.

(** The other ways out of [main]: [-ctu-dir] missing or given twice is exit
    code 1 and the tool is not run; and the sources are the arguments that
    end in one of the four extensions. *)
Example main_without_ctu_dir (argv : list string)
    (ToolRun : list string -> Prog Z) (os : OS) :
  run (main 0 argv ToolRun) os = Exited 1 os
  /\ run (main 2 argv ToolRun) os = Exited 1 os.
Proof. split; reflexivity. Qed.

Example main_selects_sources :
  run (main 1 ["clang-func-mapping"; "-ctu-dir=ctu"; "a.cpp"; "b.h"; "c.c";
               "d.cxx"; "e.cc"; "f.o"]
            (fun Sources => mret (Z.of_nat (length Sources)))) sample_os
  = Exited 0 sample_os
  /\ List.filter (fun arg => endswith arg ".cpp" || endswith arg ".cc"
                             || endswith arg ".c" || endswith arg ".cxx")
       ["-ctu-dir=ctu"; "a.cpp"; "b.h"; "c.c"; "d.cxx"; "e.cc"; "f.o"]
     = ["a.cpp"; "c.c"; "d.cxx"; "e.cc"].
Proof. split; reflexivity. Qed.
(* ===================================================================== *)
(** * Further properties of the code *)
(* ===================================================================== *)

(** ** The ledger writer *)

(** X1: [lockedWrite] on a buffer that is not empty never tests what
    [open] returned (line 52). Where [open] succeeds and the device has
    room for the buffer, it returns, the file named holds what it held
    followed by the whole buffer, every other file is as before, and the
    room left is less by the size of the buffer. Where [open] fails,
    nothing is written and no descriptor is left open: the process is
    killed by the assertion, or, in a build without assertions, returns as
    if the buffer had been written. *)
Theorem lockedWrite_appends `{Build} (refused : string -> bool)
    (fileName content : string) (os : OS) :
  content <> "" ->
  (refused fileName = false ->
   (String.length content <= space os)%nat ->
   exists os',
     run_in refused (lockedWrite fileName content) os = Exited tt os'
     /\ files os'
        = <[fileName := file_of (files os) fileName +:+ content]> (files os)
     /\ space os' = (space os - String.length content)%nat)
  /\ (refused fileName = true ->
      fdt os !! (-1) = None ->
      exists os',
        run_in refused (lockedWrite fileName content) os
        = (if NDEBUG then Exited tt os' else Killed SIGABRT os')
        /\ files os' = files os
        /\ fdt os' = fdt os
        /\ space os' = space os).
Proof.
  intros Hc. split.
  - intros Hr Hs. rewrite run_in_allowed by (apply lockedWrite_opens, Hr).
    destruct (lockedWrite_full_write fileName content os Hc Hs) as [Hrun _].
    exists (lw_closed fileName content os). split; [exact Hrun|].
    rewrite (lw_closed_state fileName content os Hc). cbn [files space].
    assert (Hm : lw_moved content os = String.length content)
      by (unfold lw_moved; lia).
    rewrite Hm, str_take_all by lia. auto.
  - intros Hr Hfd.
    destruct (lockedWrite_refused_frame refused fileName content os Hr Hfd)
      as (os' & Hrun & (_ & Hfiles & Hfdt & _ & Hspace) & _).
    apply str_empty_false in Hc. rewrite Hc, orb_false_r in Hrun.
    exists os'. auto.
Qed.

Lemma lockedWrite_appends_witness :
  let content := "_Z3foov@x86_64" +:+ String "010" "" in
  (exists os',
     run_in gone_dir
       (lockedWrite (H := debug_build) "ctu/externalFns.txt" content) sample_os
     = Exited tt os'
     /\ files os'
        = <["ctu/externalFns.txt" :=
              file_of (files sample_os) "ctu/externalFns.txt" +:+ content]>
            (files sample_os)
     /\ space os' = (space sample_os - String.length content)%nat)
  /\ (exists os',
        run_in gone_dir
          (lockedWrite (H := debug_build) "gone/externalFns.txt" content)
          sample_os
        = Killed SIGABRT os'
        /\ files os' = files sample_os
        /\ fdt os' = fdt sample_os
        /\ space os' = space sample_os).
Proof.
  intros content.
  destruct (lockedWrite_appends (H := debug_build) gone_dir
              "ctu/externalFns.txt" content sample_os) as [Hok _];
    [discriminate|].
  destruct (lockedWrite_appends (H := debug_build) gone_dir
              "gone/externalFns.txt" content sample_os) as [_ Hno];
    [discriminate|].
  split.
  - apply Hok; [reflexivity|vm_compute; lia].
  - apply Hno; [reflexivity|vm_compute; reflexivity].
Defined.



(** X3: the destructor flushes the external stream first. In a build with
    assertions, when the device has no room for the whole external stream,
    the process is killed in that flush, whether [open] succeeded or not:
    the external file got the beginning of the stream that there was room
    for if it could be opened and nothing otherwise, and the file of the
    definitions is neither opened nor changed. *)
Theorem failed_external_flush_skips_defined `{Build}
    (refused : string -> bool) (CTUDir : string)
    (this : MapFunctionNamesConsumer) (os : OS) :
  NDEBUG = false ->
  fdt os !! (-1) = None ->
  (space os < String.length (ExternFuncStr this))%nat ->
  let ExternalFns := path_append CTUDir ["externalFns.txt"] in
  let DefinedFns := path_append CTUDir ["definedFns.txt"] in
  exists os',
    run_in refused (deleteConsumer CTUDir this) os = Killed SIGABRT os'
    /\ file_of (files os') ExternalFns
       = file_of (files os) ExternalFns
         +:+ (if refused ExternalFns then ""
              else str_take (space os) (ExternFuncStr this))
    /\ files os' !! DefinedFns = files os !! DefinedFns
    /\ count_events (is_open_of DefinedFns) os'
       = count_events (is_open_of DefinedFns) os.
Proof.
  intros Hn Hfd Hs. cbn zeta. unfold deleteConsumer.
  pose proof (ledger_files_differ CTUDir) as Hne.
  set (E := path_append CTUDir ["externalFns.txt"]) in *.
  set (D := path_append CTUDir ["definedFns.txt"]) in *.
  set (c := ExternFuncStr this) in *.
  assert (Hc : c <> "") by (intros Ec; rewrite Ec in Hs; cbn in Hs; lia).
  unfold mbind, Prog_bind. rewrite run_in_bind.
  destruct (refused E) eqn:Hr.
  - destruct (lockedWrite_refused_frame refused E c os Hr Hfd)
      as (os' & Hrun & (_ & Hfiles & _) & Hopens).
    apply str_empty_false in Hc. rewrite Hn, Hc in Hrun. cbn [orb] in Hrun.
    rewrite Hrun. exists os'. split; [reflexivity|].
    rewrite Hfiles, str_app_nil_r. split; [reflexivity|].
    split; [reflexivity|]. apply Hopens. congruence.
  - rewrite run_in_allowed by (apply lockedWrite_opens, Hr).
    assert (Hm : lw_moved c os = space os) by (unfold lw_moved; lia).
    assert (Hw : ((lw_written E c os).1 =? Z.of_nat (String.length c)) = false).
    { rewrite lw_written_result by exact Hc. rewrite Hm.
      destruct (_ =? 0)%nat; apply Z.eqb_neq; lia. }
    pose proof (lockedWrite_other_opens E c D os) as Hopens.
    rewrite lockedWrite_run in Hopens |- * by exact Hc.
    rewrite Hn, Hw in Hopens |- *. cbn [orb final_os] in Hopens |- *.
    eexists. split; [reflexivity|].
    rewrite lw_written_files, Hm by exact Hc. split; [|split].
    + apply file_of_insert.
    + apply lookup_insert_ne. exact Hne.
    + apply Hopens. congruence.
Qed.

Lemma failed_external_flush_skips_defined_witness :
  let line := "_Z3foov@x86_64" +:+ String "010" "" in
  let this := mkConsumer sample_Ctx sample_mangle line line "@x86_64"
                "/src/unit.c" in
  (exists os',
     run_in gone_dir (deleteConsumer (H := debug_build) "ctu" this) full_os
     = Killed SIGABRT os'
     /\ file_of (files os') "ctu/externalFns.txt" = "_Z3"
     /\ files os' !! "ctu/definedFns.txt" = None)
  /\ (exists os',
        run_in gone_dir (deleteConsumer (H := debug_build) "gone" this) full_os
        = Killed SIGABRT os'
        /\ file_of (files os') "gone/externalFns.txt" = ""
        /\ files os' !! "gone/definedFns.txt" = None).
Proof.
  intros line this. split.
  - destruct (failed_external_flush_skips_defined (H := debug_build) gone_dir
                "ctu" this full_os) as (os' & Hrun & Hext & Hdef & _).
    + reflexivity.
    + vm_compute. reflexivity.
    + vm_compute. lia.
    + exists os'. split; [exact Hrun|]. split; [exact Hext|exact Hdef].
  - destruct (failed_external_flush_skips_defined (H := debug_build) gone_dir
                "gone" this full_os) as (os' & Hrun & Hext & Hdef & _).
    + reflexivity.
    + vm_compute. reflexivity.
    + vm_compute. lia.
    + exists os'. split; [exact Hrun|]. split; [exact Hext|exact Hdef].
Defined.

(** X4: in a build without assertions the destructor returns whatever
    room the device has and whether the two files can be opened or not: a
    file that cannot be opened gets nothing, the external file otherwise
    as much of the external stream as there is room for, then the file of
    the definitions as much of the defined stream as there is room left
    for, and nothing tells that a stream was cut or dropped. *)
Theorem release_flush_always_returns `{Build} (refused : string -> bool)
    (CTUDir : string) (this : MapFunctionNamesConsumer) (os : OS) :
  NDEBUG = true ->
  fdt os !! (-1) = None ->
  let ExternalFns := path_append CTUDir ["externalFns.txt"] in
  let DefinedFns := path_append CTUDir ["definedFns.txt"] in
  let e := if refused ExternalFns then 0%nat
           else Nat.min (String.length (ExternFuncStr this)) (space os) in
  let d := if refused DefinedFns then 0%nat
           else Nat.min (String.length (DefinedFuncsStr this)) (space os - e) in
  exists os',
    run_in refused (deleteConsumer CTUDir this) os = Exited tt os'
    /\ file_of (files os') ExternalFns
       = file_of (files os) ExternalFns +:+ str_take e (ExternFuncStr this)
    /\ file_of (files os') DefinedFns
       = file_of (files os) DefinedFns +:+ str_take d (DefinedFuncsStr this)
    /\ space os' = (space os - e - d)%nat.
Proof.
  intros Hn Hfd. cbn zeta. unfold deleteConsumer.
  pose proof (ledger_files_differ CTUDir) as Hne.
  set (E := path_append CTUDir ["externalFns.txt"]) in *.
  set (D := path_append CTUDir ["definedFns.txt"]) in *.
  destruct (lockedWrite_release_in refused E (ExternFuncStr this) os Hn Hfd)
    as (os1 & Hrun1 & Hf1 & Ho1 & Hs1 & Hfd1).
  destruct (lockedWrite_release_in refused D (DefinedFuncsStr this) os1 Hn Hfd1)
    as (os2 & Hrun2 & Hf2 & Ho2 & Hs2 & _).
  unfold lw_moved in *.
  exists os2. unfold mbind, Prog_bind. rewrite run_in_bind, Hrun1.
  split; [exact Hrun2|]. split; [|split].
  - rewrite <- Hf1. apply file_of_same, Ho2. exact Hne.
  - rewrite Hf2, Hs1. f_equal. apply file_of_same, Ho1. congruence.
  - rewrite Hs2, Hs1. reflexivity.
Qed.

Lemma release_flush_always_returns_witness :
  let line := "_Z3foov@x86_64" +:+ String "010" "" in
  let this := mkConsumer sample_Ctx sample_mangle line line "@x86_64"
                "/src/unit.c" in
  (exists os',
     run_in gone_dir (deleteConsumer (H := release_build) "ctu" this) full_os
     = Exited tt os'
     /\ file_of (files os') "ctu/externalFns.txt" = "_Z3"
     /\ file_of (files os') "ctu/definedFns.txt" = ""
     /\ space os' = 0%nat)
  /\ (exists os',
        run_in gone_dir (deleteConsumer (H := release_build) "gone" this)
          sample_os = Exited tt os'
        /\ file_of (files os') "gone/externalFns.txt" = ""
        /\ file_of (files os') "gone/definedFns.txt" = ""
        /\ space os' = space sample_os).
Proof.
  intros line this. split.
  - destruct (release_flush_always_returns (H := release_build) gone_dir "ctu"
                this full_os) as (os' & Hrun & Hext & Hdef & Hs).
    + reflexivity.
    + vm_compute. reflexivity.
    + exists os'. split; [exact Hrun|]. split; [exact Hext|].
      split; [exact Hdef|exact Hs].
  - destruct (release_flush_always_returns (H := release_build) gone_dir "gone"
                this sample_os) as (os' & Hrun & Hext & Hdef & Hs).
    + reflexivity.
    + vm_compute. reflexivity.
    + exists os'. split; [exact Hrun|]. split; [exact Hext|].
      split; [exact Hdef|exact Hs].
Defined.

(** X18: when [write] moves fewer bytes than the buffer has, there is
    exactly one [write] call in any build (no retry), and in a build with
    assertions the process is killed by the failed assertion, the file not
    holding the whole buffer. *)
Theorem lockedWrite_short_write `{Build} (fileName content : string) (os : OS) :
  content <> "" ->
  (space os < String.length content)%nat ->
  count_events is_write (final_os (run (lockedWrite fileName content) os))
  = (count_events is_write os + 1)%nat
  /\ (NDEBUG = false ->
      exists os', run (lockedWrite fileName content) os = Killed SIGABRT os'
        /\ file_of (files os') fileName <> file_of (files os) fileName +:+ content).
Proof.
  intros Hc Hs. rewrite lockedWrite_run by exact Hc.
  assert (Hw : ((lw_written fileName content os).1
                =? Z.of_nat (String.length content)) = false).
  { rewrite lw_written_result by exact Hc. unfold lw_moved.
    destruct (_ =? 0)%nat; apply Z.eqb_neq; lia. }
  rewrite Hw, orb_false_r. split.
  - destruct NDEBUG; cbn [final_os].
    + apply lw_closed_writes.
    + apply lw_written_writes.
  - intros ->. eexists. split; [reflexivity|].
    rewrite lw_written_files by exact Hc. unfold file_of at 1.
    rewrite lookup_insert_eq. cbn [default]. intros E.
    apply str_app_inv_head in E. apply (f_equal String.length) in E.
    rewrite str_take_length in E. unfold lw_moved in E. lia.
Qed.

Lemma lockedWrite_short_write_witness :
  let content := "_Z3foov@x86_64" +:+ String "010" "" in
  count_events is_write
    (final_os (run (lockedWrite (H := debug_build) "ctu/externalFns.txt" content)
                   full_os))
  = (count_events is_write full_os + 1)%nat
  /\ exists os',
       run (lockedWrite (H := debug_build) "ctu/externalFns.txt" content) full_os
       = Killed SIGABRT os'
       /\ file_of (files os') "ctu/externalFns.txt"
          <> file_of (files full_os) "ctu/externalFns.txt" +:+ content.
Proof.
  intros content.
  destruct (lockedWrite_short_write (H := debug_build)
              "ctu/externalFns.txt" content full_os) as [Hcount Hkill].
  - discriminate.
  - vm_compute. lia.
  - split; [exact Hcount|]. apply Hkill. reflexivity.
Defined.

(** ** The walk over the declarations *)

(** X5: a function declaration without a body is recorded in the external
    stream, by its mangled name and the suffix of the target, unless it is
    a builtin; its linkage is not looked at. No call is made for it, and
    the defined stream and the name of the main file stay as they are. *)
Theorem declaration_recorded_unless_builtin `{TripleNames}
    (this : MapFunctionNamesConsumer) (FD : FunctionDecl) (os : OS) :
  getBody (Ctx this) FD = None ->
  exists this',
    run (handleFunctionDecl this FD) os = Exited this' os
    /\ DefinedFuncsStr this' = DefinedFuncsStr this
    /\ CurrentFileName this' = CurrentFileName this
    /\ ExternFuncStr this'
       = ExternFuncStr this
         +:+ (if (getBuiltinID FD =? 0)%nat
              then identity this FD +:+ String "010" "" else "")
    /\ (ExternFuncStr this' <> ExternFuncStr this
        <-> getBuiltinID FD = 0%nat).
Proof.
  intros HB. unfold handleFunctionDecl. rewrite HB.
  rewrite bool_decide_eq_false_2 by (intros [? ?]; congruence).
  cbn [negb andb].
  destruct (Nat.eqb_spec (getBuiltinID FD) 0) as [E|E].
  - eexists. split; [reflexivity|].
    unfold putExtern, identity.
    cbn [DefinedFuncsStr ExternFuncStr CurrentFileName TripleStr Ctx ItaniumCtx].
    split; [reflexivity|]. split; [reflexivity|].
    split; [rewrite !str_app_assoc; reflexivity|].
    split; [intros _; exact E|]. intros _ Eq.
    rewrite !str_app_assoc in Eq. apply str_app_eq_self in Eq.
    apply (f_equal String.length) in Eq. rewrite !str_length_app in Eq.
    cbn in Eq. lia.
  - exists this. split; [reflexivity|]. rewrite str_app_nil_r.
    split; [reflexivity|]. split; [reflexivity|]. split; [reflexivity|].
    split; [congruence|contradiction].
Qed.

Lemma declaration_recorded_unless_builtin_witness :
  let this := newConsumer (H := sample_names) sample_Ctx sample_mangle in
  exists this',
    run (handleFunctionDecl (H := sample_names) this fd_helper) lost_os
    = Exited this' lost_os
    /\ ExternFuncStr this' = "_ZL6helperv@x86_64" +:+ String "010" "".
Proof.
  intros this.
  destruct (declaration_recorded_unless_builtin (H := sample_names) this
              fd_helper lost_os) as (this' & Hrun & _ & _ & Hext & _).
  - reflexivity.
  - exists this'. split; [exact Hrun|]. rewrite Hext. reflexivity.
Defined.

(** X6: the walk over a unit opens, locks, writes and closes nothing: the
    files, the descriptors, the room on the device and the name resolution
    are after it what they were before, the only calls made are to
    [realpath], and the process is never killed by an assertion. *)
Theorem walk_touches_no_file `{TripleNames} (this : MapFunctionNamesConsumer)
    (ctx : ASTContext) (os : OS) :
  let o := run (HandleTranslationUnit this ctx) os in
  files (final_os o) = files os
  /\ fdt (final_os o) = fdt os
  /\ space (final_os o) = space os
  /\ paths (final_os o) = paths os
  /\ (exists calls,
        log (final_os o) = log os ++ calls
        /\ forallb is_realpath calls = true)
  /\ (forall sig os', o = Killed sig os' -> sig = SIGSEGV).
Proof.
  cbn zeta.
  assert (Hf : walk_frame this os (run (HandleTranslationUnit this ctx) os)).
  { unfold HandleTranslationUnit. destruct (getTranslationUnitDecl ctx) as [D|].
    - apply handleDecl_frame.
    - apply walk_frame_returned. }
  destruct Hf as ((Hp & Hfiles & Hfdt & _ & Hsp) & Hlog & Hk).
  repeat split; try assumption.
  intros sig os' E. rewrite E in Hk. exact Hk.
Qed.

(** X7: a walk that returns leaves the context, the mangler and the suffix
    of the consumer as the constructor set them, and only adds to the two
    streams: what was recorded before is the beginning of what is recorded
    after. *)
Theorem walk_keeps_consumer `{TripleNames} (this this' : MapFunctionNamesConsumer)
    (D : Decl) (os os' : OS) :
  run (handleDecl D this) os = Exited this' os' ->
  Ctx this' = Ctx this
  /\ ItaniumCtx this' = ItaniumCtx this
  /\ TripleStr this' = TripleStr this
  /\ (exists added, DefinedFuncsStr this' = DefinedFuncsStr this +:+ added)
  /\ (exists added, ExternFuncStr this' = ExternFuncStr this +:+ added).
Proof.
  intros E. pose proof (handleDecl_frame D this os) as (_ & _ & Hk).
  rewrite E in Hk. exact Hk.
Qed.
Lemma walk_keeps_consumer_witness :
  let this := mkConsumer sample_Ctx sample_mangle "kept" "too" "@x86_64" "" in
  exists this',
    Ctx this' = Ctx this
    /\ ItaniumCtx this' = ItaniumCtx this
    /\ TripleStr this' = TripleStr this
    /\ (exists added, DefinedFuncsStr this' = DefinedFuncsStr this +:+ added)
    /\ (exists added, ExternFuncStr this' = ExternFuncStr this +:+ added).
Proof.
  intros this.
  eexists.
  apply (walk_keeps_consumer (H := sample_names) this _ sample_tu sample_os
           (logged (sys_realpath "unit.c") (Some "/src/unit.c") sample_os)).
  vm_compute. reflexivity.
Defined.

(** X8: a unit in which no function has a body makes no call at all, so
    that it does not matter whether its main file resolves: the walk
    returns in the same system, the defined stream is empty, the name of
    the main file is not set, and the external stream has the line of
    every declaration that is not a builtin. *)
Theorem declarations_only_unit `{TripleNames} (ctx : ASTContext)
    (M : ItaniumMangleContext) (os : OS) :
  hasBodies ctx (unitFunctions ctx) = false ->
  let this := newConsumer ctx M in
  exists this',
    run (HandleTranslationUnit this ctx) os = Exited this' os
    /\ DefinedFuncsStr this' = ""
    /\ CurrentFileName this' = ""
    /\ ExternFuncStr this'
       = str_concat (map (fun FD => identity this FD +:+ String "010" "")
                         (externalDecls ctx (unitFunctions ctx))).
Proof.
  intros Hb. cbn zeta. unfold HandleTranslationUnit, unitFunctions in *.
  destruct (getTranslationUnitDecl ctx) as [D|].
  - rewrite handleDecl_no_body by exact Hb. eexists. split; [reflexivity|].
    unfold advance. cbn [DefinedFuncsStr ExternFuncStr CurrentFileName newConsumer Ctx].
    rewrite Hb, (definedDecls_no_bodies ctx _ Hb). cbn [map str_concat].
    split; [reflexivity|]. split; [reflexivity|].
    rewrite str_app_nil_l. f_equal. apply map_ext. intros FD.
    unfold externLine, identity. rewrite str_app_assoc. reflexivity.
  - eexists. split; [reflexivity|]. cbn. auto.
Qed.

Lemma declarations_only_unit_witness :
  let this := newConsumer (H := sample_names) decls_Ctx sample_mangle in
  exists this',
    run (HandleTranslationUnit (H := sample_names) this decls_Ctx) lost_os
    = Exited this' lost_os
    /\ DefinedFuncsStr this' = ""
    /\ CurrentFileName this' = ""
    /\ ExternFuncStr this' = "_Z3foov@arm" +:+ String "010" "".
Proof.
  intros this.
  destruct (declarations_only_unit (H := sample_names) decls_Ctx sample_mangle
              lost_os) as (this' & Hrun & Hdef & Hcur & Hext).
  - reflexivity.
  - exists this'. split; [exact Hrun|]. split; [exact Hdef|].
    split; [exact Hcur|]. rewrite Hext. reflexivity.
Defined.

(** X9: when no mangled name, the name of the architecture and the path
    of the main file contain no newline, each stream of a unit has exactly
    as many lines as functions were recorded in it. *)
Theorem one_line_per_record `{TripleNames} (ctx : ASTContext)
    (M : ItaniumMangleContext) (os : OS) (name Path : string) :
  mainFileName ctx = Some name ->
  paths os !! name = Some Path ->
  Path <> "" ->
  let this := newConsumer ctx M in
  (forall FD, In FD (unitFunctions ctx) -> one_line (getMangledName this FD)) ->
  one_line (getTripleSuffix ctx) ->
  one_line Path ->
  exists this' os',
    run (HandleTranslationUnit this ctx) os = Exited this' os'
    /\ count_lines (DefinedFuncsStr this')
       = length (definedDecls ctx (unitFunctions ctx))
    /\ count_lines (ExternFuncStr this')
       = length (externalDecls ctx (unitFunctions ctx)).
Proof.
  intros Hm Hp Hne. cbn zeta. unfold one_line. intros Hmangle Harch Hpath.
  rewrite (unit_run ctx M os name Path Hm Hp Hne).
  eexists _, _. split; [reflexivity|].
  unfold advance. cbn [DefinedFuncsStr ExternFuncStr newConsumer Ctx].
  rewrite !str_app_nil_l. split.
  - apply count_lines_lines. intros [FD Body] Hin.
    apply definedDecls_In in Hin as (Hin & _).
    unfold definedLine. cbn [fst snd].
    change (TripleStr (newConsumer ctx M)) with ("@" +:+ getTripleSuffix ctx).
    change (Ctx (newConsumer ctx M)) with ctx.
    rewrite !count_lines_app, count_lines_path_append, (Hmangle FD Hin), Harch.
    unfold total_lines. cbn [map list_sum fold_right]. rewrite Harch, Hpath.
    destruct (isInMainFile _ _); reflexivity.
  - apply count_lines_lines. intros FD Hin.
    apply externalDecls_In in Hin as (Hin & _).
    unfold externLine.
    change (TripleStr (newConsumer ctx M)) with ("@" +:+ getTripleSuffix ctx).
    rewrite !count_lines_app, (Hmangle FD Hin), Harch. reflexivity.
Qed.

Lemma one_line_per_record_witness :
  let this := newConsumer (H := sample_names) sample_Ctx sample_mangle in
  exists this' os',
    run (HandleTranslationUnit (H := sample_names) this sample_Ctx) sample_os
    = Exited this' os'
    /\ count_lines (DefinedFuncsStr this') = 4%nat
    /\ count_lines (ExternFuncStr this') = 2%nat.
Proof.
  intros this.
  destruct (one_line_per_record (H := sample_names) sample_Ctx sample_mangle
              sample_os "unit.c" "/src/unit.c")
    as (this' & os' & Hrun & Hdef & Hext).
  - reflexivity.
  - vm_compute. reflexivity.
  - discriminate.
  - intros FD Hin. cbn in Hin.
    repeat (destruct Hin as [<-|Hin]; [reflexivity|]). destruct Hin.
  - reflexivity.
  - reflexivity.
  - exists this', os'. split; [exact Hrun|]. rewrite Hdef, Hext.
    split; reflexivity.
Defined.

(** ** A whole unit *)

(** X10: for a unit whose main file resolves, where the two files of the
    directory can be opened and the device has room for both streams, the
    action returns, [definedFns.txt] of the directory holds what it held
    followed by the lines of the definitions, [externalFns.txt] what it
    held followed by the lines of the declarations, and no other file is
    changed. *)
Theorem unit_is_appended_to_both_files `{Build} `{TripleNames}
    (refused : string -> bool) (CTUDir : string) (ctx : ASTContext)
    (M : ItaniumMangleContext) (os : OS) (name Path : string) :
  mainFileName ctx = Some name ->
  paths os !! name = Some Path ->
  Path <> "" ->
  let this := newConsumer ctx M in
  let defined :=
    str_concat (map (definedLine this Path)
                    (definedDecls ctx (unitFunctions ctx))) in
  let external :=
    str_concat (map (externLine this) (externalDecls ctx (unitFunctions ctx))) in
  let ExternalFns := path_append CTUDir ["externalFns.txt"] in
  let DefinedFns := path_append CTUDir ["definedFns.txt"] in
  refused ExternalFns = false ->
  refused DefinedFns = false ->
  (String.length defined + String.length external <= space os)%nat ->
  exists os',
    run_in refused (runAction CTUDir ctx M) os = Exited tt os'
    /\ file_of (files os') DefinedFns = file_of (files os) DefinedFns +:+ defined
    /\ file_of (files os') ExternalFns
       = file_of (files os) ExternalFns +:+ external
    /\ (forall g, g <> DefinedFns -> g <> ExternalFns ->
                  files os' !! g = files os !! g).
Proof.
  intros Hm Hp Hne. cbn zeta. intros HE HD Hs.
  rewrite run_in_allowed by (apply runAction_opens; assumption).
  destruct (runAction_room CTUDir ctx M os name Path Hm Hp Hne Hs)
    as (os' & Hrun & HDf & HEf & Ho & _).
  exists os'. auto.
Qed.

Lemma unit_is_appended_to_both_files_witness :
  let this := newConsumer (H := sample_names) sample_Ctx sample_mangle in
  let defined :=
    str_concat (map (definedLine (H := sample_names) this "/src/unit.c")
                    (definedDecls sample_Ctx (unitFunctions sample_Ctx))) in
  let external :=
    str_concat (map (externLine this)
                    (externalDecls sample_Ctx (unitFunctions sample_Ctx))) in
  exists os',
    run_in gone_dir
      (runAction (H := debug_build) (H0 := sample_names) "ctu" sample_Ctx
         sample_mangle) sample_os = Exited tt os'
    /\ file_of (files os') "ctu/definedFns.txt" = defined
    /\ file_of (files os') "ctu/externalFns.txt" = external.
Proof.
  intros this defined external.
  destruct (unit_is_appended_to_both_files (H := debug_build)
              (H0 := sample_names) gone_dir "ctu" sample_Ctx sample_mangle
              sample_os "unit.c" "/src/unit.c") as (os' & Hrun & Hdef & Hext & _).
  - reflexivity.
  - vm_compute. reflexivity.
  - discriminate.
  - reflexivity.
  - reflexivity.
  - vm_compute. lia.
  - exists os'. split; [exact Hrun|]. split; [exact Hdef|exact Hext].
Defined.

(** X11: nothing is remembered between two runs: where the two files can
    be opened and the device has room, the same unit run twice with the
    same directory leaves its lines twice in each of the two files. *)
Theorem rerun_appends_again `{Build} `{TripleNames}
    (refused : string -> bool) (CTUDir : string) (ctx : ASTContext)
    (M : ItaniumMangleContext) (os : OS) (name Path : string) :
  mainFileName ctx = Some name ->
  paths os !! name = Some Path ->
  Path <> "" ->
  let this := newConsumer ctx M in
  let defined :=
    str_concat (map (definedLine this Path)
                    (definedDecls ctx (unitFunctions ctx))) in
  let external :=
    str_concat (map (externLine this) (externalDecls ctx (unitFunctions ctx))) in
  let ExternalFns := path_append CTUDir ["externalFns.txt"] in
  let DefinedFns := path_append CTUDir ["definedFns.txt"] in
  refused ExternalFns = false ->
  refused DefinedFns = false ->
  (2 * (String.length defined + String.length external) <= space os)%nat ->
  exists os',
    run_in refused (runAction CTUDir ctx M ;; runAction CTUDir ctx M) os
    = Exited tt os'
    /\ file_of (files os') DefinedFns
       = file_of (files os) DefinedFns +:+ defined +:+ defined
    /\ file_of (files os') ExternalFns
       = file_of (files os) ExternalFns +:+ external +:+ external.
Proof.
  intros Hm Hp Hne. cbn zeta. intros HE HD Hs.
  unfold mbind at 1. unfold Prog_bind at 1.
  rewrite run_in_allowed
    by (apply opens_allowed_bind; [|intros _]; apply runAction_opens;
        assumption).
  destruct (runAction_room CTUDir ctx M os name Path Hm Hp Hne)
    as (os1 & Hrun1 & HD1 & HE1 & _ & Hp1 & Hs1); [lia|].
  assert (Hp' : paths os1 !! name = Some Path) by (rewrite Hp1; exact Hp).
  destruct (runAction_room CTUDir ctx M os1 name Path Hm Hp' Hne)
    as (os2 & Hrun2 & HD2 & HE2 & _); [lia|].
  exists os2. rewrite run_bind, Hrun1.
  split; [exact Hrun2|].
  rewrite HD2, HD1, HE2, HE1, !str_app_assoc. auto.
Qed.

Lemma rerun_appends_again_witness :
  let this := newConsumer (H := sample_names) sample_Ctx sample_mangle in
  let defined :=
    str_concat (map (definedLine (H := sample_names) this "/src/unit.c")
                    (definedDecls sample_Ctx (unitFunctions sample_Ctx))) in
  let external :=
    str_concat (map (externLine this)
                    (externalDecls sample_Ctx (unitFunctions sample_Ctx))) in
  exists os',
    run_in gone_dir
      (runAction (H := debug_build) (H0 := sample_names) "ctu" sample_Ctx
         sample_mangle ;;
       runAction (H := debug_build) (H0 := sample_names) "ctu" sample_Ctx
         sample_mangle) sample_os = Exited tt os'
    /\ file_of (files os') "ctu/definedFns.txt" = defined +:+ defined
    /\ file_of (files os') "ctu/externalFns.txt" = external +:+ external.
Proof.
  intros this defined external.
  destruct (rerun_appends_again (H := debug_build) (H0 := sample_names)
              gone_dir "ctu" sample_Ctx sample_mangle sample_os "unit.c"
              "/src/unit.c") as (os' & Hrun & Hdef & Hext).
  - reflexivity.
  - vm_compute. reflexivity.
  - discriminate.
  - reflexivity.
  - reflexivity.
  - vm_compute. lia.
  - exists os'. split; [exact Hrun|]. split; [exact Hdef|exact Hext].
Defined.

(** X12: a unit of which no function is recorded, neither as defined nor
    as external, leaves no trace: no file is created, opened or changed,
    and the only calls are to [realpath]; if moreover no function has a
    body, the action returns in the system it started in. *)
Theorem nothing_recorded_nothing_written `{Build} `{TripleNames}
    (CTUDir : string) (ctx : ASTContext) (M : ItaniumMangleContext) (os : OS) :
  definedDecls ctx (unitFunctions ctx) = [] ->
  externalDecls ctx (unitFunctions ctx) = [] ->
  mainFilePath ctx os <> Some "" ->
  let o := run (runAction CTUDir ctx M) os in
  files (final_os o) = files os
  /\ fdt (final_os o) = fdt os
  /\ space (final_os o) = space os
  /\ (exists calls,
        log (final_os o) = log os ++ calls
        /\ forallb is_realpath calls = true)
  /\ (hasBodies ctx (unitFunctions ctx) = false -> o = Exited tt os).
Proof.
  intros Hd He Hp. cbn zeta. unfold runAction, mbind, Prog_bind.
  rewrite run_bind.
  assert (Hflush : forall this' os1,
             DefinedFuncsStr this' = "" -> ExternFuncStr this' = "" ->
             run (deleteConsumer CTUDir this') os1 = Exited tt os1).
  { intros this' os1 E1 E2. unfold deleteConsumer. rewrite E1, E2. reflexivity. }
  destruct (mainFilePath ctx os) as [Path|] eqn:Hm.
  - unfold mainFilePath in Hm.
    destruct (mainFileName ctx) as [name|] eqn:Hn; [|discriminate].
    assert (Hne : Path <> "") by congruence.
    rewrite (unit_run ctx M os name Path Hn Hm Hne).
    rewrite Hflush.
    + cbn [final_os].
      destruct (resolved_same_system (newConsumer ctx M) (unitFunctions ctx)
                  name Path os) as (_ & Hf & Hfd & _ & Hs).
      split; [exact Hf|]. split; [exact Hfd|]. split; [exact Hs|].
      split; [apply resolved_only_resolved|].
      intros Hb. unfold resolved. cbn [Ctx newConsumer]. rewrite Hb, andb_false_r.
      reflexivity.
    + unfold advance. cbn [DefinedFuncsStr newConsumer Ctx]. rewrite Hd.
      reflexivity.
    + unfold advance. cbn [ExternFuncStr newConsumer Ctx]. rewrite He.
      reflexivity.
  - rewrite (unit_lost ctx M os Hm). unfold lost_outcome.
    cbn [Ctx newConsumer].
    destruct (hasBodies ctx (unitFunctions ctx)) eqn:Hb.
    + cbn [final_os]. unfold unresolved.
      destruct (mainFileName ctx) as [name|].
      * cbn [logged files fdt space log]. repeat split; try reflexivity.
        -- exists [Called (sys_realpath name) None]. auto.
        -- discriminate.
      * repeat split; try reflexivity.
        -- exists []. rewrite app_nil_r. auto.
        -- discriminate.
    + rewrite Hflush.
      * cbn [final_os]. repeat split; try reflexivity.
        exists []. rewrite app_nil_r. auto.
      * unfold advance. cbn [DefinedFuncsStr newConsumer Ctx]. rewrite Hd.
        reflexivity.
      * unfold advance. cbn [ExternFuncStr newConsumer Ctx]. rewrite He.
        reflexivity.
Qed.

Lemma nothing_recorded_nothing_written_witness :
  let o := run (runAction (H := debug_build) (H0 := sample_names) "ctu"
                  static_Ctx sample_mangle) sample_os in
  files (final_os o) = files sample_os
  /\ fdt (final_os o) = fdt sample_os
  /\ space (final_os o) = space sample_os
  /\ (exists calls,
        log (final_os o) = log sample_os ++ calls
        /\ forallb is_realpath calls = true)
  /\ (hasBodies static_Ctx (unitFunctions static_Ctx) = false ->
      o = Exited tt sample_os).
Proof.
  apply (nothing_recorded_nothing_written (H := debug_build)
           (H0 := sample_names) "ctu" static_Ctx sample_mangle sample_os).
  - reflexivity.
  - reflexivity.
  - vm_compute. discriminate.
Defined.

(** ** The entry point *)


(** ** Several processes *)

(** X14: in every state that flushes of several processes to one file can
    reach, at most one process is inside [write], and that process holds
    the lock on the file. *)
Theorem one_writer_at_a_time `{Build} (f : string)
    (buffers : list string) (fs : gmap string string)
    (sched : list (nat * nat)) (i j : nat) (p q : Process) :
  let w := run_schedule sched (flushers f buffers fs) in
  procs w !! i = Some p -> procs w !! j = Some q ->
  in_write p = true -> in_write q = true ->
  i = j /\ wlocks w !! f = Some i.
Proof.
  intros w Hp Hq Hwp Hwq.
  destruct (flushing_reached f buffers fs sched) as (order & Hlen & _ & _ & _ & Hst).
  fold w in Hlen, Hst.
  assert (Hholds : forall k r, procs w !! k = Some r -> in_write r = true ->
                               wlocks w !! f = Some k).
  { intros k r Hr Hw.
    assert (Hk : (k < length buffers)%nat).
    { rewrite <- Hlen. apply lookup_lt_Some in Hr. exact Hr. }
    destruct (lookup_lt_is_Some_2 buffers k Hk) as [b Hb].
    destruct (Hst k b r Hb Hr) as (st & Hat & Hok).
    destruct (at_stage_in_write f b r st Hat Hw) as [done ->].
    destruct Hok as [Hh _]. exact Hh. }
  pose proof (Hholds i p Hp Hwp) as Hi. pose proof (Hholds j q Hq Hwq) as Hj.
  split; [congruence|exact Hi].
Qed.

Lemma one_writer_at_a_time_witness :
  let buffers := ["ab" +:+ String "010" ""; "c" +:+ String "010" ""] in
  let w := run_schedule [(0, 1); (1, 7); (0, 1); (1, 1); (0, 1); (0, 2)]%nat
             (flushers (H := debug_build) "ctu/definedFns.txt" buffers ∅) in
  0%nat = 0%nat /\ wlocks w !! "ctu/definedFns.txt" = Some 0%nat.
Proof.
  intros buffers w.
  eapply (one_writer_at_a_time (H := debug_build) "ctu/definedFns.txt" buffers
            ∅ [(0, 1); (1, 7); (0, 1); (1, 1); (0, 1); (0, 2)]%nat 0 0).
  - vm_compute. reflexivity.
  - vm_compute. reflexivity.
  - reflexivity.
  - reflexivity.
Defined.

(** X15: in every state that the flushes can reach, a process that has
    returned from [lockedWrite] does not hold the lock on the file. *)
Theorem returned_process_holds_no_lock `{Build} (f : string)
    (buffers : list string)
    (fs : gmap string string) (sched : list (nat * nat)) (i : nat)
    (p : Process) :
  let w := run_schedule sched (flushers f buffers fs) in
  procs w !! i = Some p -> exited p = true -> wlocks w !! f <> Some i.
Proof.
  intros w Hp Hex.
  destruct (flushing_reached f buffers fs sched) as (order & Hlen & _ & _ & _ & Hst).
  fold w in Hlen, Hst.
  assert (Hi : (i < length buffers)%nat).
  { rewrite <- Hlen. apply lookup_lt_Some in Hp. exact Hp. }
  destruct (lookup_lt_is_Some_2 buffers i Hi) as [b Hb].
  destruct (Hst i b p Hb Hp) as (st & Hat & Hok).
  destruct (at_stage_exited f b p st Hat Hex) as [[-> _]| ->];
    destruct Hok as [Hn _]; exact Hn.
Qed.

Lemma returned_process_holds_no_lock_witness :
  let buffers := ["ab" +:+ String "010" ""; "c" +:+ String "010" ""] in
  let w := run_schedule sample_schedule
             (flushers (H := debug_build) "ctu/definedFns.txt" buffers ∅) in
  wlocks w !! "ctu/definedFns.txt" <> Some 0%nat.
Proof.
  intros buffers w.
  eapply (returned_process_holds_no_lock (H := debug_build)
            "ctu/definedFns.txt" buffers ∅ sample_schedule 0).
  - vm_compute. reflexivity.
  - reflexivity.
Defined.

(** X16: at every moment of the flushes, not only when all have returned,
    the file is what it was at the start, followed by buffers of the
    processes, each whole, followed by at most the beginning of one more
    buffer. *)
Theorem file_is_whole_buffers_and_a_prefix `{Build} (f : string)
    (buffers : list string)
    (fs : gmap string string) (sched : list (nat * nat)) :
  let w := run_schedule sched (flushers f buffers fs) in
  exists wholes partial rest,
    file_of (wfiles w) f = file_of fs f +:+ str_concat wholes +:+ partial
    /\ (forall s, In s wholes -> In s buffers)
    /\ (partial = "" \/ In (partial +:+ rest) buffers).
Proof.
  intros w.
  destruct (flushing_reached f buffers fs sched)
    as (order & Hlen & Hfile & Hnd & Hlt & Hst).
  fold w in Hlen, Hfile, Hst.
  pose proof (flushing_pieces f buffers w order Hlen Hnd Hlt Hst) as Hpieces.
  assert (Hin_buf : forall j b, buffers !! j = Some b -> In b buffers).
  { intros j b Hb. apply list_elem_of_In, (list_elem_of_lookup_2 _ j), Hb. }
  destruct (snoc_case order) as [->|(order' & [j s] & ->)].
  - exists [], "", "". split; [exact Hfile|]. split; [intros s []|].
    left. reflexivity.
  - destruct (Hpieces j s) as (b & Hb & [->|(Hh & _ & rest & _ & Hrest)]).
    { apply in_app_iff. right. left. reflexivity. }
    + (* the last piece is whole too *)
      exists (map snd (order' ++ [(j, b)])), "", "".
      rewrite str_app_nil_r. split; [exact Hfile|]. split; [|auto].
      intros t Ht. apply in_map_iff in Ht as ([k u] & <- & Hku). cbn [snd].
      destruct (Hpieces k u Hku) as (bk & Hbk & [->|(Hh & l' & r' & El & _)]).
      * exact (Hin_buf k bk Hbk).
      * apply app_inj_tail in El as [_ [= <- <-]]. exact (Hin_buf j b Hb).
    + (* the last piece is the beginning of the holder's buffer *)
      exists (map snd order'), s, rest. split; [|split].
      * rewrite Hfile, map_app, str_concat_app. cbn [map snd str_concat].
        rewrite str_app_nil_r. reflexivity.
      * intros t Ht. apply in_map_iff in Ht as ([k u] & <- & Hku). cbn [snd].
        destruct (Hpieces k u) as (bk & Hbk & [->|(_ & l' & r' & El & _)]).
        { apply in_app_iff. left. exact Hku. }
        -- exact (Hin_buf k bk Hbk).
        -- exfalso. apply app_inj_tail in El as [_ [= <- <-]].
           rewrite map_app in Hnd. apply NoDup_app in Hnd as (_ & Hd & _).
           apply (Hd j).
           ++ apply list_elem_of_In. change j with (fst (j, s)).
              apply in_map, Hku.
           ++ cbn. left.
      * right. rewrite <- Hrest. exact (Hin_buf j b Hb).
Qed.

(** X17: the flushes never get stuck: from every state they can reach,
    however the processes were scheduled so far, there is a way to go on
    after which every process has returned and the lock is free. *)
Theorem flushes_can_always_finish `{Build} (f : string) (buffers : list string)
    (fs : gmap string string) (sched : list (nat * nat)) :
  exists more,
    let w := run_schedule (sched ++ more) (flushers f buffers fs) in
    all_exited w = true /\ wlocks w !! f = None.
Proof.
  set (w0 := run_schedule sched (flushers f buffers fs)).
  destruct (flushing_reached f buffers fs sched)
    as (order & Hlen & _ & _ & _ & Hst). fold w0 in Hlen, Hst.
  pose proof (locks_owned_run_schedule sched _ (flushers_locks_owned f buffers fs))
    as Hown. fold w0 in Hown.
  assert (Hready : exists first w1,
             w1 = run_schedule first w0 /\ wlocks w1 !! f = None
             /\ forall i, In i (seq 0 (length buffers)) ->
                  exists b p n, procs w1 !! i = Some p /\ steps_left f b p n
                                /\ (n < 2 \/ 4 < n)%nat).
  { destruct (wlocks w0 !! f) as [j|] eqn:Hl.
    - pose proof (Hown f j Hl) as Hj.
      destruct (lookup_lt_is_Some_2 _ _ Hj) as [pj Hpj].
      rewrite Hlen in Hj. destruct (lookup_lt_is_Some_2 _ _ Hj) as [bj Hbj].
      destruct (Hst j bj pj Hbj Hpj) as (st & Hat & Hok).
      destruct (at_stage_steps_left f bj pj st Hat) as (n & Hs & Hn).
      destruct st as [|done|]; try (destruct Hok as [Hno _]; congruence).
      destruct (finish_one f bj n w0 j pj Hpj Hs) as (p1 & Hp1 & Hs1 & Hl1 & Ho1).
      { left. rewrite Hl. auto. }
      eexists _, _. split; [reflexivity|]. split; [exact Hl1|].
      intros i Hi. apply in_seq in Hi as [_ Hi]. cbn in Hi.
      destruct (decide (i = j)) as [->|Hij].
      + exists bj, p1, 0%nat. split; [exact Hp1|]. split; [exact Hs1|lia].
      + rewrite (Ho1 i Hij).
        destruct (lookup_lt_is_Some_2 buffers i Hi) as [b Hb].
        rewrite <- Hlen in Hi. destruct (lookup_lt_is_Some_2 _ _ Hi) as [p Hp].
        destruct (Hst i b p Hb Hp) as (st & Hat' & Hok').
        destruct (at_stage_steps_left f b p st Hat') as (m & Hs' & Hm).
        exists b, p, m. split; [exact Hp|]. split; [exact Hs'|].
        destruct st as [|done'|]; try exact Hm.
        destruct Hok' as [Hh _]. congruence.
    - exists [], w0. split; [reflexivity|]. split; [exact Hl|].
      intros i Hi. apply in_seq in Hi as [_ Hi]. cbn in Hi.
      destruct (lookup_lt_is_Some_2 buffers i Hi) as [b Hb].
      rewrite <- Hlen in Hi. destruct (lookup_lt_is_Some_2 _ _ Hi) as [p Hp].
      destruct (Hst i b p Hb Hp) as (st & Hat' & Hok').
      destruct (at_stage_steps_left f b p st Hat') as (m & Hs' & Hm).
      exists b, p, m. split; [exact Hp|]. split; [exact Hs'|].
      destruct st as [|done'|]; try exact Hm.
      destruct Hok' as [Hh _]. congruence. }
  destruct Hready as (first & w1 & Ew1 & Hl1 & Hall).
  destruct (finish_all f (seq 0 (length buffers)) w1 Hl1 Hall)
    as (more & Hl2 & Hex & _).
  exists (first ++ more). cbn zeta.
  assert (Ew : run_schedule (sched ++ first ++ more) (flushers f buffers fs)
               = run_schedule more w1).
  { unfold run_schedule. rewrite !fold_left_app. subst w1. reflexivity. }
  split; [|rewrite Ew; exact Hl2].
  destruct (flushing_reached f buffers fs (sched ++ first ++ more))
    as (_ & Hlen' & _).
  rewrite Ew in Hlen' |- *.
  unfold all_exited. apply forallb_forall. intros p Hp.
  apply list_elem_of_In, list_elem_of_lookup_1 in Hp as [i Hp].
  pose proof (lookup_lt_Some _ _ _ Hp) as Hi. rewrite Hlen' in Hi.
  destruct (Hex i) as (p' & Hp' & He).
  { apply in_seq. lia. }
  congruence.
Qed.
